(** * ExpenseOwl storage core: recurring expenses, categories, tenant isolation

    A shallow embedding of [internal/storage/storage.go] and
    [internal/storage/databaseStore.go], with the flow normalisation and
    the session middleware of the handlers (package api).

    Modelling conventions.
    - A Go [string] is the sequence of its runes (Unicode code points, [Z]).
      The regular expressions and [strings.TrimSpace] of the source work rune
      by rune; a byte that is not valid UTF-8 is read by both as U+FFFD.
    - A [time.Time] is an instant: the number of nanoseconds elapsed since
      0001-01-01T00:00:00 UTC (the instant for which [IsZero] holds).  The
      location that a Go [time.Time] carries is kept beside it where the
      code reads it: [AddDate] takes the location of its receiver, and the
      operations that generate the instances of a rule take the location
      of its start date, next to the rule.  A location is UTC or a fixed
      offset from it, which is what a decoded RFC 3339 timestamp carries;
      locations whose offset changes with time are outside the model.
      [AddDate] follows the standard library: split the instant into the
      civil date and the clock of the location, shift the civil fields,
      and rebuild the instant with [Date], which normalises overflowing
      fields.
    - A [float64] amount is only stored and copied by the code studied here;
      it is represented by the integer number of hundredths that the
      NUMERIC(10,2) column holds.
    - The PostgreSQL database is a record of four tables, each a list of
      rows; the tables of users and sessions are put beside them where the
      code reads them.  Primary keys and the unique index on categories are
      enforced by the insert operations.  The statements that write an
      expense, a rule or a session convert every value to the type of its
      column (VARCHAR(n), NUMERIC(10,2), INTEGER, TIMESTAMPTZ) and fail
      when the column does not hold it.  The id of a user is the id of a
      row of users, an identifier that [uuid.New()] has returned: the
      user_id columns hold it as it is, as the id column holds the
      identifiers that the recurring engine draws.  The rounding of a
      timestamp to microseconds, the NUL character, which no text value
      holds, and backend failures are outside the model.
    - [uuid.New()] and [time.Now()] are inputs: an operation receives the
      sequence of identifiers and the instants that its calls return. *)

From Stdlib Require Import String Ascii ZArith List Bool Lia Permutation Sorted.
Import ListNotations.
Open Scope Z_scope.

(** ** Go strings *)

Definition rune := Z.
Definition gostring := list rune.

(** An ASCII literal as a Go string. *)
Definition lit (s : String.string) : gostring :=
  map (fun a => Z.of_N (N_of_ascii a)) (list_ascii_of_string s).

Fixpoint str_eqb (a b : gostring) : bool :=
  match a, b with
  | [], [] => true
  | x :: a', y :: b' => (x =? y) && str_eqb a' b'
  | _, _ => false
  end.

Definition mem_str (x : gostring) (l : list gostring) : bool :=
  existsb (str_eqb x) l.

(** ** Sanitisation (storage.go, lines 208-224) *)

(** [\s] of Go's regexp syntax: tab, newline, form feed, carriage return,
    space. *)
Definition isReSpace (r : rune) : bool :=
  (r =? 9) || (r =? 10) || (r =? 12) || (r =? 13) || (r =? 32).

(** The literal characters of the class: full stop, comma, hyphen,
    apostrophe, underscore, exclamation mark and double quote. *)
Definition isAllowedPunct (r : rune) : bool :=
  (r =? 46) || (r =? 44) || (r =? 45) || (r =? 39) || (r =? 95) ||
  (r =? 33) || (r =? 34).

(** [unicode.IsSpace]: the White_Space property. *)
Definition isSpace (r : rune) : bool :=
  ((9 <=? r) && (r <=? 13)) || (r =? 32) || (r =? 133) || (r =? 160) ||
  (r =? 5760) || ((8192 <=? r) && (r <=? 8202)) || (r =? 8232) ||
  (r =? 8233) || (r =? 8239) || (r =? 8287) || (r =? 12288).

Definition space : rune := 32.

Fixpoint trimLeft (s : gostring) : gostring :=
  match s with
  | [] => []
  | r :: t => if isSpace r then trimLeft t else s
  end.

Fixpoint trimRight (s : gostring) : gostring :=
  match s with
  | [] => []
  | r :: t =>
      match trimRight t with
      | [] => if isSpace r then [] else [r]
      | t' => r :: t'
      end
  end.

(** [strings.TrimSpace] *)
Definition TrimSpace (s : gostring) : gostring := trimRight (trimLeft s).

(** [RERepeatingSpaces.ReplaceAllString]: every maximal run of white space
    becomes one space.  [inrun] tells that the previous rune belonged to the
    run being replaced. *)
Fixpoint collapseFrom (inrun : bool) (s : gostring) : gostring :=
  match s with
  | [] => []
  | r :: t =>
      if isReSpace r
      then (if inrun then collapseFrom true t else space :: collapseFrom true t)
      else r :: collapseFrom false t
  end.

Definition replaceRepeatingSpaces (s : gostring) : gostring :=
  collapseFrom false s.

Section Unicode.

(** The Unicode general categories L (letters) and N (numbers), as the
    tables of Go's [unicode] package give them. *)
Variable unicodeL : rune -> bool.
Variable unicodeN : rune -> bool.

(** The complement of [REInvalidChars]. *)
Definition validChar (r : rune) : bool :=
  unicodeL r || unicodeN r || isReSpace r || isAllowedPunct r.

(** [REInvalidChars.ReplaceAllString], with a space as replacement *)
Definition replaceInvalidChars (s : gostring) : gostring :=
  map (fun r => if validChar r then r else space) s.

Definition SanitizeString (s : gostring) : gostring :=
  TrimSpace (replaceRepeatingSpaces (replaceInvalidChars s)).

(** [ValidateCategory]: [None] is the error. *)
Definition ValidateCategory (category : gostring) : option gostring :=
  let sanitized := SanitizeString category in
  match sanitized with
  | [] => None
  | _ => Some sanitized
  end.

End Unicode.

(** ** Instants and the civil calendar (package time)

    The source calls [time.Now], [Time.Before], [Time.IsZero] and
    [Time.AddDate].  The definitions below follow the standard library
    that comes with the language version of the source (range over an
    integer needs Go 1.22): days are counted in cycles of 400, 100, 4 and
    1 years. *)

(** An instant: nanoseconds since 0001-01-01T00:00:00 UTC. *)
Definition Time := Z.

(** A location: UTC, or a zone at a fixed offset from UTC, in seconds
    east of it ([time.FixedZone]). *)
Record Location : Type := FixedZone { offset : Z }.

Definition UTC : Location := FixedZone 0.

(** [isLeap] *)
Definition isLeap (year : Z) : bool :=
  (year mod 4 =? 0) && (negb (year mod 100 =? 0) || (year mod 400 =? 0)).

(** [daysBefore[m]]: the days of a non-leap year before month [m+1]. *)
Definition daysBefore (m : Z) : Z :=
  match m with
  | 0 => 0 | 1 => 31 | 2 => 59 | 3 => 90 | 4 => 120 | 5 => 151 | 6 => 181
  | 7 => 212 | 8 => 243 | 9 => 273 | 10 => 304 | 11 => 334 | _ => 365
  end.

(** [daysSinceEpoch]: the days from 0001-01-01 to the first day of
    [year]. *)
Definition daysSinceEpoch (year : Z) : Z :=
  let y := year - 1 in
  let n400 := y / 400 in
  let y1 := y - 400 * n400 in
  let n100 := y1 / 100 in
  let y2 := y1 - 100 * n100 in
  let n4 := y2 / 4 in
  let y3 := y2 - 4 * n4 in
  146097 * n400 + 36524 * n100 + 1461 * n4 + 365 * y3.

(** [absDate]: the year of a day and the day within the year, from 0. *)
Definition absDate (d : Z) : Z * Z :=
  let n400 := d / 146097 in
  let d1 := d - 146097 * n400 in
  let n100 := d1 / 36524 in
  let n100 := n100 - n100 / 4 in
  let d2 := d1 - 36524 * n100 in
  let n4 := d2 / 1461 in
  let d3 := d2 - 1461 * n4 in
  let n1 := d3 / 365 in
  let n1 := n1 - n1 / 4 in
  let d4 := d3 - 365 * n1 in
  (400 * n400 + 100 * n100 + 4 * n4 + n1 + 1, d4).

(** The days of a year. *)
Definition daysInYear (y : Z) : Z := if isLeap y then 366 else 365.

Definition nsPerSecond : Z := 1000000000.

Definition secondsPerDay : Z := 86400.

Definition nsPerDay : Z := secondsPerDay * nsPerSecond.

(** The end of [absDate]: month and day of the month of the day [yday]
    of a year. *)
Definition monthDay (leap : bool) (yday : Z) : Z * Z :=
  if leap && (yday =? 59) then (2, 29)
  else
    let day := if leap && (59 <? yday) then yday - 1 else yday in
    let month := day / 31 in
    let end_ := daysBefore (month + 1) in
    if end_ <=? day then (month + 2, day - end_ + 1)
    else (month + 1, day - daysBefore month + 1).

(** The leap day counts for the months from March on. *)
Definition leapDay (leap : bool) (month : Z) : Z :=
  if leap && (3 <=? month) then 1 else 0.

(** The days of a month. *)
Definition daysIn (leap : bool) (month : Z) : Z :=
  daysBefore month - daysBefore (month - 1) +
  (if leap && (month =? 2) then 1 else 0).

(** Seconds since the epoch, and nanoseconds within the second. *)
Definition absSeconds (t : Time) : Z := t / nsPerSecond.

Definition nsec (t : Time) : Z := t mod nsPerSecond.

(** [Time.Date]: year, month, day. *)
Definition date (t : Time) : Z * Z * Z :=
  let (year, yday) := absDate (absSeconds t / secondsPerDay) in
  let (month, day) := monthDay (isLeap year) yday in
  (year, month, day).

(** [Time.Clock]: hour, minute, second within the day. *)
Definition clock (t : Time) : Z * Z * Z :=
  let sec := absSeconds t mod secondsPerDay in
  let hour := sec / 3600 in
  let sec := sec - hour * 3600 in
  let min := sec / 60 in
  let sec := sec - min * 60 in
  (hour, min, sec).

(** [time.Date] in UTC.  The month is normalised into the year; a day
    beyond the end of the month counts on into the following months.  The
    clock fields are in range where the source calls it. *)
Definition Date (year month day hour min sec nsec : Z) : Time :=
  let m := month - 1 in
  let year := year + m / 12 in
  let m := m mod 12 in
  let month := m + 1 in
  let d := daysSinceEpoch year + daysBefore (month - 1)
           + leapDay (isLeap year) month + (day - 1) in
  (d * secondsPerDay + hour * 3600 + min * 60 + sec) * nsPerSecond + nsec.

(** The wall clock of a location at the instant [t], as the instant at
    which UTC shows the same date and clock: [Time.Date] and [Time.Clock]
    read their fields from it. *)
Definition wall (loc : Location) (t : Time) : Time :=
  t + offset loc * nsPerSecond.

(** [time.Date] in a location: the instant at which the wall clock of the
    location shows the fields. *)
Definition DateIn (loc : Location) (year month day hour min sec nsec : Z)
    : Time :=
  Date year month day hour min sec nsec - offset loc * nsPerSecond.

(** [Time.AddDate]: the date and the clock of [t] are read in the
    location of [t], and the shifted fields are turned into an instant
    in the same location. *)
Definition AddDate (loc : Location) (t : Time) (years months days : Z)
    : Time :=
  let '(year, month, day) := date (wall loc t) in
  let '(hour, min, sec) := clock (wall loc t) in
  DateIn loc (year + years) (month + months) (day + days) hour min sec
    (nsec t).

(** [Time.Before] and [Time.IsZero] *)
Definition Before (t u : Time) : bool := t <? u.

Definition IsZero (t : Time) : bool := t =? 0.
(** ** Data model (storage.go, lines 99-144) *)

(** The error kinds that the operations report.  The source builds every
    error with [fmt.Errorf]; the kinds follow the message: a malformed
    input, a row-scoped statement that matched no row, a violated primary
    key or unique index, a value that the type of its column does not
    hold. *)
Inductive error : Type :=
  | ValidationError
  | NotFoundError
  | ConflictError
  | DataError.

Inductive result (A : Type) : Type :=
  | Ok (a : A)
  | Err (e : error).
Arguments Ok {A} a.
Arguments Err {A} e.

Record RecurringExpense : Type := mkRecurringExpense {
  re_UserID : gostring;
  re_Flow : gostring;
  re_ID : gostring;
  re_Name : gostring;
  re_Amount : Z;
  re_Currency : gostring;
  re_Tags : list gostring;
  re_Category : gostring;
  re_StartDate : Time;
  re_Interval : gostring;
  re_Occurrences : Z
}.

Record Expense : Type := mkExpense {
  e_UserID : gostring;
  e_Flow : gostring;
  e_ID : gostring;
  e_RecurringID : gostring;
  e_Name : gostring;
  e_Tags : list gostring;
  e_Category : gostring;
  e_Amount : Z;
  e_Currency : gostring;
  e_Source : gostring;
  e_Card : gostring;
  e_Date : Time
}.

Record Config : Type := mkConfig {
  cfg_Categories : list gostring;
  cfg_Currency : gostring;
  cfg_StartDate : Z;
  cfg_RecurringExpenses : list RecurringExpense
}.

Definition set_re_Name (e : RecurringExpense) (v : gostring) :=
  mkRecurringExpense (re_UserID e) (re_Flow e) (re_ID e) v (re_Amount e)
    (re_Currency e) (re_Tags e) (re_Category e) (re_StartDate e)
    (re_Interval e) (re_Occurrences e).

Definition set_re_Tags (e : RecurringExpense) (v : list gostring) :=
  mkRecurringExpense (re_UserID e) (re_Flow e) (re_ID e) (re_Name e)
    (re_Amount e) (re_Currency e) v (re_Category e) (re_StartDate e)
    (re_Interval e) (re_Occurrences e).

Definition set_re_ID (e : RecurringExpense) (v : gostring) :=
  mkRecurringExpense (re_UserID e) (re_Flow e) v (re_Name e) (re_Amount e)
    (re_Currency e) (re_Tags e) (re_Category e) (re_StartDate e)
    (re_Interval e) (re_Occurrences e).

Definition set_re_Currency (e : RecurringExpense) (v : gostring) :=
  mkRecurringExpense (re_UserID e) (re_Flow e) (re_ID e) (re_Name e)
    (re_Amount e) v (re_Tags e) (re_Category e) (re_StartDate e)
    (re_Interval e) (re_Occurrences e).

Definition set_e_ID (e : Expense) (v : gostring) :=
  mkExpense (e_UserID e) (e_Flow e) v (e_RecurringID e) (e_Name e) (e_Tags e)
    (e_Category e) (e_Amount e) (e_Currency e) (e_Source e) (e_Card e)
    (e_Date e).

Definition set_e_Currency (e : Expense) (v : gostring) :=
  mkExpense (e_UserID e) (e_Flow e) (e_ID e) (e_RecurringID e) (e_Name e)
    (e_Tags e) (e_Category e) (e_Amount e) v (e_Source e) (e_Card e)
    (e_Date e).

Definition set_e_Date (e : Expense) (v : Time) :=
  mkExpense (e_UserID e) (e_Flow e) (e_ID e) (e_RecurringID e) (e_Name e)
    (e_Tags e) (e_Category e) (e_Amount e) (e_Currency e) (e_Source e)
    (e_Card e) v.

Definition isEmpty (s : gostring) : bool :=
  match s with [] => true | _ => false end.

Definition defaultCategories : list gostring :=
  [lit "Food"; lit "Groceries"; lit "Travel"; lit "Rent"; lit "Utilities";
   lit "Entertainment"; lit "Healthcare"; lit "Shopping";
   lit "Miscellaneous"; lit "Income"].

Definition SupportedCurrencies : list gostring :=
  [lit "ars"; lit "usd"; lit "eur"].

(** The map [validIntervals] of [RecurringExpense.Validate]. *)
Definition validIntervals (interval : gostring) : bool :=
  str_eqb interval (lit "daily") || str_eqb interval (lit "weekly") ||
  str_eqb interval (lit "monthly") || str_eqb interval (lit "yearly").

(** ** Validation of a recurring rule (storage.go, lines 258-292) *)

Section Validation.

Variable unicodeL : rune -> bool.
Variable unicodeN : rune -> bool.

(** The loop over [e.Tags]: sanitise every tag and keep the non-empty
    ones. *)
Definition cleanTags (tags : list gostring) : list gostring :=
  filter (fun t => negb (isEmpty t))
         (map (SanitizeString unicodeL unicodeN) tags).

(** [(e *RecurringExpense) Validate()] works on the rule in place: the
    result is the rule as the method leaves it and the error, if any. *)
Definition Validate (e : RecurringExpense) : RecurringExpense * option error :=
  let e := set_re_Name e (SanitizeString unicodeL unicodeN (re_Name e)) in
  if isEmpty (re_Name e) then (e, Some ValidationError)
  else if isEmpty (re_Category e) then (e, Some ValidationError)
  else
    let e := match re_Tags e with
             | [] => e
             | tags => set_re_Tags e (cleanTags tags)
             end in
    if re_Occurrences e <? 2 then (e, Some ValidationError)
    else if IsZero (re_StartDate e) then (e, Some ValidationError)
    else if negb (validIntervals (re_Interval e))
         then (e, Some ValidationError)
    else (e, None).

End Validation.

(** ** The recurring engine (databaseStore.go, lines 945-1001) *)

(** The [switch recExp.Interval] that both loops of
    [generateExpensesFromRecurring] run: the next date, or [None] in the
    [default] branch.  [loc] is the location of [currentDate]. *)
Definition nextDate (loc : Location) (interval : gostring)
    (currentDate : Time) : option Time :=
  if str_eqb interval (lit "daily")
  then Some (AddDate loc currentDate 0 0 1)
  else if str_eqb interval (lit "weekly")
  then Some (AddDate loc currentDate 0 0 7)
  else if str_eqb interval (lit "monthly")
  then Some (AddDate loc currentDate 0 1 0)
  else if str_eqb interval (lit "yearly")
  then Some (AddDate loc currentDate 1 0 0)
  else None.

(** How the first loop (taken when [fromToday] holds) ends. *)
Inductive skipped : Type :=
  | Reached (currentDate : Time) (occurrencesToGenerate : Z)
  | InvalidInterval
  | OutOfFuel.

(** The first loop.  [fuel] bounds the number of iterations; [skipFuel]
    below gives a bound that the loop never exhausts. *)
Fixpoint skipPast (loc : Location) (fuel : nat) (today : Time)
    (recExp : RecurringExpense) (currentDate : Time)
    (occurrencesToGenerate : Z) : skipped :=
  if Before currentDate today &&
     ((re_Occurrences recExp =? 0) || (0 <? occurrencesToGenerate))
  then
    match fuel with
    | O => OutOfFuel
    | S fuel' =>
        match nextDate loc (re_Interval recExp) currentDate with
        | None => InvalidInterval
        | Some next =>
            skipPast loc fuel' today recExp next
              (if 0 <? re_Occurrences recExp
               then occurrencesToGenerate - 1 else occurrencesToGenerate)
        end
    end
  else Reached currentDate occurrencesToGenerate.

(** Every iteration either lowers a positive budget or, when the rule has
    [Occurrences = 0], moves the date forward by a day at least. *)
Definition skipFuel (today : Time) (recExp : RecurringExpense) : nat :=
  if re_Occurrences recExp =? 0
  then Z.to_nat ((today - re_StartDate recExp) / nsPerDay + 1)
  else Z.to_nat (re_Occurrences recExp).

Section Generate.

(** [uuid k] is the identifier that the [k]-th call of [uuid.New()]
    returns (counted from 0); [loc] is the location of
    [recExp.StartDate], which every date of the loops inherits. *)
Variable uuid : nat -> gostring.
Variable userID : gostring.
Variable recExp : RecurringExpense.
Variable loc : Location.

Definition instance (k : nat) (currentDate : Time) : Expense :=
  {| e_UserID := userID;
     e_Flow := [];
     e_ID := uuid k;
     e_RecurringID := re_ID recExp;
     e_Name := re_Name recExp;
     e_Tags := re_Tags recExp;
     e_Category := re_Category recExp;
     e_Amount := re_Amount recExp;
     e_Currency := re_Currency recExp;
     e_Source := [];
     e_Card := [];
     e_Date := currentDate |}.

(** The second loop, [for range limit]: [limit] iterations left, [k]
    instances appended so far. *)
Fixpoint emit (limit : nat) (k : nat) (currentDate : Time) : list Expense :=
  match limit with
  | O => []
  | S limit' =>
      let expense := instance k currentDate in
      match nextDate loc (re_Interval recExp) currentDate with
      | None => [expense]
      | Some next => expense :: emit limit' (S k) next
      end
  end.

Definition generateExpensesFromRecurring (today : Time) (fromToday : bool)
    : list Expense :=
  if fromToday then
    match skipPast loc (skipFuel today recExp) today recExp
                   (re_StartDate recExp) (re_Occurrences recExp) with
    | Reached currentDate occurrencesToGenerate =>
        emit (Z.to_nat occurrencesToGenerate) 0 currentDate
    | InvalidInterval => []
    | OutOfFuel => []
    end
  else emit (Z.to_nat (re_Occurrences recExp)) 0 (re_StartDate recExp).

End Generate.
(** ** The database (databaseStore.go, lines 22-95) *)

(** Rows, with the columns in the order of the CREATE TABLE statements.  A
    column that may hold NULL is an [option]. *)
Record expenseRow : Type := mkExpenseRow {
  x_id : gostring;
  x_user_id : gostring;
  x_recurring_id : option gostring;
  x_name : gostring;
  x_category : gostring;
  x_amount : Z;
  x_currency : gostring;
  x_date : Time;
  x_tags : list gostring;
  x_source : option gostring;
  x_card : option gostring
}.

Record recurringRow : Type := mkRecurringRow {
  r_id : gostring;
  r_user_id : gostring;
  r_name : gostring;
  r_amount : Z;
  r_currency : gostring;
  r_category : gostring;
  r_start_date : Time;
  r_interval : gostring;
  r_occurrences : Z;
  r_tags : list gostring
}.

(** The serial [id] and [created_at] of a category are never read or
    written by the store; they are left out. *)
Record categoryRow : Type := mkCategoryRow {
  c_user_id : gostring;
  c_name : gostring;
  c_position : Z
}.

Record userConfigRow : Type := mkUserConfigRow {
  u_user_id : gostring;
  u_currency : gostring;
  u_start_date : Z
}.

Record DB : Type := mkDB {
  expenses : list expenseRow;
  recurring_expenses : list recurringRow;
  categories : list categoryRow;
  user_config : list userConfigRow
}.

Definition emptyDB : DB := mkDB [] [] [] [].

Definition with_expenses (db : DB) (t : list expenseRow) : DB :=
  mkDB t (recurring_expenses db) (categories db) (user_config db).
Definition with_recurring (db : DB) (t : list recurringRow) : DB :=
  mkDB (expenses db) t (categories db) (user_config db).
Definition with_categories (db : DB) (t : list categoryRow) : DB :=
  mkDB (expenses db) (recurring_expenses db) t (user_config db).
Definition with_user_config (db : DB) (t : list userConfigRow) : DB :=
  mkDB (expenses db) (recurring_expenses db) (categories db) t.

(** *** Statements scoped by user_id

    Every statement of the store has the shape
    [... WHERE user_id = $1 AND cond]. *)
Section Statements.

Context {row : Type}.
Variable user : row -> gostring.

Definition owned (userID : gostring) (r : row) : bool :=
  str_eqb (user r) userID.

(** SELECT ... WHERE user_id = userID AND cond *)
Definition selectWhere (userID : gostring) (cond : row -> bool)
    (t : list row) : list row :=
  filter (fun r => owned userID r && cond r) t.

(** DELETE ... WHERE user_id = userID AND cond *)
Definition deleteWhere (userID : gostring) (cond : row -> bool)
    (t : list row) : list row :=
  filter (fun r => negb (owned userID r && cond r)) t.

(** UPDATE ... SET ... WHERE user_id = userID AND cond *)
Definition updateWhere (userID : gostring) (cond : row -> bool)
    (set : row -> row) (t : list row) : list row :=
  map (fun r => if owned userID r && cond r then set r else r) t.

(** [RowsAffected] of the two statements above. *)
Definition rowsAffected (userID : gostring) (cond : row -> bool)
    (t : list row) : nat :=
  length (selectWhere userID cond t).

End Statements.

Definition any {row : Type} (r : row) : bool := true.

(** ORDER BY: a stable insertion sort; [before a b] tells that [a] may
    precede [b]. *)
Fixpoint insertBy {A : Type} (before : A -> A -> bool) (x : A) (l : list A)
    : list A :=
  match l with
  | [] => [x]
  | y :: l' => if before x y then x :: l else y :: insertBy before x l'
  end.

Definition sortBy {A : Type} (before : A -> A -> bool) (l : list A) : list A :=
  fold_right (insertBy before) [] l.

(** INSERT under a primary key: the rows go in one by one, and a key that
    is already there makes the statement fail. *)
Fixpoint insertRows {row : Type} (key : row -> gostring) (rows : list row)
    (t : list row) : option (list row) :=
  match rows with
  | [] => Some t
  | r :: rest =>
      if mem_str (key r) (map key t) then None
      else insertRows key rest (t ++ [r])
  end.

(** *** Column types (lines 50-77)

    A statement converts the values it is given to the types of their
    columns when it is bound, before it runs, and COPY converts the
    fields of the rows as it reads them, before it inserts them.  [None]
    is the error of a value that the type does not hold.  A TEXT column
    holds every string. *)

(** VARCHAR(n): a value of more than [n] characters is an error, unless
    the characters after the [n]-th are all spaces, which are cut off. *)
Definition varchar (n : nat) (s : gostring) : option gostring :=
  if (length s <=? n)%nat then Some s
  else if forallb (fun r => r =? space) (skipn n s) then Some (firstn n s)
  else None.

(** NUMERIC(10, 2): fewer than nine digits before the decimal point.  The
    amount is a number of hundredths. *)
Definition numeric_10_2 (amount : Z) : option Z :=
  if Z.abs amount <? 10 ^ 10 then Some amount else None.

(** INTEGER: 32 bits. *)
Definition integer (n : Z) : option Z :=
  if (- 2 ^ 31 <=? n) && (n <? 2 ^ 31) then Some n else None.

(** TIMESTAMPTZ: from 24 November 4714 BC on and before the year
    294277. *)
Definition inTimestampRange (t : Time) : bool :=
  (Date (-4713) 11 24 0 0 0 0 <=? t) && (t <? Date 294277 1 1 0 0 0 0).

Definition timestamptz (t : Time) : option Time :=
  if inTimestampRange t then Some t else None.

Notation "x <- a ;; b" :=
  (match a with Some x => b | None => None end)
  (at level 61, a at next level, right associativity, only parsing).

(** The conversion of every element of a list; the first error is the
    error of the whole. *)
Fixpoint forEach {A B : Type} (f : A -> option B) (l : list A)
    : option (list B) :=
  match l with
  | [] => Some []
  | a :: rest => b <- f a;; bs <- forEach f rest;; Some (b :: bs)
  end.

(** The columns of [expenses] that the UPDATE of [UpdateExpense] sets and
    that, with the id, the INSERT of [AddExpense] and the COPY of the
    instances of a rule fill from an expense.  The column user_id takes
    the id of the user that the handler has read from the session, the
    id of a row of [users]; tags is TEXT. *)
Definition expenseColumns (e : Expense) : option Expense :=
  recurringID <- varchar 36 (e_RecurringID e);;
  name <- varchar 255 (e_Name e);;
  category <- varchar 255 (e_Category e);;
  amount <- numeric_10_2 (e_Amount e);;
  currency <- varchar 3 (e_Currency e);;
  date <- timestamptz (e_Date e);;
  source <- varchar 50 (e_Source e);;
  card <- varchar 100 (e_Card e);;
  Some (mkExpense (e_UserID e) (e_Flow e) (e_ID e) recurringID name
          (e_Tags e) category amount currency source card date).

(** The columns of [recurring_expenses] that the UPDATE of
    [UpdateRecurringExpense] sets and that, with the id, the INSERT of
    [AddRecurringExpense] fills from a rule. *)
Definition ruleColumns (re : RecurringExpense) : option RecurringExpense :=
  name <- varchar 255 (re_Name re);;
  amount <- numeric_10_2 (re_Amount re);;
  currency <- varchar 3 (re_Currency re);;
  category <- varchar 255 (re_Category re);;
  startDate <- timestamptz (re_StartDate re);;
  interval <- varchar 50 (re_Interval re);;
  occurrences <- integer (re_Occurrences re);;
  Some (mkRecurringExpense (re_UserID re) (re_Flow re) (re_ID re) name
          amount currency (re_Tags re) category startDate interval
          occurrences).

(** *** Per-user configuration (lines 432-448, 551-599) *)

Definition getOrCreateUserConfig (db : DB) (userID : gostring)
    : gostring * Z * DB :=
  match selectWhere u_user_id userID any (user_config db) with
  | r :: _ => (u_currency r, u_start_date r, db)
  | [] =>
      (lit "usd", 1,
       with_user_config db
         (user_config db ++ [mkUserConfigRow userID (lit "usd") 1]))
  end.

Definition GetCurrency (db : DB) (userID : gostring) : gostring * DB :=
  let '(currency, _, db') := getOrCreateUserConfig db userID in
  (currency, db').

Definition GetStartDate (db : DB) (userID : gostring) : Z * DB :=
  let '(_, startDate, db') := getOrCreateUserConfig db userID in
  (startDate, db').

(** INSERT INTO user_config ... ON CONFLICT (user_id) DO UPDATE SET ... *)
Definition upsertUserConfig (userID : gostring) (new : userConfigRow)
    (set : userConfigRow -> userConfigRow) (t : list userConfigRow)
    : list userConfigRow :=
  match selectWhere u_user_id userID any t with
  | [] => t ++ [new]
  | _ => updateWhere u_user_id userID any set t
  end.

Definition UpdateCurrency (db : DB) (userID currency : gostring)
    : result unit * DB :=
  if negb (mem_str currency SupportedCurrencies) then (Err ValidationError, db)
  else
    let '(_, startDate, db') := getOrCreateUserConfig db userID in
    (Ok tt,
     with_user_config db'
       (upsertUserConfig userID (mkUserConfigRow userID currency startDate)
          (fun r => mkUserConfigRow (u_user_id r) currency (u_start_date r))
          (user_config db'))).

Definition UpdateStartDate (db : DB) (userID : gostring) (startDate : Z)
    : result unit * DB :=
  if (startDate <? 1) || (31 <? startDate) then (Err ValidationError, db)
  else
    let '(currency, _, db') := getOrCreateUserConfig db userID in
    (Ok tt,
     with_user_config db'
       (upsertUserConfig userID (mkUserConfigRow userID currency startDate)
          (fun r => mkUserConfigRow (u_user_id r) (u_currency r) startDate)
          (user_config db'))).

(** *** Categories (lines 320-341, 450-549) *)

Definition hasName (name : gostring) (r : categoryRow) : bool :=
  str_eqb (c_name r) name.

(** INSERT INTO categories (user_id, name, position) ...
    ON CONFLICT (user_id, name) DO UPDATE SET position = EXCLUDED.position *)
Definition upsertCategory (userID name : gostring) (position : Z)
    (t : list categoryRow) : list categoryRow :=
  match selectWhere c_user_id userID (hasName name) t with
  | [] => t ++ [mkCategoryRow userID name position]
  | _ =>
      updateWhere c_user_id userID (hasName name)
        (fun r => mkCategoryRow (c_user_id r) (c_name r) position) t
  end.

(** [for i, name := range categories]: upsert [name] at position [i+1]. *)
Fixpoint upsertCategories (userID : gostring) (names : list gostring) (i : Z)
    (t : list categoryRow) : list categoryRow :=
  match names with
  | [] => t
  | name :: rest =>
      upsertCategories userID rest (i + 1) (upsertCategory userID name (i + 1) t)
  end.

Definition seedCategories (db : DB) (userID : gostring)
    (names : list gostring) : DB :=
  with_categories db (upsertCategories userID names 0 (categories db)).

Definition getCategoriesFromTable (db : DB) (userID : gostring)
    : list gostring :=
  map c_name
    (sortBy (fun a b => c_position a <=? c_position b)
       (selectWhere c_user_id userID any (categories db))).

Definition GetCategories (db : DB) (userID : gostring)
    : list gostring * DB :=
  match getCategoriesFromTable db userID with
  | [] => (defaultCategories, seedCategories db userID defaultCategories)
  | names => (names, db)
  end.

Definition updateCategoriesTable (db : DB) (userID : gostring)
    (names : list gostring) : result unit * DB :=
  if (length names =? 0)%nat then (Err ValidationError, db)
  else if existsb (fun cat => isEmpty (TrimSpace cat)) names
       then (Err ValidationError, db)
  else
    let t := upsertCategories userID names 0 (categories db) in
    let t := deleteWhere c_user_id userID
               (fun r => negb (mem_str (c_name r) names)) t in
    (Ok tt, with_categories db t).

Definition UpdateCategories := updateCategoriesTable.

(** *** Expenses (lines 601-763) *)

Definition orEmpty (s : option gostring) : gostring :=
  match s with
  | Some v => v
  | None => []
  end.

Definition scanExpense (r : expenseRow) : Expense :=
  {| e_UserID := [];
     e_Flow := [];
     e_ID := x_id r;
     e_RecurringID := orEmpty (x_recurring_id r);
     e_Name := x_name r;
     e_Tags := x_tags r;
     e_Category := x_category r;
     e_Amount := x_amount r;
     e_Currency := x_currency r;
     e_Source := orEmpty (x_source r);
     e_Card := orEmpty (x_card r);
     e_Date := x_date r |}.

Definition hasID (id : gostring) (r : expenseRow) : bool :=
  str_eqb (x_id r) id.

Definition GetAllExpenses (db : DB) (userID : gostring) : list Expense :=
  map scanExpense
    (sortBy (fun a b => x_date b <=? x_date a)
       (selectWhere x_user_id userID any (expenses db))).

Definition GetExpense (db : DB) (userID id : gostring) : result Expense :=
  match selectWhere x_user_id userID (hasID id) (expenses db) with
  | r :: _ => Ok (scanExpense r)
  | [] => Err NotFoundError
  end.

(** The currency of the user, when the expense or rule names none. *)
Definition defaultCurrency (db : DB) (userID currency : gostring)
    : gostring * DB :=
  if isEmpty currency then GetCurrency db userID else (currency, db).

Definition AddExpense (uuid : nat -> gostring) (now : Time) (db : DB)
    (userID : gostring) (expense : Expense) : result unit * DB :=
  let expense :=
    if isEmpty (e_ID expense) then set_e_ID expense (uuid 0%nat) else expense in
  let '(currency, db) := defaultCurrency db userID (e_Currency expense) in
  let expense := set_e_Currency expense currency in
  let expense :=
    if IsZero (e_Date expense) then set_e_Date expense now else expense in
  match id <- varchar 36 (e_ID expense);;
        stored <- expenseColumns expense;;
        Some (set_e_ID stored id)
  with
  | None => (Err DataError, db)
  | Some expense =>
      let r :=
        mkExpenseRow (e_ID expense) userID (Some (e_RecurringID expense))
          (e_Name expense) (e_Category expense) (e_Amount expense)
          (e_Currency expense) (e_Date expense) (e_Tags expense)
          (Some (e_Source expense)) (Some (e_Card expense)) in
      match insertRows x_id [r] (expenses db) with
      | Some t => (Ok tt, with_expenses db t)
      | None => (Err ConflictError, db)
      end
  end.

(** The SET clause of [UpdateExpense]: every column but id and user_id. *)
Definition setExpense (expense : Expense) (r : expenseRow) : expenseRow :=
  mkExpenseRow (x_id r) (x_user_id r) (Some (e_RecurringID expense))
    (e_Name expense) (e_Category expense) (e_Amount expense)
    (e_Currency expense) (e_Date expense) (e_Tags expense)
    (Some (e_Source expense)) (Some (e_Card expense)).

Definition UpdateExpense (db : DB) (userID id : gostring) (expense : Expense)
    : result unit * DB :=
  let '(currency, db) := defaultCurrency db userID (e_Currency expense) in
  let expense := set_e_Currency expense currency in
  match expenseColumns expense with
  | None => (Err DataError, db)
  | Some expense =>
      match rowsAffected x_user_id userID (hasID id) (expenses db) with
      | O => (Err NotFoundError, db)
      | S _ =>
          (Ok tt,
           with_expenses db
             (updateWhere x_user_id userID (hasID id) (setExpense expense)
                (expenses db)))
      end
  end.

Definition RemoveExpense (db : DB) (userID id : gostring) : result unit * DB :=
  match rowsAffected x_user_id userID (hasID id) (expenses db) with
  | O => (Err NotFoundError, db)
  | S _ =>
      (Ok tt,
       with_expenses db (deleteWhere x_user_id userID (hasID id) (expenses db)))
  end.

Definition RemoveMultipleExpenses (db : DB) (userID : gostring)
    (ids : list gostring) : result unit * DB :=
  match ids with
  | [] => (Ok tt, db)
  | _ =>
      (Ok tt,
       with_expenses db
         (deleteWhere x_user_id userID (fun r => mem_str (x_id r) ids)
            (expenses db)))
  end.

(** *** Recurring rules (lines 765-943) *)

Definition scanRecurringExpense (r : recurringRow) : RecurringExpense :=
  {| re_UserID := [];
     re_Flow := [];
     re_ID := r_id r;
     re_Name := r_name r;
     re_Amount := r_amount r;
     re_Currency := r_currency r;
     re_Tags := r_tags r;
     re_Category := r_category r;
     re_StartDate := r_start_date r;
     re_Interval := r_interval r;
     re_Occurrences := r_occurrences r |}.

Definition hasRuleID (id : gostring) (r : recurringRow) : bool :=
  str_eqb (r_id r) id.

Definition GetRecurringExpenses (db : DB) (userID : gostring)
    : list RecurringExpense :=
  map scanRecurringExpense
    (selectWhere r_user_id userID any (recurring_expenses db)).

Definition GetRecurringExpense (db : DB) (userID id : gostring)
    : result RecurringExpense :=
  match selectWhere r_user_id userID (hasRuleID id) (recurring_expenses db) with
  | r :: _ => Ok (scanRecurringExpense r)
  | [] => Err NotFoundError
  end.

(** The row that the INSERT of [AddRecurringExpense] writes. *)
Definition ruleRow (userID : gostring) (re : RecurringExpense) : recurringRow :=
  mkRecurringRow (re_ID re) userID (re_Name re) (re_Amount re)
    (re_Currency re) (re_Category re) (re_StartDate re) (re_Interval re)
    (re_Occurrences re) (re_Tags re).

(** The row that the COPY of a generated instance writes; the statement
    names no source and no card. *)
Definition instanceRow (exp : Expense) : expenseRow :=
  mkExpenseRow (e_ID exp) (e_UserID exp) (Some (e_RecurringID exp))
    (e_Name exp) (e_Category exp) (e_Amount exp) (e_Currency exp)
    (e_Date exp) (e_Tags exp) None None.

(** [recurring_id = $2] *)
Definition ofRule (id : gostring) (r : expenseRow) : bool :=
  match x_recurring_id r with
  | Some rid => str_eqb rid id
  | None => false
  end.

(** [recurring_id = $2 AND date > $3] *)
Definition ofRuleAfter (id : gostring) (now : Time) (r : expenseRow) : bool :=
  ofRule id r && (now <? x_date r).

(** The two DELETE statements on the instances of a rule. *)
Definition deleteInstances (userID id : gostring) (all : bool) (now : Time)
    (t : list expenseRow) : list expenseRow :=
  if all then deleteWhere x_user_id userID (ofRule id) t
  else deleteWhere x_user_id userID (ofRuleAfter id now) t.

(** COPY expenses (id, user_id, recurring_id, name, category, amount,
    currency, date, tags) FROM STDIN, with the instances that the engine
    has generated: the rows are read, which converts their fields to the
    types of the columns, and inserted under the primary key.  The ids
    are the identifiers that [uuid.New()] has returned, of 36
    characters. *)
Definition copyIn (expensesToAdd : list Expense) (t : list expenseRow)
    : result (list expenseRow) :=
  match forEach expenseColumns expensesToAdd with
  | None => Err DataError
  | Some stored =>
      match insertRows x_id (map instanceRow stored) t with
      | None => Err ConflictError
      | Some rows => Ok rows
      end
  end.

(** A transaction that fails is rolled back: the database is the one the
    transaction started from.  [GetCurrency] runs on the store's own
    connection, outside the transaction, so a configuration row that it
    creates stays.  [loc] is the location of the start date of the
    rule. *)
Definition AddRecurringExpense (uuid : nat -> gostring) (today : Time)
    (db : DB) (userID : gostring) (recurringExpense : RecurringExpense)
    (loc : Location) : result unit * DB :=
  let '(recurringExpense, uuid) :=
    if isEmpty (re_ID recurringExpense)
    then (set_re_ID recurringExpense (uuid 0%nat), fun k => uuid (S k))
    else (recurringExpense, uuid) in
  let '(currency, db) :=
    defaultCurrency db userID (re_Currency recurringExpense) in
  let recurringExpense := set_re_Currency recurringExpense currency in
  match id <- varchar 36 (re_ID recurringExpense);;
        stored <- ruleColumns recurringExpense;;
        Some (set_re_ID stored id)
  with
  | None => (Err DataError, db)
  | Some stored =>
      match insertRows r_id [ruleRow userID stored]
              (recurring_expenses db) with
      | None => (Err ConflictError, db)
      | Some rules =>
          let expensesToAdd :=
            generateExpensesFromRecurring uuid userID recurringExpense loc
              today false in
          match copyIn expensesToAdd (expenses db) with
          | Err err => (Err err, db)
          | Ok rows => (Ok tt, with_expenses (with_recurring db rules) rows)
          end
      end
  end.

(** The SET clause of [UpdateRecurringExpense]: every column but id and
    user_id. *)
Definition setRule (re : RecurringExpense) (r : recurringRow) : recurringRow :=
  mkRecurringRow (r_id r) (r_user_id r) (re_Name re) (re_Amount re)
    (re_Currency re) (re_Category re) (re_StartDate re) (re_Interval re)
    (re_Occurrences re) (re_Tags re).

(** The transaction of [UpdateRecurringExpense], run on the rule that
    carries the id of the call and its currency. *)
Definition updateRecurringTx (uuid : nat -> gostring) (now today : Time)
    (db : DB) (userID id : gostring) (recurringExpense : RecurringExpense)
    (loc : Location) (updateAll : bool) : result unit * DB :=
  match ruleColumns recurringExpense with
  | None => (Err DataError, db)
  | Some stored =>
      match rowsAffected r_user_id userID (hasRuleID id)
              (recurring_expenses db) with
      | O => (Err NotFoundError, db)
      | S _ =>
          let rules :=
            updateWhere r_user_id userID (hasRuleID id) (setRule stored)
              (recurring_expenses db) in
          let kept := deleteInstances userID id updateAll now (expenses db) in
          let expensesToAdd :=
            generateExpensesFromRecurring uuid userID recurringExpense loc
              today (negb updateAll) in
          match copyIn expensesToAdd kept with
          | Err err => (Err err, db)
          | Ok rows => (Ok tt, with_expenses (with_recurring db rules) rows)
          end
      end
  end.

Definition UpdateRecurringExpense (uuid : nat -> gostring)
    (now today : Time) (db : DB) (userID id : gostring)
    (recurringExpense : RecurringExpense) (loc : Location)
    (updateAll : bool) : result unit * DB :=
  let recurringExpense := set_re_ID recurringExpense id in
  let '(currency, db) :=
    defaultCurrency db userID (re_Currency recurringExpense) in
  updateRecurringTx uuid now today db userID id
    (set_re_Currency recurringExpense currency) loc updateAll.

Definition RemoveRecurringExpense (now : Time) (db : DB)
    (userID id : gostring) (removeAll : bool) : result unit * DB :=
  match rowsAffected r_user_id userID (hasRuleID id) (recurring_expenses db) with
  | O => (Err NotFoundError, db)
  | S _ =>
      (Ok tt,
       with_expenses
         (with_recurring db
            (deleteWhere r_user_id userID (hasRuleID id)
               (recurring_expenses db)))
         (deleteInstances userID id removeAll now (expenses db)))
  end.

(** *** The configuration of a user (lines 410-430) *)

Definition GetConfig (db : DB) (userID : gostring) : Config * DB :=
  let '(currency, startDate, db) := getOrCreateUserConfig db userID in
  let '(names, db) := GetCategories db userID in
  let recurring := GetRecurringExpenses db userID in
  (mkConfig names currency startDate recurring, db).

(** ** The storage interface as requests (storage.go, lines 12-63)

    The reads, updates and deletes of expenses, recurring rules,
    categories and configuration that the interface offers to a user.  A
    rule comes with the location of its start date. *)
Inductive request : Type :=
  | GetConfigReq
  | GetCategoriesReq
  | UpdateCategoriesReq (names : list gostring)
  | GetCurrencyReq
  | UpdateCurrencyReq (currency : gostring)
  | GetStartDateReq
  | UpdateStartDateReq (startDate : Z)
  | GetRecurringExpensesReq
  | GetRecurringExpenseReq (id : gostring)
  | RemoveRecurringExpenseReq (id : gostring) (removeAll : bool)
  | UpdateRecurringExpenseReq (id : gostring)
      (recurringExpense : RecurringExpense) (loc : Location)
      (updateAll : bool)
  | GetAllExpensesReq
  | GetExpenseReq (id : gostring)
  | RemoveExpenseReq (id : gostring)
  | RemoveMultipleExpensesReq (ids : list gostring)
  | UpdateExpenseReq (id : gostring) (expense : Expense).

Inductive response : Type :=
  | ConfigResp (config : Config)
  | NamesResp (names : list gostring)
  | CurrencyResp (currency : gostring)
  | StartDateResp (startDate : Z)
  | RulesResp (rules : list RecurringExpense)
  | RuleResp (rule : result RecurringExpense)
  | ExpensesResp (all : list Expense)
  | ExpenseResp (expense : result Expense)
  | DoneResp (outcome : result unit).

(** What a call draws from outside the database: the identifiers of
    [uuid.New()], the instant of the DELETE statement and the instant that
    the recurring engine reads. *)
Record environment : Type := mkEnvironment {
  env_uuid : nat -> gostring;
  env_now : Time;
  env_today : Time
}.

Definition serve (env : environment) (db : DB) (userID : gostring)
    (req : request) : response * DB :=
  match req with
  | GetConfigReq =>
      let '(config, db') := GetConfig db userID in (ConfigResp config, db')
  | GetCategoriesReq =>
      let '(names, db') := GetCategories db userID in (NamesResp names, db')
  | UpdateCategoriesReq names =>
      let '(outcome, db') := UpdateCategories db userID names in
      (DoneResp outcome, db')
  | GetCurrencyReq =>
      let '(currency, db') := GetCurrency db userID in
      (CurrencyResp currency, db')
  | UpdateCurrencyReq currency =>
      let '(outcome, db') := UpdateCurrency db userID currency in
      (DoneResp outcome, db')
  | GetStartDateReq =>
      let '(startDate, db') := GetStartDate db userID in
      (StartDateResp startDate, db')
  | UpdateStartDateReq startDate =>
      let '(outcome, db') := UpdateStartDate db userID startDate in
      (DoneResp outcome, db')
  | GetRecurringExpensesReq => (RulesResp (GetRecurringExpenses db userID), db)
  | GetRecurringExpenseReq id => (RuleResp (GetRecurringExpense db userID id), db)
  | RemoveRecurringExpenseReq id removeAll =>
      let '(outcome, db') :=
        RemoveRecurringExpense (env_now env) db userID id removeAll in
      (DoneResp outcome, db')
  | UpdateRecurringExpenseReq id recurringExpense loc updateAll =>
      let '(outcome, db') :=
        UpdateRecurringExpense (env_uuid env) (env_now env) (env_today env)
          db userID id recurringExpense loc updateAll in
      (DoneResp outcome, db')
  | GetAllExpensesReq => (ExpensesResp (GetAllExpenses db userID), db)
  | GetExpenseReq id => (ExpenseResp (GetExpense db userID id), db)
  | RemoveExpenseReq id =>
      let '(outcome, db') := RemoveExpense db userID id in
      (DoneResp outcome, db')
  | RemoveMultipleExpensesReq ids =>
      let '(outcome, db') := RemoveMultipleExpenses db userID ids in
      (DoneResp outcome, db')
  | UpdateExpenseReq id expense =>
      let '(outcome, db') := UpdateExpense db userID id expense in
      (DoneResp outcome, db')
  end.

(** ** Validation of an expense (storage.go, lines 226-256) *)

Definition set_e_Name (e : Expense) (v : gostring) :=
  mkExpense (e_UserID e) (e_Flow e) (e_ID e) (e_RecurringID e) v (e_Tags e)
    (e_Category e) (e_Amount e) (e_Currency e) (e_Source e) (e_Card e)
    (e_Date e).

Definition set_e_Tags (e : Expense) (v : list gostring) :=
  mkExpense (e_UserID e) (e_Flow e) (e_ID e) (e_RecurringID e) (e_Name e) v
    (e_Category e) (e_Amount e) (e_Currency e) (e_Source e) (e_Card e)
    (e_Date e).

Definition set_e_Source (e : Expense) (v : gostring) :=
  mkExpense (e_UserID e) (e_Flow e) (e_ID e) (e_RecurringID e) (e_Name e)
    (e_Tags e) (e_Category e) (e_Amount e) (e_Currency e) v (e_Card e)
    (e_Date e).

Definition set_e_Card (e : Expense) (v : gostring) :=
  mkExpense (e_UserID e) (e_Flow e) (e_ID e) (e_RecurringID e) (e_Name e)
    (e_Tags e) (e_Category e) (e_Amount e) (e_Currency e) (e_Source e) v
    (e_Date e).

Section ExpenseValidation.

Variable unicodeL : rune -> bool.
Variable unicodeN : rune -> bool.

(** [(e *Expense) Validate()] works on the expense in place: the result
    is the expense as the method leaves it and the error, if any.  The
    source and the card are sanitised only once name, category and amount
    have passed. *)
Definition Expense_Validate (e : Expense) : Expense * option error :=
  let e := set_e_Name e (SanitizeString unicodeL unicodeN (e_Name e)) in
  if isEmpty (e_Name e) then (e, Some ValidationError)
  else if isEmpty (e_Category e) then (e, Some ValidationError)
  else if e_Amount e =? 0 then (e, Some ValidationError)
  else
    let e := set_e_Source e (SanitizeString unicodeL unicodeN (e_Source e)) in
    let e := set_e_Card e (SanitizeString unicodeL unicodeN (e_Card e)) in
    let e := match e_Tags e with
             | [] => e
             | tags => set_e_Tags e (cleanTags unicodeL unicodeN tags)
             end in
    if IsZero (e_Date e) then (e, Some ValidationError)
    else (e, None).

End ExpenseValidation.

(** ** The storage backend (storage.go, lines 119-206) *)

(** [type BackendType string] *)
Definition BackendType := gostring.

Definition BackendTypeJSON : BackendType := lit "json".
Definition BackendTypePostgres : BackendType := lit "postgres".

Record SystemConfig : Type := mkSystemConfig {
  StorageURL : gostring;
  StorageType : BackendType;
  StorageUser : gostring;
  StoragePass : gostring;
  StorageSSL : gostring
}.

(** [(c *Config) SetBaseConfig()] *)
Definition SetBaseConfig (c : Config) : Config :=
  mkConfig defaultCategories (lit "usd") 1 [].

Definition backendTypeFromEnv (env : gostring) : BackendType :=
  if str_eqb env (lit "json") then BackendTypeJSON
  else if str_eqb env (lit "postgres") then BackendTypePostgres
  else [].

Definition backendURLFromEnv (env : gostring) : gostring := env.

Definition backendSSLFromEnv (env : gostring) : gostring :=
  if str_eqb env (lit "disable") || str_eqb env (lit "require") ||
     str_eqb env (lit "verify-full") || str_eqb env (lit "verify-ca")
  then env
  else lit "disable".

(** [(c *SystemConfig) SetStorageConfig()] overwrites every field;
    [getenv] is [os.Getenv], which reads an unset variable as the empty
    string. *)
Definition SetStorageConfig (getenv : gostring -> gostring) : SystemConfig :=
  {| StorageType := backendTypeFromEnv (getenv (lit "STORAGE_TYPE"));
     StorageURL := backendURLFromEnv (getenv (lit "STORAGE_URL"));
     StorageSSL := backendSSLFromEnv (getenv (lit "STORAGE_SSL"));
     StorageUser := getenv (lit "STORAGE_USER");
     StoragePass := getenv (lit "STORAGE_PASS") |}.

(** The errors of [InitializeStorage], one per message. *)
Inductive initError : Type :=
  | MissingStorageType
  | UnsupportedStorageType (t : BackendType)
  | MissingStorageURL
  | MissingStorageUser
  | MissingStoragePass.

Section InitializeStorage.

(** The outcome of connecting to PostgreSQL with a configuration. *)
Context {Connection : Type}.
Variable InitializePostgresStore : SystemConfig -> Connection.

Definition InitializeStorage (getenv : gostring -> gostring)
    : initError + Connection :=
  let baseConfig := SetStorageConfig getenv in
  if isEmpty (StorageType baseConfig) then inl MissingStorageType
  else if negb (str_eqb (StorageType baseConfig) BackendTypePostgres)
       then inl (UnsupportedStorageType (StorageType baseConfig))
  else if isEmpty (StorageURL baseConfig) then inl MissingStorageURL
  else if isEmpty (StorageUser baseConfig) then inl MissingStorageUser
  else if isEmpty (StoragePass baseConfig) then inl MissingStoragePass
  else inr (InitializePostgresStore baseConfig).

End InitializeStorage.

(** ** Several expenses at once (databaseStore.go, lines 740-751) *)

(** [AddMultipleExpenses] calls [AddExpense] for one expense after the
    other and stops at the first error; there is no transaction.  An
    expense without id takes the next identifier, an expense without date
    the next reading of the clock. *)
Fixpoint AddMultipleExpenses (uuid : nat -> gostring) (now : nat -> Time)
    (db : DB) (userID : gostring) (expenses : list Expense)
    : result unit * DB :=
  match expenses with
  | [] => (Ok tt, db)
  | exp :: rest =>
      match AddExpense uuid (now 0%nat) db userID exp with
      | (Err err, db') => (Err err, db')
      | (Ok _, db') =>
          AddMultipleExpenses
            (if isEmpty (e_ID exp) then fun k => uuid (S k) else uuid)
            (if IsZero (e_Date exp) then fun k => now (S k) else now)
            db' userID rest
      end
  end.

(** ** Lower case: [unicode.ToLower] and [strings.ToLower] *)

Section Lower.

(** The lower case mapping of the Unicode tables, read above U+007F
    only. *)
Variable unicodeLower : rune -> rune.

Definition toLowerRune (r : rune) : rune :=
  if r <=? 127 then (if (65 <=? r) && (r <=? 90) then r + 32 else r)
  else unicodeLower r.

Definition ToLower (s : gostring) : gostring := map toLowerRune s.

End Lower.

(** ** Flows (package api, flow.go, lines 9-29) *)

Section Flow.

Variable unicodeLower : rune -> rune.

(** [normalizeFlow].  The amount is a count of a fixed unit;
    [math.Abs], the negation and the comparison with zero are exact on
    it. *)
Definition normalizeFlow (raw : gostring) (amount : Z)
    : result (gostring * Z) :=
  let flow := ToLower unicodeLower (TrimSpace raw) in
  let flow :=
    if isEmpty flow then (if 0 <? amount then lit "income" else lit "expense")
    else flow in
  let absAmount := Z.abs amount in
  if str_eqb flow (lit "income") then Ok (flow, absAmount)
  else if str_eqb flow (lit "refund") then Ok (flow, absAmount)
  else if str_eqb flow (lit "expense") then Ok (flow, - absAmount)
  else Err ValidationError.

End Flow.

(** ** Users and sessions (databaseStore.go, lines 24-42, 236-252,
    293-306, 347-408) *)

Record userRow : Type := mkUserRow {
  ur_id : gostring;
  ur_email : gostring;
  ur_password_hash : gostring;
  ur_status : gostring;
  ur_created_at : Time
}.

Record sessionRow : Type := mkSessionRow {
  sr_id : gostring;
  sr_user_id : gostring;
  sr_created_at : Time;
  sr_expires_at : Time;
  sr_ip : option gostring;
  sr_user_agent : option gostring
}.

Record User : Type := mkUser {
  usr_ID : gostring;
  usr_Email : gostring;
  usr_PasswordHash : gostring;
  usr_Status : gostring;
  usr_CreatedAt : Time
}.

Record Session : Type := mkSession {
  ses_ID : gostring;
  ses_UserID : gostring;
  ses_CreatedAt : Time;
  ses_ExpiresAt : Time;
  ses_IP : gostring;
  ses_UserAgent : gostring
}.

(** The database with the tables of users and sessions beside the four
    tables of the data. *)
Record Store : Type := mkStore {
  users : list userRow;
  sessions : list sessionRow;
  data : DB
}.

Definition with_users (st : Store) (t : list userRow) : Store :=
  mkStore t (sessions st) (data st).
Definition with_sessions (st : Store) (t : list sessionRow) : Store :=
  mkStore (users st) t (data st).
Definition with_data (st : Store) (db : DB) : Store :=
  mkStore (users st) (sessions st) db.

(** [ensureUserConfig]: [defaults] is the pointer argument, [None] for
    nil. *)
Definition ensureUserConfig (db : DB) (userID : gostring)
    (defaults : option Config) : DB :=
  match length (selectWhere u_user_id userID any (user_config db)) with
  | S _ => db
  | O =>
      let config :=
        match defaults with
        | Some d =>
            if negb (isEmpty (cfg_Currency d)) then d
            else SetBaseConfig (mkConfig [] [] 0 [])
        | None => SetBaseConfig (mkConfig [] [] 0 [])
        end in
      with_user_config db
        (user_config db ++
         [mkUserConfigRow userID (cfg_Currency config) (cfg_StartDate config)])
  end.

Definition ensureUserCategories (db : DB) (userID : gostring)
    (seed : list gostring) : DB :=
  match length (selectWhere c_user_id userID any (categories db)) with
  | S _ => db
  | O =>
      let categories :=
        if (length seed =? 0)%nat then defaultCategories else seed in
      seedCategories db userID categories
  end.

Section Users.

Variable unicodeLower : rune -> rune.

(** The [User] that a row scans into. *)
Definition scanUser (r : userRow) : User :=
  mkUser (ur_id r) (ur_email r) (ur_password_hash r) (ur_status r)
    (ur_created_at r).

(** [CreateUser].  The INSERT fails on an id or an email that the table
    has already; [createdAt] is the instant that the database returns for
    the column created_at. *)
Definition CreateUser (uuid : nat -> gostring) (createdAt : Time)
    (st : Store) (email passwordHash : gostring) : result User * Store :=
  let email := ToLower unicodeLower (TrimSpace email) in
  let user := mkUser (uuid 0%nat) email passwordHash (lit "active") 0 in
  if mem_str (usr_ID user) (map ur_id (users st)) ||
     mem_str (usr_Email user) (map ur_email (users st))
  then (Err ConflictError, st)
  else
    let st :=
      with_users st
        (users st ++
         [mkUserRow (usr_ID user) (usr_Email user) (usr_PasswordHash user)
            (usr_Status user) createdAt]) in
    let user :=
      mkUser (usr_ID user) (usr_Email user) (usr_PasswordHash user)
        (usr_Status user) createdAt in
    let db := ensureUserConfig (data st) (usr_ID user) None in
    let db := ensureUserCategories db (usr_ID user) [] in
    (Ok user, with_data st db).

Definition GetUserByEmail (st : Store) (email : gostring) : result User :=
  let email := ToLower unicodeLower (TrimSpace email) in
  match filter (fun r => str_eqb (ur_email r) email) (users st) with
  | r :: _ => Ok (scanUser r)
  | [] => Err NotFoundError
  end.

End Users.

Definition GetUserByID (st : Store) (id : gostring) : result User :=
  match filter (fun r => str_eqb (ur_id r) id) (users st) with
  | r :: _ => Ok (scanUser r)
  | [] => Err NotFoundError
  end.

(** The columns of [sessions] (lines 34-41): the id is VARCHAR(64), the
    ip VARCHAR(100), the user agent TEXT; user_id takes the id of a
    user. *)
Definition sessionColumns (session : Session) : option Session :=
  id <- varchar 64 (ses_ID session);;
  createdAt <- timestamptz (ses_CreatedAt session);;
  expiresAt <- timestamptz (ses_ExpiresAt session);;
  ip <- varchar 100 (ses_IP session);;
  Some (mkSession id (ses_UserID session) createdAt expiresAt ip
          (ses_UserAgent session)).

(** [CreateSession]: [now] is read when the session carries no creation
    time. *)
Definition CreateSession (now : Time) (st : Store) (session : Session)
    : result unit * Store :=
  let createdAt :=
    if IsZero (ses_CreatedAt session) then now else ses_CreatedAt session in
  match
    sessionColumns
      (mkSession (ses_ID session) (ses_UserID session) createdAt
         (ses_ExpiresAt session) (ses_IP session) (ses_UserAgent session))
  with
  | None => (Err DataError, st)
  | Some session =>
      match
        insertRows sr_id
          [mkSessionRow (ses_ID session) (ses_UserID session)
             (ses_CreatedAt session) (ses_ExpiresAt session)
             (Some (ses_IP session)) (Some (ses_UserAgent session))]
          (sessions st)
      with
      | Some t => (Ok tt, with_sessions st t)
      | None => (Err ConflictError, st)
      end
  end.

(** What [GetSession] returns: the session, [sql.ErrNoRows], or the
    error of scanning a NULL into a string. *)
Inductive sessionLookup : Type :=
  | FoundSession (session : Session)
  | ErrNoRows
  | ErrScan.

Definition GetSession (st : Store) (id : gostring) : sessionLookup :=
  match filter (fun r => str_eqb (sr_id r) id) (sessions st) with
  | r :: _ =>
      match sr_ip r, sr_user_agent r with
      | Some ip, Some userAgent =>
          FoundSession
            (mkSession (sr_id r) (sr_user_id r) (sr_created_at r)
               (sr_expires_at r) ip userAgent)
      | _, _ => ErrScan
      end
  | [] => ErrNoRows
  end.

Definition DeleteSession (st : Store) (id : gostring) : Store :=
  with_sessions st
    (filter (fun r => negb (str_eqb (sr_id r) id)) (sessions st)).

(** ** Sessions in the handlers (package api) *)

Definition Hour : Z := 3600 * nsPerSecond.

Definition sessionDuration : Z := 24 * Hour.
Definition sessionRememberDuration : Z := 30 * 24 * Hour.

(** What the middleware answers: 401 Unauthorized, with or without
    clearing the cookie; 500; 401 Session expired; or the wrapped handler,
    run with the user id of the session. *)
Inductive authOutcome : Type :=
  | Unauthorized (cookieCleared : bool)
  | FailedToValidate
  | SessionExpired
  | Next (userID : gostring).

(** [RequireAuth]: [cookie] is the value of the session cookie of the
    request, if it has one. *)
Definition RequireAuth (now : Time) (st : Store) (cookie : option gostring)
    : authOutcome * Store :=
  match cookie with
  | None => (Unauthorized false, st)
  | Some value =>
      if isEmpty value then (Unauthorized false, st)
      else
        match GetSession st value with
        | ErrNoRows => (Unauthorized true, st)
        | ErrScan => (FailedToValidate, st)
        | FoundSession session =>
            if ses_ExpiresAt session <? now
            then (SessionExpired, DeleteSession st (ses_ID session))
            else (Next (ses_UserID session), st)
        end
  end.

(** [createSession]: [sessionID] is the identifier drawn by
    [newSessionID], [now] the reading of the clock, [later] the reading
    that [CreateSession] takes for a session without creation time, [ip]
    and [userAgent] what the request tells.  The result is the session
    whose id and expiry the cookie carries. *)
Definition createSession (sessionID : gostring) (now later : Time)
    (ip userAgent : gostring) (st : Store) (userID : gostring)
    (remember : bool) : result Session * Store :=
  let duration := if remember then sessionRememberDuration
                  else sessionDuration in
  let session :=
    mkSession sessionID userID now (now + duration) ip userAgent in
  match CreateSession later st session with
  | (Err err, st') => (Err err, st')
  | (Ok _, st') => (Ok session, st')
  end.

(** [AuthLogout], for a request with method POST: the session of the
    cookie is deleted. *)
Definition AuthLogout (st : Store) (cookie : option gostring) : Store :=
  match cookie with
  | Some value => if isEmpty value then st else DeleteSession st value
  | None => st
  end.

(** * The vocabulary of the statements

    Auxiliary definitions that the facts and the claims are stated with,
    and the data of the examples. *)

(** ** Strings *)

(** No run of [\s] of length two, and every [\s] is a plain space. *)
Fixpoint tidy (prev : bool) (s : gostring) : bool :=
  match s with
  | [] => true
  | r :: t =>
      if isReSpace r then (r =? space) && negb prev && tidy true t
      else tidy false t
  end.

(** ** Calendar *)

(** The day number of a civil date, as [Date] computes it. *)
Definition daysOf (year month day : Z) : Z :=
  daysSinceEpoch year + daysBefore (month - 1)
  + leapDay (isLeap year) month + (day - 1).

(** The instant of a day number and a clock. *)
Definition instantOf (days hour min sec ns : Z) : Time :=
  (days * secondsPerDay + hour * 3600 + min * 60 + sec) * nsPerSecond + ns.

(** The check that [monthDay] yields a civil date of the day [yday]. *)
Definition monthDay_ok (leap : bool) (yday : Z) : bool :=
  let (m, d) := monthDay leap yday in
  (1 <=? m) && (m <=? 12) && (1 <=? d) && (d <=? daysIn leap m) &&
  (daysBefore (m - 1) + leapDay leap m + (d - 1) =? yday).

(** The check that [monthDay] inverts the day of the year of a civil date. *)
Definition civil_ok (leap : bool) (m d : Z) : bool :=
  negb ((1 <=? d) && (d <=? daysIn leap m)) ||
  (let yday := daysBefore (m - 1) + leapDay leap m + (d - 1) in
   (0 <=? yday) && (yday <? (if leap then 366 else 365)) &&
   (let (m', d') := monthDay leap yday in (m' =? m) && (d' =? d))).

(** The fields of a clock are in range. *)
Definition clock_ok (hour min sec ns : Z) : Prop :=
  0 <= hour < 24 /\ 0 <= min < 60 /\ 0 <= sec < 60 /\ 0 <= ns < nsPerSecond.

(** The shift of [AddDate] on the wall clock: date and clock are read
    from [w], and the shifted fields are put together again. *)
Definition shiftDate (w : Time) (years months days : Z) : Time :=
  let '(year, month, day) := date w in
  let '(hour, min, sec) := clock w in
  Date (year + years) (month + months) (day + days) hour min sec (nsec w).

(** The date and the clock that a location shows at an instant. *)
Definition dateIn (loc : Location) (t : Time) : Z * Z * Z :=
  date (wall loc t).

Definition clockIn (loc : Location) (t : Time) : Z * Z * Z :=
  clock (wall loc t).

(** ** Recurring engine *)

(** One interval step, total: an invalid interval leaves the date alone. *)
Definition stepDate (loc : Location) (interval : gostring) (t : Time)
    : Time :=
  match nextDate loc interval t with
  | Some next => next
  | None => t
  end.

(** The date reached from [start] after [k] interval steps. *)
Definition dateAfter (loc : Location) (interval : gostring) (k : nat)
    (start : Time) : Time :=
  Nat.iter k (stepDate loc interval) start.

(** The shift that one step of each interval applies with [AddDate]:
    years, months, days. *)
Definition intervalShift (interval : gostring) : Z * Z * Z :=
  if str_eqb interval (lit "daily") then (0, 0, 1)
  else if str_eqb interval (lit "weekly") then (0, 0, 7)
  else if str_eqb interval (lit "monthly") then (0, 1, 0)
  else (1, 0, 0).

Section EngineVocabulary.

Variable userID : gostring.
Variable recExp : RecurringExpense.

(** An instance of rule [recExp] of user [userID]. *)
Definition ofThisRule (e : Expense) : Prop :=
  e_UserID e = userID /\ e_RecurringID e = re_ID recExp.

End EngineVocabulary.

(** ** Statements and keys *)

(** The keys in [new] are pairwise distinct. *)
Fixpoint distinct (new : list gostring) : bool :=
  match new with
  | [] => true
  | k :: rest => negb (mem_str k rest) && distinct rest
  end.

(** The keys in [new] are pairwise distinct and none is in [old]: what
    [uuid.New()] promises for the identifiers it returns. *)
Definition freshKeys (new old : list gostring) : bool :=
  distinct new && forallb (fun k => negb (mem_str k old)) new.

Section RowsOf.

Context {row : Type}.
Variable user : row -> gostring.

(** The rows of one user. *)
Definition rowsOf (userID : gostring) (t : list row) : list row :=
  selectWhere user userID any t.

End RowsOf.

(** ** Columns *)

(** A string of at most [n] characters: VARCHAR(n) stores it as it is. *)
Definition within (n : nat) (s : gostring) : bool := (length s <=? n)%nat.

(** An amount that NUMERIC(10, 2) holds, and a number that INTEGER
    holds. *)
Definition amountFits (amount : Z) : bool := Z.abs amount <? 10 ^ 10.

Definition integerFits (n : Z) : bool := (- 2 ^ 31 <=? n) && (n <? 2 ^ 31).

(** The fields of an expense fit the columns that [expenseColumns]
    fills: they are stored as they are. *)
Definition expenseFits (e : Expense) : bool :=
  within 36 (e_RecurringID e) && within 255 (e_Name e) &&
  within 255 (e_Category e) && amountFits (e_Amount e) &&
  within 3 (e_Currency e) && inTimestampRange (e_Date e) &&
  within 50 (e_Source e) && within 100 (e_Card e).

(** The fields of a rule fit the columns that [ruleColumns] fills. *)
Definition ruleFits (re : RecurringExpense) : bool :=
  within 255 (re_Name re) && amountFits (re_Amount re) &&
  within 3 (re_Currency re) && within 255 (re_Category re) &&
  inTimestampRange (re_StartDate re) && within 50 (re_Interval re) &&
  integerFits (re_Occurrences re).

(** The last of the dates of a rule: the date of its last occurrence. *)
Definition lastDate (loc : Location) (re : RecurringExpense) : Time :=
  dateAfter loc (re_Interval re) (Z.to_nat (re_Occurrences re) - 1)
    (re_StartDate re).

(** A rule whose instances the table of expenses holds as they are: the
    rule fits its columns, its id is an id of the table, and its dates,
    up to the last one, are timestamps. *)
Definition ruleStorable (loc : Location) (re : RecurringExpense) : bool :=
  ruleFits re && within 36 (re_ID re) && inTimestampRange (lastDate loc re).

(** ** Categories *)

(** The position that the loop of upserts leaves on the rows named [x]:
    the one of the last occurrence of [x] in [names], if any.  [i] is the
    index of the head of [names]. *)
Fixpoint lastPos (names : list gostring) (i : Z) (x : gostring) : option Z :=
  match names with
  | [] => None
  | n :: rest =>
      match lastPos rest (i + 1) x with
      | Some p => Some p
      | None => if str_eqb n x then Some (i + 1) else None
      end
  end.

(** SET position = [p] *)
Definition setPosition (p : Z) (r : categoryRow) : categoryRow :=
  mkCategoryRow (c_user_id r) (c_name r) p.

(** What the loop of upserts does to a table that has a row for every
    name. *)
Definition relabel (userID : gostring) (names : list gostring) (i : Z)
    (r : categoryRow) : categoryRow :=
  if owned c_user_id userID r then
    match lastPos names i (c_name r) with
    | Some p => setPosition p r
    | None => r
    end
  else r.

(** The unique index on (user_id, name). *)
Definition categoryKey (r : categoryRow) : gostring * gostring :=
  (c_user_id r, c_name r).

(** No two rows share user and name. *)
Definition uniqueCategories (t : list categoryRow) : Prop :=
  NoDup (map categoryKey t).

Section CategoryVocabulary.

Variable userID : gostring.

(** The user has a category named [name]. *)
Definition present (name : gostring) (t : list categoryRow) : Prop :=
  exists r, In r t /\ c_user_id r = userID /\ c_name r = name.

(** The table that a reconciliation leaves. *)
Definition reconciled (names : list gostring) (t : list categoryRow)
    : list categoryRow :=
  deleteWhere c_user_id userID (fun r => negb (mem_str (c_name r) names))
    (upsertCategories userID names 0 t).

End CategoryVocabulary.

Section NamesVocabulary.

Variable unicodeL : rune -> bool.
Variable unicodeN : rune -> bool.

(** The precondition of the reconciliation: a non-empty list of names,
    each sanitised and not blank. *)
Definition sanitizedNames (names : list gostring) : Prop :=
  names <> [] /\
  Forall (fun n => SanitizeString unicodeL unicodeN n = n /\ n <> []) names.

(** The defects that [Validate] looks for. *)
Definition malformed (e : RecurringExpense) : Prop :=
  SanitizeString unicodeL unicodeN (re_Name e) = [] \/ re_Category e = [] \/
  re_Occurrences e < 2 \/ re_StartDate e = 0 \/
  validIntervals (re_Interval e) = false.

End NamesVocabulary.

(** The defects that the specification lists for a rule: the category is
    missing from the list, an unsupported currency is on it. *)
Definition malformedAsSpecified (unicodeL unicodeN : rune -> bool)
    (e : RecurringExpense) : Prop :=
  SanitizeString unicodeL unicodeN (re_Name e) = [] \/
  validIntervals (re_Interval e) = false \/
  re_Occurrences e < 2 \/
  mem_str (re_Currency e) SupportedCurrencies = false \/
  re_StartDate e = 0.

(** C6 as stated has every name stored at its index plus 1. *)
Definition positionsFollowIndex (userID : gostring) (names : list gostring)
    (t : list categoryRow) : Prop :=
  forall (k : nat) name,
    nth_error names k = Some name ->
    In (mkCategoryRow userID name (Z.of_nat k + 1)) t.

(** Two reconciliations in a row, from the empty database. *)
Definition afterTwoReconciliations (userID : gostring)
    (names1 names2 : list gostring) : result unit * DB :=
  updateCategoriesTable
    (snd (updateCategoriesTable emptyDB userID names1)) userID names2.

(** ** Materialisation *)

Section MaterialisationVocabulary.

Variable userID : gostring.

(** The instances of rule [id] that the user has in the table. *)
Definition instancesOf (id : gostring) (t : list expenseRow)
    : list expenseRow :=
  selectWhere x_user_id userID (ofRule id) t.

(** The rule that [UpdateRecurringExpense] works with: the id is the one
    of the call, an empty currency is replaced by the user's. *)
Definition ruleForUpdate (db : DB) (id : gostring)
    (recurringExpense : RecurringExpense) : RecurringExpense :=
  set_re_Currency (set_re_ID recurringExpense id)
    (fst (defaultCurrency db userID (re_Currency recurringExpense))).

End MaterialisationVocabulary.

(** ** Tenant isolation *)

(** The rows that a user has in the database. *)
Definition viewOf (userID : gostring) (db : DB) : DB :=
  mkDB (rowsOf x_user_id userID (expenses db))
       (rowsOf r_user_id userID (recurring_expenses db))
       (rowsOf c_user_id userID (categories db))
       (rowsOf u_user_id userID (user_config db)).

Section IsolationVocabulary.

(** The user who calls. *)
Variable A : gostring.

(** An operation of [A] is local at [db] when it answers as it does on
    the rows of [A] alone, changes the rows of [A] as it does there, and
    leaves the rows of every other user as they are. *)
Definition localAt {R : Type} (f : DB -> R * DB) (db : DB) : Prop :=
  fst (f db) = fst (f (viewOf A db)) /\
  viewOf A (snd (f db)) = snd (f (viewOf A db)) /\
  forall B, A <> B -> viewOf B (snd (f db)) = viewOf B db.

(** Local at every database. *)
Definition local {R : Type} (f : DB -> R * DB) : Prop :=
  forall db, localAt f db.

(** A write that treats the rows of [A] on their own and keeps the
    others. *)
Definition scoped {row : Type} (user : row -> gostring)
    (F : list row -> list row) : Prop :=
  (forall t, rowsOf user A (F t) = F (rowsOf user A t)) /\
  (forall B t, A <> B -> rowsOf user B (F t) = rowsOf user B t).

End IsolationVocabulary.

(** The identifiers that a request may draw are fresh for the table. *)
Definition freshFor (env : environment) (req : request) (db : DB) : Prop :=
  match req with
  | UpdateRecurringExpenseReq _ recurringExpense _ _ =>
      freshKeys
        (map (env_uuid env)
           (seq 0 (Z.to_nat (re_Occurrences recurringExpense))))
        (map x_id (expenses db)) = true
  | _ => True
  end.

(** ** Data of the examples *)

(** The ASCII letters and digits: the part of the tables L and N below
    U+0080, used to run the definitions on examples. *)
Definition asciiLetter (r : rune) : bool :=
  ((65 <=? r) && (r <=? 90)) || ((97 <=? r) && (r <=? 122)).

Definition asciiDigit (r : rune) : bool := (48 <=? r) && (r <=? 57).

(** A rule in an unsupported currency, and a rule without category. *)
Definition ruleInDoubloons : RecurringExpense :=
  mkRecurringExpense [] [] (lit "r1") (lit "Gym") (-4500) (lit "xyz") []
    (lit "Health") (Date 2026 1 1 0 0 0 0) (lit "monthly") 12.

Definition ruleWithoutCategory : RecurringExpense :=
  mkRecurringExpense [] [] (lit "r2") (lit "Gym") (-4500) (lit "usd") []
    [] (Date 2026 1 1 0 0 0 0) (lit "monthly") 12.

(** A rule that validation passes, in a currency of seven letters. *)
Definition ruleInGuineas : RecurringExpense :=
  mkRecurringExpense [] [] (lit "r8") (lit "Gym") (-4500) (lit "guineas") []
    (lit "Health") (Date 2026 1 1 0 0 0 0) (lit "monthly") 12.

(** A source of identifiers: id-0, id-1, ... *)
Definition uuidExample (k : nat) : gostring := lit "id-" ++ [48 + Z.of_nat k].

(** A rule with no occurrence. *)
Definition ruleUnbounded : RecurringExpense :=
  mkRecurringExpense [] [] (lit "r0") (lit "Gym") (-4500) (lit "usd") []
    (lit "Health") (Date 2026 1 1 0 0 0 0) (lit "monthly") 0.

(** A rule that starts on 31 January and recurs monthly five times. *)
Definition ruleJan31 : RecurringExpense :=
  mkRecurringExpense [] [] (lit "r1") (lit "Gym") (-4500) (lit "usd") []
    (lit "Health") (Date 2026 1 31 10 30 0 0) (lit "monthly") 5.

(** Two databases with the same rows of alice.  In the first, bob has an
    expense whose recurring id is the id of a rule of alice, and a rule
    with the id of an expense of alice. *)
Definition aliceRule : recurringRow :=
  mkRecurringRow (lit "r1") (lit "alice") (lit "Gym") (-4500) (lit "usd")
    (lit "Health") (Date 2026 1 1 0 0 0 0) (lit "monthly") 3 [].

Definition aliceJanuary : expenseRow :=
  mkExpenseRow (lit "e1") (lit "alice") (Some (lit "r1")) (lit "Gym")
    (lit "Health") (-4500) (lit "usd") (Date 2026 1 1 0 0 0 0) [] None None.

Definition aliceMarch : expenseRow :=
  mkExpenseRow (lit "e3") (lit "alice") (Some (lit "r1")) (lit "Gym")
    (lit "Health") (-4500) (lit "usd") (Date 2026 3 1 0 0 0 0) [] None None.

Definition bobMarch : expenseRow :=
  mkExpenseRow (lit "e2") (lit "bob") (Some (lit "r1")) (lit "Rent")
    (lit "Rent") (-90000) (lit "eur") (Date 2026 3 1 0 0 0 0) [] None None.

Definition bobRule : recurringRow :=
  mkRecurringRow (lit "e1") (lit "bob") (lit "Rent") (-90000) (lit "eur")
    (lit "Rent") (Date 2026 1 1 0 0 0 0) (lit "monthly") 12 [].

Definition dbWithBob : DB :=
  mkDB [aliceJanuary; bobMarch; aliceMarch] [bobRule; aliceRule]
    [mkCategoryRow (lit "bob") (lit "Rent") 1]
    [mkUserConfigRow (lit "bob") (lit "eur") 1].

Definition dbAliceOnly : DB :=
  mkDB [aliceJanuary; aliceMarch] [aliceRule] [] [].

Definition february : environment :=
  mkEnvironment uuidExample (Date 2026 2 10 9 0 0 0) (Date 2026 2 10 9 0 0 0).

(** An expense that alice submits with the id of an expense of bob. *)
Definition expenseWithBobsId : Expense :=
  mkExpense [] [] (lit "e2") [] (lit "Coffee") [] (lit "Food") (-350)
    (lit "usd") [] [] (Date 2026 2 1 0 0 0 0).

(** The rule of the scenario: monthly from 2026-01-01, three occurrences,
    amount 100.00. *)
Definition ruleQuarter : RecurringExpense :=
  mkRecurringExpense [] [] (lit "r7") (lit "Gym") 10000 (lit "usd") []
    (lit "Health") (Date 2026 1 1 0 0 0 0) (lit "monthly") 3.

(** ** More vocabulary *)

Section ExpenseVocabulary.

Variable unicodeL : rune -> bool.
Variable unicodeN : rune -> bool.

(** The defects that [Expense.Validate] looks for. *)
Definition malformedExpense (e : Expense) : Prop :=
  SanitizeString unicodeL unicodeN (e_Name e) = [] \/ e_Category e = [] \/
  e_Amount e = 0 \/ e_Date e = 0.

(** A tag as validation leaves it: sanitised and not empty. *)
Definition cleanTag (t : gostring) : Prop :=
  SanitizeString unicodeL unicodeN t = t /\ t <> [].

End ExpenseVocabulary.

(** The modes that [sslmode] may take. *)
Definition sslModes : list gostring :=
  [lit "disable"; lit "require"; lit "verify-full"; lit "verify-ca"].

(** ** Expenses *)

(** The expense that [GetExpense] reads back once [expense] is stored
    under [id] with currency [currency] and date [date]: the user and the
    flow are not columns of the table. *)
Definition storedExpense (id currency : gostring) (date : Time)
    (expense : Expense) : Expense :=
  mkExpense [] [] id (e_RecurringID expense) (e_Name expense)
    (e_Tags expense) (e_Category expense) (e_Amount expense) currency
    (e_Source expense) (e_Card expense) date.

(** The expense that [AddExpense] sends to the table: with the identifier
    drawn when it has no id, the currency of the user when it names
    none, the instant of the call when its date is the zero time. *)
Definition preparedExpense (uuid : nat -> gostring) (now : Time)
    (currency : gostring) (expense : Expense) : Expense :=
  mkExpense (e_UserID expense) (e_Flow expense)
    (if isEmpty (e_ID expense) then uuid 0%nat else e_ID expense)
    (e_RecurringID expense) (e_Name expense) (e_Tags expense)
    (e_Category expense) (e_Amount expense) currency (e_Source expense)
    (e_Card expense)
    (if IsZero (e_Date expense) then now else e_Date expense).

(** An expense that the table holds as it is: the id has at most 36
    characters and the other fields fit their columns. *)
Definition expenseStorable (e : Expense) : bool :=
  within 36 (e_ID e) && expenseFits e.

(** The row that the INSERT of [AddExpense] writes for an expense of a
    user. *)
Definition expenseRowOf (userID : gostring) (e : Expense) : expenseRow :=
  mkExpenseRow (e_ID e) userID (Some (e_RecurringID e)) (e_Name e)
    (e_Category e) (e_Amount e) (e_Currency e) (e_Date e) (e_Tags e)
    (Some (e_Source e)) (Some (e_Card e)).

(** The identifiers that the expenses of a batch are stored under: their
    own, or the next one drawn. *)
Fixpoint assignedIDs (uuid : nat -> gostring) (expenses : list Expense)
    : list gostring :=
  match expenses with
  | [] => []
  | exp :: rest =>
      if isEmpty (e_ID exp)
      then uuid 0%nat :: assignedIDs (fun k => uuid (S k)) rest
      else e_ID exp :: assignedIDs uuid rest
  end.

(** The number of identifiers that a batch draws. *)
Definition drawn (expenses : list Expense) : nat :=
  length (filter (fun exp => isEmpty (e_ID exp)) expenses).

(** ** Categories *)

(** The names of a list without the occurrences that a later one
    repeats. *)
Fixpoint keepLast (names : list gostring) : list gostring :=
  match names with
  | [] => []
  | n :: rest => if mem_str n rest then keepLast rest else n :: keepLast rest
  end.

(** The position that the loop of upserts gives to a name of the list. *)
Definition positionOf (names : list gostring) (i : Z) (x : gostring) : Z :=
  match lastPos names i x with
  | Some p => p
  | None => 0
  end.

(** The rows that seeding stores for a user who has none: the names at
    the positions [i+1], [i+2], ... *)
Fixpoint rowsFrom (userID : gostring) (names : list gostring) (i : Z)
    : list categoryRow :=
  match names with
  | [] => []
  | n :: rest => mkCategoryRow userID n (i + 1) :: rowsFrom userID rest (i + 1)
  end.

(** The names that [updateCategoriesTable] accepts. *)
Definition acceptedNames (names : list gostring) : Prop :=
  names <> [] /\ Forall (fun n => TrimSpace n <> []) names.

(** ** Recurring rules *)

(** An instance carries the fields of the rule and nothing else. *)
Definition copyOf (userID : gostring) (recExp : RecurringExpense)
    (e : Expense) : Prop :=
  e_UserID e = userID /\ e_RecurringID e = re_ID recExp /\
  e_Name e = re_Name recExp /\ e_Category e = re_Category recExp /\
  e_Amount e = re_Amount recExp /\ e_Currency e = re_Currency recExp /\
  e_Tags e = re_Tags recExp /\
  e_Flow e = [] /\ e_Source e = [] /\ e_Card e = [].

(** The rule that [GetRecurringExpense] reads back once [rule] is stored
    under [id] with currency [currency]: the user and the flow are not
    columns of the table. *)
Definition storedRule (id currency : gostring) (rule : RecurringExpense)
    : RecurringExpense :=
  mkRecurringExpense [] [] id (re_Name rule) (re_Amount rule) currency
    (re_Tags rule) (re_Category rule) (re_StartDate rule)
    (re_Interval rule) (re_Occurrences rule).

Section AddVocabulary.

Variable uuid : nat -> gostring.
Variable recurringExpense : RecurringExpense.

(** The id that [AddRecurringExpense] stores the rule under, and the
    identifiers left for the instances. *)
Definition ruleID : gostring :=
  if isEmpty (re_ID recurringExpense) then uuid 0%nat
  else re_ID recurringExpense.

Definition instanceIDs (k : nat) : gostring :=
  if isEmpty (re_ID recurringExpense) then uuid (S k) else uuid k.

End AddVocabulary.

(** ** Keys *)

(** The primary keys and the unique index of the schema: the ids of the
    expenses are distinct, and so are the ids of the rules; no user has a
    category twice, nor two rows of configuration. *)
Definition wellKeyed (db : DB) : Prop :=
  NoDup (map x_id (expenses db)) /\
  NoDup (map r_id (recurring_expenses db)) /\
  uniqueCategories (categories db) /\
  NoDup (map u_user_id (user_config db)).

(** ** Flows *)

Definition flows : list gostring :=
  [lit "income"; lit "refund"; lit "expense"].

(** ** More data of the examples *)

(** An expense that names no id, no currency and no date. *)
Definition coffee : Expense :=
  mkExpense [] [] [] [] (lit "Coffee") [lit "bar"] (lit "Food") (-350) []
    (lit "CASH") [] 0.

(** A rule whose interval is none of the four. *)
Definition ruleHourly : RecurringExpense :=
  mkRecurringExpense [] [] (lit "r9") (lit "Gym") (-4500) (lit "usd") []
    (lit "Health") (Date 2026 1 1 0 0 0 0) (lit "hourly") 12.

(** A store with the data of the examples, no user and no session. *)
Definition storeWithBob : Store := mkStore [] [] dbWithBob.

(** The lower case mapping left to the ASCII letters. *)
Definition asciiLower (r : rune) : rune := r.

(** * Facts

    ** Sanitisation *)

Lemma str_eqb_eq (a b : gostring) : str_eqb a b = true <-> a = b.
Proof.
  revert b; induction a as [|x a IH]; intros [|y b]; simpl;
    try (split; congruence).
  rewrite andb_true_iff, Z.eqb_eq, IH. split.
  - intros [-> ->]; reflexivity.
  - intros H; inversion H; auto.
Qed.

Lemma str_eqb_refl (a : gostring) : str_eqb a a = true.
Proof. apply str_eqb_eq; reflexivity. Qed.

Lemma str_eqb_neq (a b : gostring) : str_eqb a b = false <-> a <> b.
Proof.
  rewrite <- str_eqb_eq. destruct (str_eqb a b); split; congruence.
Qed.

Lemma str_eqb_sym (a b : gostring) : str_eqb a b = str_eqb b a.
Proof.
  destruct (str_eqb a b) eqn:E.
  - apply str_eqb_eq in E; subst. symmetry; apply str_eqb_refl.
  - symmetry. apply str_eqb_neq. apply str_eqb_neq in E. congruence.
Qed.

Lemma mem_str_In (x : gostring) (l : list gostring) :
  mem_str x l = true <-> In x l.
Proof.
  unfold mem_str. rewrite existsb_exists. split.
  - intros [y [Hy E]]. apply str_eqb_eq in E; subst; assumption.
  - intros H. exists x. split; [assumption | apply str_eqb_refl].
Qed.

Lemma tidy_weaken (b : bool) (s : gostring) :
  tidy b s = true -> tidy false s = true.
Proof.
  destruct s as [|r t]; simpl; [reflexivity|].
  destruct (isReSpace r); [|auto].
  rewrite !andb_true_iff. intros [[H1 _] H2]. auto.
Qed.

Lemma collapseFrom_tidy (s : gostring) :
  forall b, tidy b (collapseFrom b s) = true.
Proof.
  induction s as [|r t IH]; intros b; simpl; [reflexivity|].
  destruct (isReSpace r) eqn:E.
  - destruct b; [apply IH|]. simpl. rewrite IH. reflexivity.
  - simpl. rewrite E. apply IH.
Qed.

Lemma collapseFrom_fixed (s : gostring) :
  forall b, tidy b s = true -> collapseFrom b s = s.
Proof.
  induction s as [|r t IH]; intros b; simpl; [reflexivity|].
  destruct (isReSpace r) eqn:E.
  - rewrite !andb_true_iff. intros [[H1 H2] H3].
    apply Z.eqb_eq in H1. destruct b; [discriminate|].
    rewrite (IH true H3). congruence.
  - intros H. rewrite (IH false H). reflexivity.
Qed.

Lemma tidy_trimLeft (s : gostring) :
  forall b, tidy b s = true -> tidy false (trimLeft s) = true.
Proof.
  induction s as [|r t IH]; intros b H; simpl; [reflexivity|].
  destruct (isSpace r).
  - simpl in H. destruct (isReSpace r).
    + rewrite !andb_true_iff in H. apply (IH true), H.
    + apply (IH false), H.
  - apply tidy_weaken with b. exact H.
Qed.

Lemma trimRight_cons (r : rune) (t : gostring) :
  trimRight (r :: t) = [] \/ trimRight (r :: t) = [r] /\ trimRight t = [] \/
  trimRight (r :: t) = r :: trimRight t /\ trimRight t <> [].
Proof.
  simpl. destruct (trimRight t) eqn:E.
  - destruct (isSpace r); auto.
  - right; right. split; [reflexivity | discriminate].
Qed.

Lemma tidy_trimRight (s : gostring) :
  forall b, tidy b s = true -> tidy b (trimRight s) = true.
Proof.
  induction s as [|r t IH]; intros b H; [reflexivity|].
  destruct (trimRight_cons r t) as [-> | [[-> E] | [-> E]]].
  - reflexivity.
  - simpl in *. destruct (isReSpace r); [|reflexivity].
    rewrite !andb_true_iff in *. intuition.
  - simpl in *. destruct (isReSpace r).
    + rewrite !andb_true_iff in *. intuition.
    + auto.
Qed.

Lemma trimRight_idem (s : gostring) : trimRight (trimRight s) = trimRight s.
Proof.
  induction s as [|r t IH]; [reflexivity|].
  simpl. destruct (trimRight t) as [|x u] eqn:E.
  - destruct (isSpace r) eqn:S; [reflexivity|]. simpl. rewrite S. reflexivity.
  - change (trimRight (r :: x :: u)) with
      (match trimRight (x :: u) with
       | [] => if isSpace r then [] else [r]
       | t' => r :: t'
       end).
    rewrite IH. reflexivity.
Qed.

Lemma trimLeft_fixed (s : gostring) :
  match s with [] => True | r :: _ => isSpace r = false end ->
  trimLeft s = s.
Proof. destruct s as [|r t]; simpl; [reflexivity|]. intros ->. reflexivity. Qed.

Lemma trimLeft_head (s : gostring) :
  match trimLeft s with [] => True | r :: _ => isSpace r = false end.
Proof.
  induction s as [|r t IH]; simpl; [exact I|].
  destruct (isSpace r) eqn:E; [exact IH | exact E].
Qed.

Lemma trimRight_head (s : gostring) :
  match s with [] => True | r :: _ => isSpace r = false end ->
  match trimRight s with [] => True | r :: _ => isSpace r = false end.
Proof.
  destruct s as [|r t]; [auto|]. intros H. simpl.
  destruct (trimRight t); [rewrite H|]; exact H.
Qed.

Lemma TrimSpace_idem (s : gostring) : TrimSpace (TrimSpace s) = TrimSpace s.
Proof.
  unfold TrimSpace.
  rewrite (trimLeft_fixed (trimRight (trimLeft s))).
  - apply trimRight_idem.
  - apply trimRight_head, trimLeft_head.
Qed.

Lemma Forall_trimLeft (P : rune -> Prop) (s : gostring) :
  Forall P s -> Forall P (trimLeft s).
Proof.
  induction 1 as [|r t Hr Ht IH]; simpl; [constructor|].
  destruct (isSpace r); [exact IH | constructor; assumption].
Qed.

Lemma Forall_trimRight (P : rune -> Prop) (s : gostring) :
  Forall P s -> Forall P (trimRight s).
Proof.
  induction 1 as [|r t Hr Ht IH]; simpl; [constructor|].
  destruct (trimRight t).
  - destruct (isSpace r); constructor; auto.
  - constructor; assumption.
Qed.

Lemma Forall_collapseFrom (P : rune -> Prop) (s : gostring) :
  P space -> Forall P s -> forall b, Forall P (collapseFrom b s).
Proof.
  intros Hs. induction 1 as [|r t Hr Ht IH]; intros b; simpl; [constructor|].
  destruct (isReSpace r); [destruct b|]; auto.
Qed.

Section UnicodeFacts.

Variable unicodeL : rune -> bool.
Variable unicodeN : rune -> bool.

#[local] Abbreviation valid := (validChar unicodeL unicodeN).

Lemma valid_space : valid space = true.
Proof. unfold validChar. rewrite !orb_true_iff. auto. Qed.

Lemma replaceInvalidChars_valid (s : gostring) :
  Forall (fun r => valid r = true) (replaceInvalidChars unicodeL unicodeN s).
Proof.
  unfold replaceInvalidChars. apply Forall_map.
  induction s as [|r t IH]; constructor; [|exact IH].
  destruct (valid r) eqn:E; [exact E | apply valid_space].
Qed.

Lemma replaceInvalidChars_fixed (s : gostring) :
  Forall (fun r => valid r = true) s ->
  replaceInvalidChars unicodeL unicodeN s = s.
Proof.
  unfold replaceInvalidChars.
  induction 1 as [|r t Hr Ht IH]; simpl; [reflexivity|].
  rewrite Hr.
  f_equal. exact IH.
Qed.

(** What a sanitised string looks like. *)
Lemma SanitizeString_shape (s : gostring) :
  let u := SanitizeString unicodeL unicodeN s in
  Forall (fun r => valid r = true) u /\ tidy false u = true /\
  TrimSpace u = u.
Proof.
  unfold SanitizeString, replaceRepeatingSpaces. repeat split.
  - unfold TrimSpace. apply Forall_trimRight, Forall_trimLeft.
    apply Forall_collapseFrom; [apply valid_space|].
    apply replaceInvalidChars_valid.
  - unfold TrimSpace. apply tidy_trimRight, tidy_trimLeft with false.
    apply collapseFrom_tidy.
  - apply TrimSpace_idem.
Qed.

Lemma SanitizeString_idem (s : gostring) :
  SanitizeString unicodeL unicodeN (SanitizeString unicodeL unicodeN s) =
  SanitizeString unicodeL unicodeN s.
Proof.
  destruct (SanitizeString_shape s) as [Hv [Ht Hs]].
  unfold SanitizeString at 1.
  rewrite (replaceInvalidChars_fixed _ Hv).
  unfold replaceRepeatingSpaces.
  rewrite (collapseFrom_fixed _ _ Ht).
  exact Hs.
Qed.

End UnicodeFacts.

(** ** The calendar *)

Lemma daysSinceEpoch_cycles (q a b c : Z) :
  0 <= a <= 3 -> 0 <= b <= 24 -> 0 <= c <= 3 ->
  daysSinceEpoch (400 * q + 100 * a + 4 * b + c + 1) =
  146097 * q + 36524 * a + 1461 * b + 365 * c.
Proof.
  intros Ha Hb Hc. unfold daysSinceEpoch.
  replace (400 * q + 100 * a + 4 * b + c + 1 - 1) with (400 * q + (100 * a + 4 * b + c)) by lia.
  assert (E1 : (400 * q + (100 * a + 4 * b + c)) / 400 = q).
  { symmetry. apply Z.div_unique with (100 * a + 4 * b + c); lia. }
  rewrite E1.
  replace (400 * q + (100 * a + 4 * b + c) - 400 * q) with (100 * a + (4 * b + c)) by lia.
  assert (E2 : (100 * a + (4 * b + c)) / 100 = a).
  { symmetry. apply Z.div_unique with (4 * b + c); lia. }
  rewrite E2.
  replace (100 * a + (4 * b + c) - 100 * a) with (4 * b + c) by lia.
  assert (E3 : (4 * b + c) / 4 = b).
  { symmetry. apply Z.div_unique with c; lia. }
  rewrite E3. lia.
Qed.

Lemma isLeap_cycles (q a b c : Z) :
  0 <= a <= 3 -> 0 <= b <= 24 -> 0 <= c <= 3 ->
  isLeap (400 * q + 100 * a + 4 * b + c + 1) =
  (c =? 3) && (negb (b =? 24) || (a =? 3)).
Proof.
  intros Ha Hb Hc. unfold isLeap.
  repeat match goal with |- context [?x =? ?y] => destruct (Z.eqb_spec x y) end;
    simpl; try reflexivity; exfalso; Z.to_euclidean_division_equations; lia.
Qed.

Lemma absDate_spec (d : Z) :
  daysSinceEpoch (fst (absDate d)) + snd (absDate d) = d /\
  0 <= snd (absDate d) < daysInYear (fst (absDate d)).
Proof.
  unfold absDate, daysInYear. cbv zeta. cbn [fst snd].
  set (q := d / 146097).
  assert (H1 : 0 <= d - 146097 * q < 146097)
    by (subst q; Z.to_euclidean_division_equations; lia).
  set (d1 := d - 146097 * q) in *.
  set (a0 := d1 / 36524).
  assert (Ha0 : 0 <= a0 <= 4 /\ 36524 * a0 <= d1 < 36524 * a0 + 36524)
    by (subst a0; Z.to_euclidean_division_equations; lia).
  set (a := a0 - a0 / 4).
  assert (Ha : 0 <= a <= 3 /\ (a0 = 4 /\ a = 3 \/ a0 <= 3 /\ a = a0))
    by (subst a; Z.to_euclidean_division_equations; lia).
  clearbody a. 
  set (d2 := d1 - 36524 * a) in *.
  set (b := d2 / 1461).
  assert (Hb : 0 <= b <= 24 /\ 1461 * b <= d2 < 1461 * b + 1461)
    by (subst b d2; Z.to_euclidean_division_equations; lia).
  clearbody b.
  set (d3 := d2 - 1461 * b) in *.
  set (c0 := d3 / 365).
  assert (Hc0 : 0 <= c0 <= 4 /\ 365 * c0 <= d3 < 365 * c0 + 365)
    by (subst c0 d3; Z.to_euclidean_division_equations; lia).
  set (c := c0 - c0 / 4).
  assert (Hc : 0 <= c <= 3 /\ (c0 = 4 /\ c = 3 \/ c0 <= 3 /\ c = c0))
    by (subst c; Z.to_euclidean_division_equations; lia).
  clearbody c.
  rewrite daysSinceEpoch_cycles, isLeap_cycles by lia.
  split; [subst d3 d2 d1; lia|].
  clearbody c0 a0 q.
  destruct (Z.eqb_spec c 3), (Z.eqb_spec b 24), (Z.eqb_spec a 3); cbn [andb orb negb];
    subst d3 d2 d1; first [lia | match goal with |- ?g => idtac g end; fail 2].
Qed.

Lemma Z_range_forallb (f : Z -> bool) (n : nat) :
  forallb f (map Z.of_nat (seq 0 n)) = true ->
  forall z, 0 <= z < Z.of_nat n -> f z = true.
Proof.
  intros H z Hz. rewrite forallb_forall in H. apply H.
  apply in_map_iff. exists (Z.to_nat z). split; [lia|].
  apply in_seq. lia.
Qed.

Lemma monthDay_spec (leap : bool) (yday : Z) :
  0 <= yday < (if leap then 366 else 365) ->
  monthDay_ok leap yday = true.
Proof.
  intros H. destruct leap.
  - apply (Z_range_forallb (monthDay_ok true) 366); [vm_compute; reflexivity | lia].
  - apply (Z_range_forallb (monthDay_ok false) 365); [vm_compute; reflexivity | lia].
Qed.

Lemma daysSinceEpoch_succ (y : Z) :
  daysSinceEpoch (y + 1) = daysSinceEpoch y + daysInYear y.
Proof.
  unfold daysSinceEpoch, daysInYear, isLeap.
  repeat match goal with |- context [?x =? ?y] => destruct (Z.eqb_spec x y) end;
    cbn [andb orb negb]; Z.to_euclidean_division_equations; lia.
Qed.

Lemma clock_recompose (t : Time) :
  let '(hour, min, sec) := clock t in
  (absSeconds t / secondsPerDay * secondsPerDay + hour * 3600 + min * 60 + sec) * nsPerSecond + nsec t = t.
Proof.
  unfold clock, nsec, absSeconds, secondsPerDay, nsPerSecond.
  Z.to_euclidean_division_equations; lia.
Qed.

Lemma date_spec (t : Time) :
  let '(y, m, d) := date t in
  1 <= m <= 12 /\ 1 <= d <= daysIn (isLeap y) m /\
  daysOf y m d = absSeconds t / secondsPerDay.
Proof.
  unfold date, daysOf.
  pose proof (absDate_spec (absSeconds t / secondsPerDay)) as [H1 H2].
  destruct (absDate (absSeconds t / secondsPerDay)) as [year yday].
  cbn [fst snd] in *.
  pose proof (monthDay_spec (isLeap year) yday) as H3.
  unfold daysInYear in H2. unfold monthDay_ok in H3.
  destruct (monthDay (isLeap year) yday) as [m d].
  destruct (isLeap year); specialize (H3 H2);
    rewrite !andb_true_iff, !Z.leb_le, Z.eqb_eq in H3; lia.
Qed.

Lemma Date_normal (y m d hour min sec ns : Z) :
  1 <= m <= 12 ->
  Date y m d hour min sec ns = instantOf (daysOf y m d) hour min sec ns.
Proof.
  intros Hm. unfold Date, instantOf, daysOf.
  replace ((m - 1) / 12) with 0 by (Z.to_euclidean_division_equations; lia).
  replace ((m - 1) mod 12) with (m - 1) by (Z.to_euclidean_division_equations; lia).
  replace (y + 0) with y by lia. replace (m - 1 + 1) with m by lia.
  reflexivity.
Qed.

Lemma Date_month13 (y d hour min sec ns : Z) :
  Date y 13 d hour min sec ns = instantOf (daysOf (y + 1) 1 d) hour min sec ns.
Proof.
  unfold Date. change (13 - 1) with 12.
  rewrite Z.div_same, Z.mod_same by lia.
  change (0 + 1) with 1. unfold instantOf, daysOf. reflexivity.
Qed.

Lemma instantOf_shift (days k hour min sec ns : Z) :
  instantOf (days + k) hour min sec ns =
  instantOf days hour min sec ns + k * nsPerDay.
Proof. unfold instantOf, nsPerDay. lia. Qed.

Lemma instant_date_clock (t : Time) :
  let '(y, m, d) := date t in
  let '(hour, min, sec) := clock t in
  instantOf (daysOf y m d) hour min sec (nsec t) = t.
Proof.
  pose proof (date_spec t) as H. pose proof (clock_recompose t) as C.
  destruct (date t) as [[y m] d]. destruct (clock t) as [[hour min] sec].
  destruct H as [_ [_ ->]]. exact C.
Qed.

Lemma shiftDate_days (t : Time) (k : Z) :
  shiftDate t 0 0 k = t + k * nsPerDay.
Proof.
  unfold shiftDate.
  pose proof (date_spec t) as H. pose proof (instant_date_clock t) as C.
  destruct (date t) as [[y m] d]. destruct (clock t) as [[hour min] sec].
  destruct H as [Hm _].
  replace (y + 0) with y by lia. replace (m + 0) with m by lia.
  rewrite Date_normal by exact Hm.
  replace (daysOf y m (d + k)) with (daysOf y m d + k) by (unfold daysOf; lia).
  rewrite instantOf_shift, C. reflexivity.
Qed.

Lemma daysOf_next_month (y m d : Z) :
  1 <= m <= 11 ->
  daysOf y (m + 1) d = daysOf y m d + daysIn (isLeap y) m.
Proof.
  intros Hm. unfold daysOf, daysIn.
  assert (C : m = 1 \/ m = 2 \/ m = 3 \/ m = 4 \/ m = 5 \/ m = 6 \/ m = 7 \/
              m = 8 \/ m = 9 \/ m = 10 \/ m = 11) by lia.
  destruct (isLeap y);
    repeat (destruct C as [-> | C]; [cbn; lia|]); subst; cbn; lia.
Qed.

Lemma daysOf_december (y d : Z) :
  daysOf (y + 1) 1 d = daysOf y 12 d + daysIn (isLeap y) 12.
Proof.
  unfold daysOf. rewrite daysSinceEpoch_succ. unfold daysInYear.
  destruct (isLeap y), (isLeap (y + 1)); cbn; lia.
Qed.

Lemma shiftDate_month (t : Time) :
  shiftDate t 0 1 0 =
  t + daysIn (isLeap (fst (fst (date t)))) (snd (fst (date t))) * nsPerDay.
Proof.
  unfold shiftDate.
  pose proof (date_spec t) as H. pose proof (instant_date_clock t) as C.
  destruct (date t) as [[y m] d]. destruct (clock t) as [[hour min] sec].
  cbn [fst snd]. destruct H as [Hm _].
  replace (y + 0) with y by lia. replace (d + 0) with d by lia.
  destruct (Z.eq_dec m 12) as [-> | Hne].
  - change (12 + 1) with 13. rewrite Date_month13, daysOf_december.
    rewrite instantOf_shift, C. reflexivity.
  - rewrite Date_normal by lia. rewrite daysOf_next_month by lia.
    rewrite instantOf_shift, C. reflexivity.
Qed.

Lemma isLeap_consecutive (y : Z) : isLeap y && isLeap (y + 1) = false.
Proof.
  unfold isLeap.
  repeat match goal with |- context [?x =? ?y] => destruct (Z.eqb_spec x y) end;
    cbn [andb orb negb]; try reflexivity; exfalso;
    Z.to_euclidean_division_equations; lia.
Qed.

Lemma daysOf_next_year (y m d : Z) :
  daysOf y m d + 365 <= daysOf (y + 1) m d <= daysOf y m d + 366.
Proof.
  unfold daysOf. rewrite daysSinceEpoch_succ. unfold daysInYear, leapDay.
  pose proof (isLeap_consecutive y).
  destruct (isLeap y), (isLeap (y + 1)); try discriminate;
    destruct (3 <=? m); cbn [andb]; lia.
Qed.

Lemma shiftDate_year (t : Time) :
  t + 365 * nsPerDay <= shiftDate t 1 0 0 <= t + 366 * nsPerDay.
Proof.
  unfold shiftDate.
  pose proof (date_spec t) as H. pose proof (instant_date_clock t) as C.
  destruct (date t) as [[y m] d]. destruct (clock t) as [[hour min] sec].
  destruct H as [Hm _].
  replace (m + 0) with m by lia. replace (d + 0) with d by lia.
  rewrite Date_normal by exact Hm.
  pose proof (daysOf_next_year y m d) as Hy.
  assert (G : instantOf (daysOf y m d) hour min sec (nsec t) + 365 * nsPerDay
              <= instantOf (daysOf (y + 1) m d) hour min sec (nsec t)
              <= instantOf (daysOf y m d) hour min sec (nsec t) + 366 * nsPerDay)
    by (unfold instantOf, nsPerDay, secondsPerDay, nsPerSecond; lia).
  rewrite C in G. exact G.
Qed.

Lemma daysIn_min (leap : bool) (m : Z) : 1 <= m <= 12 -> 28 <= daysIn leap m.
Proof.
  intros Hm.
  assert (C : m = 1 \/ m = 2 \/ m = 3 \/ m = 4 \/ m = 5 \/ m = 6 \/ m = 7 \/
              m = 8 \/ m = 9 \/ m = 10 \/ m = 11 \/ m = 12) by lia.
  destruct leap;
    repeat (destruct C as [-> | C]; [cbv; discriminate|]); subst; cbv;
    discriminate.
Qed.

Lemma nsPerDay_pos : 0 < nsPerDay.
Proof. reflexivity. Qed.

Lemma daysInYear_pos (y : Z) : 365 <= daysInYear y.
Proof. unfold daysInYear. destruct (isLeap y); lia. Qed.

Lemma daysSinceEpoch_mono (y : Z) (n : nat) :
  daysSinceEpoch y + 365 * Z.of_nat n <= daysSinceEpoch (y + Z.of_nat n).
Proof.
  induction n as [|n IH].
  - replace (y + Z.of_nat 0) with y by lia. lia.
  - replace (y + Z.of_nat (S n)) with (y + Z.of_nat n + 1) by lia.
    rewrite daysSinceEpoch_succ. pose proof (daysInYear_pos (y + Z.of_nat n)).
    lia.
Qed.

Lemma daysSinceEpoch_lt (y y' : Z) :
  y < y' -> daysSinceEpoch y + daysInYear y <= daysSinceEpoch y'.
Proof.
  intros H. rewrite <- daysSinceEpoch_succ.
  pose proof (daysSinceEpoch_mono (y + 1) (Z.to_nat (y' - (y + 1)))) as M.
  replace (y + 1 + Z.of_nat (Z.to_nat (y' - (y + 1)))) with y' in M by lia.
  lia.
Qed.

(** A day belongs to one year only. *)
Lemma year_unique (y y' a a' : Z) :
  0 <= a < daysInYear y -> 0 <= a' < daysInYear y' ->
  daysSinceEpoch y + a = daysSinceEpoch y' + a' -> y = y' /\ a = a'.
Proof.
  intros Ha Ha' E.
  destruct (Z.lt_trichotomy y y') as [L | [-> | L]].
  - pose proof (daysSinceEpoch_lt y y' L). lia.
  - split; [reflexivity | lia].
  - pose proof (daysSinceEpoch_lt y' y L). lia.
Qed.

Lemma daysIn_max (leap : bool) (m : Z) : 1 <= m <= 12 -> daysIn leap m <= 31.
Proof.
  intros Hm.
  assert (C : m = 1 \/ m = 2 \/ m = 3 \/ m = 4 \/ m = 5 \/ m = 6 \/ m = 7 \/
              m = 8 \/ m = 9 \/ m = 10 \/ m = 11 \/ m = 12) by lia.
  destruct leap;
    repeat (destruct C as [-> | C]; [cbv; discriminate|]); subst; cbv;
    discriminate.
Qed.

Lemma civil_spec (leap : bool) (m d : Z) :
  1 <= m <= 12 -> 1 <= d <= daysIn leap m ->
  let yday := daysBefore (m - 1) + leapDay leap m + (d - 1) in
  0 <= yday < (if leap then 366 else 365) /\ monthDay leap yday = (m, d).
Proof.
  intros Hm Hd.
  assert (H : forallb (fun m => forallb (civil_ok leap m)
                                  (map Z.of_nat (seq 0 32)))
                (map Z.of_nat (seq 0 13)) = true)
    by (destruct leap; vm_compute; reflexivity).
  pose proof (Z_range_forallb _ 13 H m ltac:(lia)) as H1. cbv beta in H1.
  pose proof (daysIn_max leap m Hm) as Hd'.
  pose proof (Z_range_forallb _ 32 H1 d ltac:(lia)) as H2.
  unfold civil_ok in H2.
  assert (E : (1 <=? d) && (d <=? daysIn leap m) = true)
    by (apply andb_true_iff; split; apply Z.leb_le; lia).
  rewrite E in H2. cbn [negb orb] in H2.
  cbv zeta in *.
  destruct (monthDay leap (daysBefore (m - 1) + leapDay leap m + (d - 1)))
    as [m' d'].
  rewrite !andb_true_iff, !Z.eqb_eq, Z.leb_le, Z.ltb_lt in H2.
  destruct H2 as [[H2 H3] [H4 H5]]. subst. split; [lia | reflexivity].
Qed.

Lemma absDate_daysOf (y m d : Z) :
  1 <= m <= 12 -> 1 <= d <= daysIn (isLeap y) m ->
  absDate (daysOf y m d) =
  (y, daysBefore (m - 1) + leapDay (isLeap y) m + (d - 1)).
Proof.
  intros Hm Hd. destruct (civil_spec (isLeap y) m d Hm Hd) as [R _].
  cbv zeta in R.
  pose proof (absDate_spec (daysOf y m d)) as [S1 S2].
  destruct (absDate (daysOf y m d)) as [y' a']. cbn [fst snd] in *.
  destruct (year_unique y' y a' (daysBefore (m - 1) + leapDay (isLeap y) m + (d - 1)))
    as [-> ->]; [exact S2 | unfold daysInYear; exact R | | reflexivity].
  rewrite S1. unfold daysOf. lia.
Qed.

Lemma clock_range (t : Time) :
  let '(hour, min, sec) := clock t in clock_ok hour min sec (nsec t).
Proof.
  unfold clock, clock_ok, nsec, absSeconds, secondsPerDay, nsPerSecond.
  Z.to_euclidean_division_equations; lia.
Qed.

Lemma absSeconds_instantOf (days hour min sec ns : Z) :
  clock_ok hour min sec ns ->
  absSeconds (instantOf days hour min sec ns) / secondsPerDay = days /\
  clock (instantOf days hour min sec ns) = (hour, min, sec) /\
  nsec (instantOf days hour min sec ns) = ns.
Proof.
  unfold clock_ok, nsPerSecond. intros [H1 [H2 [H3 H4]]].
  assert (A : absSeconds (instantOf days hour min sec ns) =
              days * 86400 + (hour * 3600 + min * 60 + sec)).
  { unfold absSeconds, instantOf, secondsPerDay, nsPerSecond.
    symmetry. apply Z.div_unique with ns; lia. }
  assert (N : nsec (instantOf days hour min sec ns) = ns).
  { unfold nsec, instantOf, secondsPerDay, nsPerSecond.
    symmetry. apply Z.mod_unique with ((days * 86400 + hour * 3600 + min * 60 + sec)); lia. }
  assert (D : (days * 86400 + (hour * 3600 + min * 60 + sec)) / 86400 = days).
  { symmetry. apply Z.div_unique with (hour * 3600 + min * 60 + sec); lia. }
  assert (M : (days * 86400 + (hour * 3600 + min * 60 + sec)) mod 86400
              = hour * 3600 + min * 60 + sec).
  { symmetry. apply Z.mod_unique with days; lia. }
  split; [|split; [|exact N]].
  - rewrite A. exact D.
  - unfold clock. rewrite A. unfold secondsPerDay. rewrite M.
    assert (E1 : (hour * 3600 + min * 60 + sec) / 3600 = hour)
      by (symmetry; apply Z.div_unique with (min * 60 + sec); lia).
    rewrite E1.
    replace (hour * 3600 + min * 60 + sec - hour * 3600) with (min * 60 + sec)
      by lia.
    assert (E2 : (min * 60 + sec) / 60 = min)
      by (symmetry; apply Z.div_unique with sec; lia).
    rewrite E2. repeat f_equal. lia.
Qed.

(** From a civil date and a clock to the instant and back. *)
Lemma date_instantOf (y m d hour min sec ns : Z) :
  1 <= m <= 12 -> 1 <= d <= daysIn (isLeap y) m ->
  clock_ok hour min sec ns ->
  date (instantOf (daysOf y m d) hour min sec ns) = (y, m, d).
Proof.
  intros Hm Hd Hc. unfold date.
  destruct (absSeconds_instantOf (daysOf y m d) hour min sec ns Hc) as [-> _].
  rewrite absDate_daysOf by assumption.
  destruct (civil_spec (isLeap y) m d Hm Hd) as [_ ->]. reflexivity.
Qed.

(** One month later: the same day of the next month, when the day exists
    in every month. *)
Lemma shiftDate_month_civil (t : Time) (y m d : Z) :
  date t = (y, m, d) -> d <= 28 ->
  date (shiftDate t 0 1 0) =
    (if m =? 12 then (y + 1, 1, d) else (y, m + 1, d)) /\
  clock (shiftDate t 0 1 0) = clock t.
Proof.
  intros E Hd. unfold shiftDate.
  pose proof (date_spec t) as S. pose proof (clock_range t) as C.
  rewrite E in *. destruct (clock t) as [[hour min] sec].
  destruct S as [Hm [Hd' _]].
  replace (y + 0) with y by lia. replace (d + 0) with d by lia.
  destruct (Z.eqb_spec m 12) as [-> | Hne].
  - change (12 + 1) with 13. rewrite Date_month13.
    destruct (absSeconds_instantOf (daysOf (y + 1) 1 d) hour min sec (nsec t) C)
      as [_ [-> _]].
    split; [|reflexivity]. apply date_instantOf; [lia | | exact C].
    pose proof (daysIn_min (isLeap (y + 1)) 1 ltac:(lia)). lia.
  - rewrite Date_normal by lia.
    destruct (absSeconds_instantOf (daysOf y (m + 1) d) hour min sec (nsec t) C)
      as [_ [-> _]].
    split; [|reflexivity]. apply date_instantOf; [lia | | exact C].
    pose proof (daysIn_min (isLeap y) (m + 1) ltac:(lia)). lia.
Qed.

(** One year later: the same day of the same month, when the day exists
    in every year. *)
Lemma shiftDate_year_civil (t : Time) (y m d : Z) :
  date t = (y, m, d) -> d <= 28 ->
  date (shiftDate t 1 0 0) = (y + 1, m, d) /\
  clock (shiftDate t 1 0 0) = clock t.
Proof.
  intros E Hd. unfold shiftDate.
  pose proof (date_spec t) as S. pose proof (clock_range t) as C.
  rewrite E in *. destruct (clock t) as [[hour min] sec].
  destruct S as [Hm [Hd' _]].
  replace (m + 0) with m by lia. replace (d + 0) with d by lia.
  rewrite Date_normal by lia.
  destruct (absSeconds_instantOf (daysOf (y + 1) m d) hour min sec (nsec t) C)
    as [_ [-> _]].
  split; [|reflexivity]. apply date_instantOf; [lia | | exact C].
  pose proof (daysIn_min (isLeap (y + 1)) m Hm). lia.
Qed.

(** *** [AddDate] in a location

    The location shifts the instant to its wall clock and back. *)

Lemma nsec_wall (loc : Location) (t : Time) : nsec (wall loc t) = nsec t.
Proof.
  unfold nsec, wall. apply Z.mod_add. unfold nsPerSecond. lia.
Qed.

Lemma AddDate_wall (loc : Location) (t : Time) (years months days : Z) :
  AddDate loc t years months days =
  shiftDate (wall loc t) years months days - offset loc * nsPerSecond.
Proof.
  unfold AddDate, shiftDate, DateIn. rewrite nsec_wall.
  destruct (date (wall loc t)) as [[y m] d].
  destruct (clock (wall loc t)) as [[hour min] sec]. reflexivity.
Qed.

Lemma wall_AddDate (loc : Location) (t : Time) (years months days : Z) :
  wall loc (AddDate loc t years months days) =
  shiftDate (wall loc t) years months days.
Proof. rewrite AddDate_wall. unfold wall. lia. Qed.

Lemma wall_UTC (t : Time) : wall UTC t = t.
Proof. unfold wall, UTC. cbn [offset]. lia. Qed.

Lemma AddDate_days (loc : Location) (t : Time) (k : Z) :
  AddDate loc t 0 0 k = t + k * nsPerDay.
Proof. rewrite AddDate_wall, shiftDate_days. unfold wall. lia. Qed.

Lemma AddDate_month (loc : Location) (t : Time) :
  AddDate loc t 0 1 0 =
  t + daysIn (isLeap (fst (fst (dateIn loc t)))) (snd (fst (dateIn loc t)))
      * nsPerDay.
Proof.
  rewrite AddDate_wall, shiftDate_month. unfold dateIn, wall. lia.
Qed.

Lemma AddDate_year (loc : Location) (t : Time) :
  t + 365 * nsPerDay <= AddDate loc t 1 0 0 <= t + 366 * nsPerDay.
Proof.
  rewrite AddDate_wall. pose proof (shiftDate_year (wall loc t)) as H.
  unfold wall in *. lia.
Qed.

(** One month later: the same day of the next month on the wall clock of
    the location, when the day exists in every month. *)
Lemma AddDate_month_civil (loc : Location) (t : Time) (y m d : Z) :
  dateIn loc t = (y, m, d) -> d <= 28 ->
  dateIn loc (AddDate loc t 0 1 0) =
    (if m =? 12 then (y + 1, 1, d) else (y, m + 1, d)) /\
  clockIn loc (AddDate loc t 0 1 0) = clockIn loc t.
Proof.
  unfold dateIn, clockIn. rewrite wall_AddDate.
  apply shiftDate_month_civil.
Qed.

(** One year later: the same day of the same month, when the day exists
    in every year. *)
Lemma AddDate_year_civil (loc : Location) (t : Time) (y m d : Z) :
  dateIn loc t = (y, m, d) -> d <= 28 ->
  dateIn loc (AddDate loc t 1 0 0) = (y + 1, m, d) /\
  clockIn loc (AddDate loc t 1 0 0) = clockIn loc t.
Proof.
  unfold dateIn, clockIn. rewrite wall_AddDate.
  apply shiftDate_year_civil.
Qed.


(** A month after 31 January, 22:00, three hours west of UTC, is 3 March,
    22:00 there, as 31 February is normalised in that location. *)
Lemma AddDate_west :
  let loc := FixedZone (-3 * 3600) in
  AddDate loc (DateIn loc 2026 1 31 22 0 0 0) 0 1 0 =
  DateIn loc 2026 3 3 22 0 0 0 /\
  DateIn loc 2026 3 3 22 0 0 0 = Date 2026 3 4 1 0 0 0.
Proof. split; reflexivity. Qed.
(** ** The recurring engine *)

Lemma nextDate_valid (loc : Location) (interval : gostring) (t : Time) :
  validIntervals interval = true ->
  nextDate loc interval t = Some (stepDate loc interval t).
Proof.
  unfold validIntervals, stepDate, nextDate. intros H.
  destruct (str_eqb interval (lit "daily")); [reflexivity|].
  destruct (str_eqb interval (lit "weekly")); [reflexivity|].
  destruct (str_eqb interval (lit "monthly")); [reflexivity|].
  destruct (str_eqb interval (lit "yearly")); [reflexivity|].
  discriminate.
Qed.

Lemma nextDate_invalid (loc : Location) (interval : gostring) (t : Time) :
  validIntervals interval = false -> nextDate loc interval t = None.
Proof.
  unfold validIntervals, nextDate. intros H.
  destruct (str_eqb interval (lit "daily")); [discriminate|].
  destruct (str_eqb interval (lit "weekly")); [discriminate|].
  destruct (str_eqb interval (lit "monthly")); [discriminate|].
  destruct (str_eqb interval (lit "yearly")); [discriminate|].
  reflexivity.
Qed.

Lemma AddDate_month_lower (loc : Location) (t : Time) :
  t + 28 * nsPerDay <= AddDate loc t 0 1 0.
Proof.
  rewrite AddDate_month.
  unfold dateIn. pose proof (date_spec (wall loc t)) as H.
  destruct (date (wall loc t)) as [[y m] d].
  cbn [fst snd]. destruct H as [Hm _].
  pose proof (daysIn_min (isLeap y) m Hm). pose proof nsPerDay_pos. nia.
Qed.

(** Every valid interval moves the date forward, by a day at least. *)
Lemma nextDate_later (loc : Location) (interval : gostring) (t next : Time) :
  nextDate loc interval t = Some next -> t + nsPerDay <= next.
Proof.
  unfold nextDate. pose proof nsPerDay_pos as P.
  destruct (str_eqb interval (lit "daily")).
  { intros [= <-]. rewrite AddDate_days. lia. }
  destruct (str_eqb interval (lit "weekly")).
  { intros [= <-]. rewrite AddDate_days. lia. }
  destruct (str_eqb interval (lit "monthly")).
  { intros [= <-]. pose proof (AddDate_month_lower loc t). lia. }
  destruct (str_eqb interval (lit "yearly")).
  { intros [= <-]. pose proof (AddDate_year loc t). lia. }
  discriminate.
Qed.

Lemma stepDate_later (loc : Location) (interval : gostring) (t : Time) :
  validIntervals interval = true -> t + nsPerDay <= stepDate loc interval t.
Proof.
  intros H. apply nextDate_later with loc interval. apply nextDate_valid, H.
Qed.

Lemma dateAfter_succ (loc : Location) (interval : gostring) (k : nat) (t : Time) :
  dateAfter loc interval (S k) t = dateAfter loc interval k (stepDate loc interval t).
Proof. unfold dateAfter. apply Nat.iter_succ_r. Qed.

Lemma dateAfter_add (loc : Location) (interval : gostring) (j k : nat) (t : Time) :
  dateAfter loc interval (j + k) t = dateAfter loc interval k (dateAfter loc interval j t).
Proof.
  unfold dateAfter. rewrite Nat.add_comm. apply Nat.iter_add.
Qed.

Lemma dateAfter_later (loc : Location) (interval : gostring) (k : nat) (t : Time) :
  validIntervals interval = true ->
  t + Z.of_nat k * nsPerDay <= dateAfter loc interval k t.
Proof.
  intros H. induction k as [|k IH].
  - simpl. lia.
  - change (dateAfter loc interval (S k) t)
      with (stepDate loc interval (dateAfter loc interval k t)).
    pose proof (stepDate_later loc interval (dateAfter loc interval k t) H). lia.
Qed.

(** The dates of a valid rule are strictly increasing. *)
Lemma dateAfter_increasing (loc : Location) (interval : gostring) (i j : nat) (t : Time) :
  validIntervals interval = true -> (i < j)%nat ->
  dateAfter loc interval i t < dateAfter loc interval j t.
Proof.
  intros H Hij. replace j with (i + (j - i))%nat by lia.
  rewrite dateAfter_add.
  pose proof (dateAfter_later loc interval (j - i) (dateAfter loc interval i t) H).
  pose proof nsPerDay_pos. nia.
Qed.

Lemma stepDate_invalid (loc : Location) (interval : gostring) (t : Time) :
  validIntervals interval = false -> stepDate loc interval t = t.
Proof.
  intros H. unfold stepDate. rewrite nextDate_invalid by exact H.
  reflexivity.
Qed.

Lemma dateAfter_invalid (loc : Location) (interval : gostring) (k : nat)
    (t : Time) :
  validIntervals interval = false -> dateAfter loc interval k t = t.
Proof.
  intros H. induction k as [|k IH]; [reflexivity|].
  change (dateAfter loc interval (S k) t)
    with (stepDate loc interval (dateAfter loc interval k t)).
  rewrite stepDate_invalid by exact H. exact IH.
Qed.

(** Whatever the interval, the dates do not go back. *)
Lemma dateAfter_mono (loc : Location) (interval : gostring) (i j : nat)
    (t : Time) :
  (i <= j)%nat -> dateAfter loc interval i t <= dateAfter loc interval j t.
Proof.
  intros Hij. destruct (validIntervals interval) eqn:V.
  - destruct (Nat.eq_dec i j) as [-> | Hne]; [lia|].
    pose proof (dateAfter_increasing loc interval i j t V ltac:(lia)). lia.
  - rewrite !dateAfter_invalid by exact V. lia.
Qed.

Lemma nextDate_step (loc : Location) (interval : gostring) (t next : Time) :
  nextDate loc interval t = Some next -> next = stepDate loc interval t.
Proof. unfold stepDate. intros ->. reflexivity. Qed.

Section GenerateFacts.

Variable uuid : nat -> gostring.
Variable userID : gostring.
Variable recExp : RecurringExpense.
Variable loc : Location.

#[local] Abbreviation interval := (re_Interval recExp).
#[local] Abbreviation ofThisRule := (ofThisRule userID recExp).

Lemma emit_valid (limit : nat) :
  validIntervals interval = true ->
  forall k currentDate,
    emit uuid userID recExp loc limit k currentDate =
    map (fun i => instance uuid userID recExp (k + i)
                    (dateAfter loc interval i currentDate))
        (seq 0 limit).
Proof.
  intros H. induction limit as [|n IH]; intros k cur; [reflexivity|].
  cbn [emit]. rewrite (nextDate_valid loc interval cur H).
  rewrite IH. cbn [seq map]. rewrite Nat.add_0_r. f_equal.
  rewrite <- seq_shift, map_map. apply map_ext. intros i.
  rewrite dateAfter_succ. f_equal. lia.
Qed.

Lemma emit_zero (k : nat) (currentDate : Time) :
  emit uuid userID recExp loc 0 k currentDate = [].
Proof. reflexivity. Qed.

(** Full mode on a valid interval. *)
Lemma generate_full (today : Time) :
  validIntervals interval = true ->
  generateExpensesFromRecurring uuid userID recExp loc today false =
  map (fun i => instance uuid userID recExp i
                  (dateAfter loc interval i (re_StartDate recExp)))
      (seq 0 (Z.to_nat (re_Occurrences recExp))).
Proof.
  intros H. unfold generateExpensesFromRecurring.
  rewrite emit_valid by exact H. reflexivity.
Qed.

(** The first loop on a rule with a positive budget: it stops after [j]
    steps, where the first [j] dates are before [today], and either the
    budget is spent or the date reached is not before [today]. *)
Lemma skipPast_positive (today : Time) :
  validIntervals interval = true -> 0 < re_Occurrences recExp ->
  forall (fuel : nat) (currentDate : Time) (occ : Z),
    0 <= occ <= Z.of_nat fuel ->
    exists j : nat,
      Z.of_nat j <= occ /\
      skipPast loc fuel today recExp currentDate occ =
        Reached (dateAfter loc interval j currentDate) (occ - Z.of_nat j) /\
      (forall i, (i < j)%nat ->
         Before (dateAfter loc interval i currentDate) today = true) /\
      (Z.of_nat j = occ \/
       Before (dateAfter loc interval j currentDate) today = false).
Proof.
  intros Hv Hpos.
  assert (Hz : (re_Occurrences recExp =? 0) = false) by lia.
  assert (Hp : (0 <? re_Occurrences recExp) = true) by lia.
  induction fuel as [|fuel IH]; intros cur occ Hocc.
  - exists 0%nat. assert (occ = 0) by lia. subst occ.
    cbn [skipPast]. rewrite Hz. cbn [orb]. rewrite andb_false_r.
    split; [|split; [|split]]; [lia | reflexivity | lia | left; lia].
  - cbn [skipPast]. rewrite Hz, Hp. cbn [orb].
    destruct (Before cur today) eqn:B; cbn [andb].
    + destruct (0 <? occ) eqn:O.
      * rewrite (nextDate_valid loc interval cur Hv).
        destruct (IH (stepDate loc interval cur) (occ - 1)) as [j [J1 [J2 [J3 J4]]]];
          [lia|].
        exists (S j). rewrite dateAfter_succ. split; [|split; [|split]].
        -- lia.
        -- rewrite J2. f_equal. lia.
        -- intros i Hi. destruct i as [|i]; [exact B|].
           rewrite dateAfter_succ. apply J3. lia.
        -- destruct J4 as [J4 | J4]; [left; lia | right; exact J4].
      * exists 0%nat.
        split; [|split; [|split]]; [lia | f_equal; lia | lia | left; lia].
    + exists 0%nat.
      split; [|split; [|split]]; [lia | f_equal; lia | lia | right; exact B].
Qed.

(** With [skipFuel] the first loop always runs to its end. *)
Lemma skipPast_total (today : Time) :
  forall (fuel : nat) (currentDate : Time) (occ : Z),
    (if re_Occurrences recExp =? 0
     then (today - currentDate) / nsPerDay + 1 <= Z.of_nat fuel
     else occ <= Z.of_nat fuel /\ (0 < occ -> 0 < re_Occurrences recExp)) ->
    skipPast loc fuel today recExp currentDate occ <> OutOfFuel.
Proof.
  induction fuel as [|fuel IH]; intros cur occ Hf.
  - cbn [skipPast]. unfold Before.
    destruct (re_Occurrences recExp =? 0) eqn:Z0; cbn [orb].
    + destruct (cur <? today) eqn:B; cbn [andb]; [|discriminate].
      exfalso. apply Z.ltb_lt in B.
      assert (0 <= (today - cur) / nsPerDay)
        by (apply Z.div_pos; [lia | apply nsPerDay_pos]).
      lia.
    + destruct (0 <? occ) eqn:O; [|rewrite andb_false_r; discriminate].
      exfalso. lia.
  - cbn [skipPast].
    destruct (Before cur today &&
              ((re_Occurrences recExp =? 0) || (0 <? occ))) eqn:C;
      [|discriminate].
    destruct (nextDate loc (re_Interval recExp) cur) as [next|] eqn:N;
      [|discriminate].
    apply IH. apply nextDate_later in N.
    destruct (re_Occurrences recExp =? 0) eqn:Z0.
    + assert ((today - next) / nsPerDay + 1 <= (today - cur) / nsPerDay).
      { replace (today - cur) with ((today - cur - nsPerDay) + 1 * nsPerDay)
          by lia.
        rewrite Z.div_add by (pose proof nsPerDay_pos; lia).
        pose proof (Z.div_le_mono (today - next) (today - cur - nsPerDay)
                      nsPerDay nsPerDay_pos).
        lia. }
      lia.
    + cbn [orb] in C. apply andb_true_iff in C. destruct C as [_ C].
      destruct (0 <? re_Occurrences recExp) eqn:P; lia.
Qed.

Lemma generate_never_out_of_fuel (today : Time) :
  skipPast loc (skipFuel today recExp) today recExp (re_StartDate recExp)
           (re_Occurrences recExp) <> OutOfFuel.
Proof.
  apply skipPast_total. unfold skipFuel.
  destruct (re_Occurrences recExp =? 0) eqn:Z0.
  - lia.
  - split; [lia | auto].
Qed.

(** Whatever the interval, the instances carry the user, the id of the
    rule and the first identifiers drawn, and they are no more than the
    budget. *)
Lemma emit_shape (limit : nat) :
  forall k currentDate,
    exists m : nat,
      (m <= limit)%nat /\
      map e_ID (emit uuid userID recExp loc limit k currentDate) =
        map uuid (seq k m) /\
      Forall ofThisRule (emit uuid userID recExp loc limit k currentDate).
Proof.
  induction limit as [|n IH]; intros k cur.
  - exists 0%nat. split; [lia|]. split; [reflexivity | constructor].
  - cbn [emit]. destruct (nextDate loc (re_Interval recExp) cur) as [next|].
    + destruct (IH (S k) next) as [m [M1 [M2 M3]]].
      exists (S m). split; [lia|]. split.
      * cbn [map seq]. rewrite M2. reflexivity.
      * constructor; [split; reflexivity | exact M3].
    + exists 1%nat. split; [lia|]. split; [reflexivity|].
      constructor; [split; reflexivity | constructor].
Qed.

Lemma skipPast_budget (today : Time) (fuel : nat) :
  forall currentDate occ reached left,
    skipPast loc fuel today recExp currentDate occ = Reached reached left ->
    left <= occ.
Proof.
  induction fuel as [|fuel IH]; intros cur occ reached left; cbn [skipPast].
  - destruct (Before cur today &&
              ((re_Occurrences recExp =? 0) || (0 <? occ)));
      [discriminate|]. intros [= _ <-]. lia.
  - destruct (Before cur today &&
              ((re_Occurrences recExp =? 0) || (0 <? occ)));
      [|intros [= _ <-]; lia].
    destruct (nextDate loc (re_Interval recExp) cur) as [next|];
      [|discriminate].
    intros H. apply IH in H.
    destruct (0 <? re_Occurrences recExp); lia.
Qed.

Lemma generate_shape (today : Time) (fromToday : bool) :
  exists m : nat,
    (m <= Z.to_nat (re_Occurrences recExp))%nat /\
    map e_ID (generateExpensesFromRecurring uuid userID recExp loc today
                fromToday) = map uuid (seq 0 m) /\
    Forall ofThisRule
      (generateExpensesFromRecurring uuid userID recExp loc today fromToday).
Proof.
  unfold generateExpensesFromRecurring. destruct fromToday.
  - destruct (skipPast loc (skipFuel today recExp) today recExp
                (re_StartDate recExp) (re_Occurrences recExp))
      as [reached left| |] eqn:S.
    + apply skipPast_budget in S.
      destruct (emit_shape (Z.to_nat left) 0 reached) as [m [M1 M2]].
      exists m. split; [lia | exact M2].
    + exists 0%nat. split; [lia|]. split; [reflexivity | constructor].
    + exists 0%nat. split; [lia|]. split; [reflexivity | constructor].
  - apply emit_shape.
Qed.

(** Whatever the rule and the mode, an instance is dated at one of the
    dates of the rule. *)
Lemma emit_dates (limit : nat) :
  forall k currentDate,
    Forall
      (fun e =>
         exists i, (i < limit)%nat /\
           e = instance uuid userID recExp (k + i)
                 (dateAfter loc interval i currentDate))
      (emit uuid userID recExp loc limit k currentDate).
Proof.
  induction limit as [|n IH]; intros k cur; [constructor|].
  cbn [emit].
  assert (H0 : exists i, (i < S n)%nat /\
             instance uuid userID recExp k cur =
             instance uuid userID recExp (k + i)
               (dateAfter loc interval i cur)).
  { exists 0%nat. split; [lia|]. rewrite Nat.add_0_r. reflexivity. }
  destruct (nextDate loc (re_Interval recExp) cur) as [next|] eqn:N.
  - constructor; [exact H0|].
    eapply Forall_impl; [|apply (IH (S k) next)]. cbv beta.
    intros e [i [Hi ->]]. exists (S i). split; [lia|].
    rewrite dateAfter_succ, <- (nextDate_step _ _ _ _ N). f_equal. lia.
  - constructor; [exact H0 | constructor].
Qed.

Lemma skipPast_steps (today : Time) (fuel : nat) :
  forall currentDate occ reached left,
    (re_Occurrences recExp <= 0 -> occ <= 0) ->
    skipPast loc fuel today recExp currentDate occ = Reached reached left ->
    exists j : nat,
      reached = dateAfter loc interval j currentDate /\
      (0 < left -> Z.of_nat j + left <= occ).
Proof.
  induction fuel as [|fuel IH]; intros cur occ reached left Hocc;
    cbn [skipPast];
    destruct (Before cur today &&
              ((re_Occurrences recExp =? 0) || (0 <? occ))) eqn:C;
    try discriminate.
  - intros [= <- <-]. exists 0%nat. split; [reflexivity | lia].
  - destruct (nextDate loc (re_Interval recExp) cur) as [next|] eqn:N;
      [|discriminate].
    intros H. pose proof (skipPast_budget _ _ _ _ _ _ H) as B.
    apply IH in H.
    + destruct H as [j [-> J]]. exists (S j).
      rewrite dateAfter_succ, <- (nextDate_step _ _ _ _ N).
      split; [reflexivity|]. intros P. specialize (J P).
      destruct (0 <? re_Occurrences recExp) eqn:O; lia.
    + destruct (0 <? re_Occurrences recExp) eqn:O; lia.
  - intros [= <- <-]. exists 0%nat. split; [reflexivity | lia].
Qed.

Lemma generate_dates (today : Time) (fromToday : bool) :
  Forall
    (fun e =>
       exists k i, (i < Z.to_nat (re_Occurrences recExp))%nat /\
         e = instance uuid userID recExp k
               (dateAfter loc interval i (re_StartDate recExp)))
    (generateExpensesFromRecurring uuid userID recExp loc today fromToday).
Proof.
  unfold generateExpensesFromRecurring. destruct fromToday.
  - destruct (skipPast loc (skipFuel today recExp) today recExp
                (re_StartDate recExp) (re_Occurrences recExp))
      as [reached left| |] eqn:S; [|constructor|constructor].
    apply skipPast_steps in S; [|lia]. destruct S as [j [-> J]].
    eapply Forall_impl; [|apply emit_dates]. cbv beta.
    intros e [i [Hi ->]]. exists (0 + i)%nat, (j + i)%nat.
    split; [lia|]. rewrite dateAfter_add. reflexivity.
  - eapply Forall_impl; [|apply emit_dates]. cbv beta.
    intros e [i [Hi ->]]. exists (0 + i)%nat, i. split; [lia | reflexivity].
Qed.

End GenerateFacts.

(** ** The statements *)

Lemma filter_all {A : Type} (P : A -> bool) (l : list A) :
  (forall x, In x l -> P x = true) -> filter P l = l.
Proof.
  induction l as [|x l IH]; intros H; [reflexivity|]. simpl.
  rewrite (H x (or_introl eq_refl)). f_equal. apply IH.
  intros y Hy. apply H. right. exact Hy.
Qed.

Lemma filter_none {A : Type} (P : A -> bool) (l : list A) :
  (forall x, In x l -> P x = false) -> filter P l = [].
Proof.
  induction l as [|x l IH]; intros H; [reflexivity|]. simpl.
  rewrite (H x (or_introl eq_refl)). apply IH.
  intros y Hy. apply H. right. exact Hy.
Qed.

(** A predicate that holds below [j] and fails from [j] on holds [j] times
    below [n]. *)
Lemma count_prefix (P : nat -> bool) (j n : nat) :
  (j <= n)%nat ->
  (forall i, (i < j)%nat -> P i = true) ->
  (forall i, (j <= i < n)%nat -> P i = false) ->
  length (filter P (seq 0 n)) = j.
Proof.
  intros Hjn Ht Hf. replace n with (j + (n - j))%nat by lia.
  rewrite seq_app, filter_app, length_app.
  rewrite filter_all, filter_none.
  - rewrite length_seq. simpl. lia.
  - intros i Hi. apply in_seq in Hi. apply Hf. lia.
  - intros i Hi. apply in_seq in Hi. apply Ht. lia.
Qed.

Lemma mem_str_app (x : gostring) (l1 l2 : list gostring) :
  mem_str x (l1 ++ l2) = mem_str x l1 || mem_str x l2.
Proof. unfold mem_str. apply existsb_app. Qed.

Lemma mem_str_false (x : gostring) (l : list gostring) :
  mem_str x l = false <-> ~ In x l.
Proof.
  rewrite <- mem_str_In. destruct (mem_str x l); split; congruence.
Qed.

Lemma insertRows_fresh {row : Type} (key : row -> gostring)
    (rows : list row) :
  forall t,
    freshKeys (map key rows) (map key t) = true ->
    insertRows key rows t = Some (t ++ rows).
Proof.
  unfold freshKeys.
  induction rows as [|r rest IH]; intros t H.
  - simpl. rewrite app_nil_r. reflexivity.
  - cbn [map distinct forallb insertRows] in *.
    rewrite !andb_true_iff, !negb_true_iff in H.
    destruct H as [[H1 H2] [H3 H4]].
    rewrite H3. rewrite IH.
    + rewrite <- app_assoc. reflexivity.
    + rewrite H2. cbn [andb].
      rewrite forallb_forall in *. intros k Hk.
      rewrite map_app, mem_str_app, negb_orb, (H4 k Hk). cbn [map andb].
      unfold mem_str. cbn [existsb]. rewrite orb_false_r.
      apply negb_true_iff. apply str_eqb_neq. intros ->.
      apply mem_str_false in H1. contradiction.
Qed.

Lemma freshKeys_weaken (new old old' : list gostring) :
  (forall k, In k old' -> In k old) ->
  freshKeys new old = true -> freshKeys new old' = true.
Proof.
  unfold freshKeys. intros Hsub H.
  apply andb_true_iff in H. destruct H as [H1 H2].
  rewrite H1. cbn [andb]. rewrite forallb_forall in *.
  intros k Hk. specialize (H2 k Hk). rewrite negb_true_iff in *.
  apply mem_str_false. apply mem_str_false in H2. auto.
Qed.

Lemma distinct_prefix (f : nat -> gostring) (m n : nat) :
  (m <= n)%nat -> distinct (map f (seq 0 n)) = true ->
  distinct (map f (seq 0 m)) = true.
Proof.
  intros Hmn. replace n with (m + (n - m))%nat by lia.
  rewrite seq_app, map_app. generalize (map f (seq (0 + m) (n - m))).
  induction (map f (seq 0 m)) as [|k rest IH]; intros l H; [reflexivity|].
  cbn [app distinct] in *. rewrite andb_true_iff, negb_true_iff in *.
  destruct H as [H1 H2]. rewrite mem_str_app in H1.
  apply orb_false_iff in H1. destruct H1 as [H1 _].
  split; [exact H1 | apply (IH l H2)].
Qed.

Lemma freshKeys_prefix (f : nat -> gostring) (m n : nat)
    (old : list gostring) :
  (m <= n)%nat -> freshKeys (map f (seq 0 n)) old = true ->
  freshKeys (map f (seq 0 m)) old = true.
Proof.
  unfold freshKeys. intros Hmn H. apply andb_true_iff in H.
  destruct H as [H1 H2]. rewrite (distinct_prefix f m n Hmn H1). cbn [andb].
  rewrite forallb_forall in *. intros k Hk. apply H2.
  rewrite in_map_iff in *. destruct Hk as [i [<- Hi]]. exists i.
  split; [reflexivity|]. rewrite in_seq in *. lia.
Qed.

(** ** The types of the columns *)

Lemma varchar_within (n : nat) (s : gostring) :
  within n s = true -> varchar n s = Some s.
Proof. unfold within, varchar. intros ->. reflexivity. Qed.

Lemma varchar_length (n : nat) (s stored : gostring) :
  varchar n s = Some stored -> (length stored <= n)%nat.
Proof.
  unfold varchar. destruct (length s <=? n)%nat eqn:L.
  - intros [= <-]. apply Nat.leb_le, L.
  - destruct (forallb (fun r => r =? space) (skipn n s)); [|discriminate].
    intros [= <-]. apply firstn_le_length.
Qed.

Lemma numeric_fits (amount : Z) :
  amountFits amount = true -> numeric_10_2 amount = Some amount.
Proof. unfold amountFits, numeric_10_2. intros ->. reflexivity. Qed.

Lemma integer_fits (n : Z) : integerFits n = true -> integer n = Some n.
Proof. unfold integerFits, integer. intros ->. reflexivity. Qed.

Lemma timestamptz_fits (t : Time) :
  inTimestampRange t = true -> timestamptz t = Some t.
Proof. unfold timestamptz. intros ->. reflexivity. Qed.

(** A value that a column type takes is either kept or replaced. *)
Lemma numeric_Some (amount stored : Z) :
  numeric_10_2 amount = Some stored -> stored = amount.
Proof.
  unfold numeric_10_2. destruct (Z.abs amount <? 10 ^ 10); congruence.
Qed.

Lemma integer_Some (n stored : Z) : integer n = Some stored -> stored = n.
Proof.
  unfold integer. destruct ((- 2 ^ 31 <=? n) && (n <? 2 ^ 31)); congruence.
Qed.

Lemma timestamptz_Some (t stored : Time) :
  timestamptz t = Some stored -> stored = t.
Proof. unfold timestamptz. destruct (inTimestampRange t); congruence. Qed.

Lemma expenseColumns_fits (e : Expense) :
  expenseFits e = true -> expenseColumns e = Some e.
Proof.
  unfold expenseFits, expenseColumns. rewrite !andb_true_iff.
  intros [[[[[[[H1 H2] H3] H4] H5] H6] H7] H8].
  rewrite !varchar_within, numeric_fits, timestamptz_fits by assumption.
  destruct e. reflexivity.
Qed.

Lemma ruleColumns_fits (re : RecurringExpense) :
  ruleFits re = true -> ruleColumns re = Some re.
Proof.
  unfold ruleFits, ruleColumns. rewrite !andb_true_iff.
  intros [[[[[[H1 H2] H3] H4] H5] H6] H7].
  rewrite !varchar_within, numeric_fits, timestamptz_fits, integer_fits
    by assumption.
  destruct re. reflexivity.
Qed.

(** What the conversion leaves alone: the id, the user, the tags, and
    the amount and the date, which are kept or refused. *)
Lemma expenseColumns_kept (e stored : Expense) :
  expenseColumns e = Some stored ->
  e_ID stored = e_ID e /\ e_UserID stored = e_UserID e /\
  e_Tags stored = e_Tags e /\ e_Amount stored = e_Amount e /\
  e_Date stored = e_Date e /\
  varchar 36 (e_RecurringID e) = Some (e_RecurringID stored).
Proof.
  unfold expenseColumns.
  destruct (varchar 36 (e_RecurringID e)); [|discriminate].
  destruct (varchar 255 (e_Name e)); [|discriminate].
  destruct (varchar 255 (e_Category e)); [|discriminate].
  destruct (numeric_10_2 (e_Amount e)) eqn:A; [|discriminate].
  destruct (varchar 3 (e_Currency e)); [|discriminate].
  destruct (timestamptz (e_Date e)) eqn:D; [|discriminate].
  destruct (varchar 50 (e_Source e)); [|discriminate].
  destruct (varchar 100 (e_Card e)); [|discriminate].
  intros [= <-]. cbn. apply numeric_Some in A. apply timestamptz_Some in D.
  subst. repeat split; reflexivity.
Qed.

Lemma ruleColumns_kept (re stored : RecurringExpense) :
  ruleColumns re = Some stored ->
  re_ID stored = re_ID re /\ re_Tags stored = re_Tags re /\
  re_Amount stored = re_Amount re /\
  re_StartDate stored = re_StartDate re /\
  re_Occurrences stored = re_Occurrences re.
Proof.
  unfold ruleColumns.
  destruct (varchar 255 (re_Name re)); [|discriminate].
  destruct (numeric_10_2 (re_Amount re)) eqn:A; [|discriminate].
  destruct (varchar 3 (re_Currency re)); [|discriminate].
  destruct (varchar 255 (re_Category re)); [|discriminate].
  destruct (timestamptz (re_StartDate re)) eqn:D; [|discriminate].
  destruct (varchar 50 (re_Interval re)); [|discriminate].
  destruct (integer (re_Occurrences re)) eqn:O; [|discriminate].
  intros [= <-]. cbn. apply numeric_Some in A. apply timestamptz_Some in D.
  apply integer_Some in O. subst. repeat split; reflexivity.
Qed.

Lemma forEach_fits {A : Type} (f : A -> option A) (l : list A) :
  Forall (fun a => f a = Some a) l -> forEach f l = Some l.
Proof.
  induction 1 as [|a l Ha Hl IH]; [reflexivity|].
  cbn [forEach]. rewrite Ha, IH. reflexivity.
Qed.

Lemma forEach_Some {A B : Type} (f : A -> option B) (l : list A)
    (out : list B) :
  forEach f l = Some out -> Forall2 (fun a b => f a = Some b) l out.
Proof.
  revert out. induction l as [|a l IH]; intros out; cbn [forEach].
  - intros [= <-]. constructor.
  - destruct (f a) as [b|] eqn:Fa; [|discriminate].
    destruct (forEach f l) as [bs|]; [|discriminate].
    intros [= <-]. constructor; [exact Fa | apply IH; reflexivity].
Qed.

Section StatementFacts.

Context {row : Type}.
Variable user : row -> gostring.

#[local] Abbreviation rowsOf := (rowsOf user).

Lemma owned_eq (userID : gostring) (r : row) :
  owned user userID r = true <-> user r = userID.
Proof. unfold owned. apply str_eqb_eq. Qed.

Lemma owned_other (a b : gostring) (r : row) :
  a <> b -> owned user a r = true -> owned user b r = false.
Proof.
  unfold owned. intros Hab H. apply str_eqb_eq in H.
  apply str_eqb_neq. congruence.
Qed.

Lemma rowsOf_filter (userID : gostring) (t : list row) :
  rowsOf userID t = filter (owned user userID) t.
Proof.
  unfold rowsOf, selectWhere, any. apply filter_ext. intros r.
  apply andb_true_r.
Qed.

Lemma filter_filter (f g : row -> bool) (t : list row) :
  filter f (filter g t) = filter (fun r => g r && f r) t.
Proof.
  induction t as [|r t IH]; [reflexivity|]. simpl.
  destruct (g r); simpl; [destruct (f r)|]; rewrite IH; reflexivity.
Qed.

Lemma rowsOf_app (userID : gostring) (t1 t2 : list row) :
  rowsOf userID (t1 ++ t2) = rowsOf userID t1 ++ rowsOf userID t2.
Proof. unfold rowsOf, selectWhere. apply filter_app. Qed.

Lemma rowsOf_all (userID : gostring) (t : list row) :
  Forall (fun r => user r = userID) t -> rowsOf userID t = t.
Proof.
  rewrite rowsOf_filter. induction 1 as [|r t Hr Ht IH]; [reflexivity|].
  simpl. apply owned_eq in Hr. rewrite Hr, IH. reflexivity.
Qed.

Lemma rowsOf_none (a b : gostring) (t : list row) :
  a <> b -> Forall (fun r => user r = a) t -> rowsOf b t = [].
Proof.
  intros Hab. rewrite rowsOf_filter.
  induction 1 as [|r t Hr Ht IH]; [reflexivity|].
  simpl. apply owned_eq in Hr. rewrite (owned_other a b r Hab Hr).
  exact IH.
Qed.

Lemma rowsOf_idem (userID : gostring) (t : list row) :
  rowsOf userID (rowsOf userID t) = rowsOf userID t.
Proof.
  rewrite !rowsOf_filter, filter_filter. apply filter_ext. intros r.
  apply andb_diag.
Qed.

Lemma select_rowsOf (userID : gostring) (cond : row -> bool) (t : list row) :
  selectWhere user userID cond (rowsOf userID t) =
  selectWhere user userID cond t.
Proof.
  rewrite rowsOf_filter. unfold selectWhere. rewrite filter_filter.
  apply filter_ext. intros r. destruct (owned user userID r); reflexivity.
Qed.

Lemma rowsAffected_rowsOf (userID : gostring) (cond : row -> bool)
    (t : list row) :
  rowsAffected user userID cond (rowsOf userID t) =
  rowsAffected user userID cond t.
Proof. unfold rowsAffected. rewrite select_rowsOf. reflexivity. Qed.

Lemma rowsOf_delete (userID : gostring) (cond : row -> bool) (t : list row) :
  rowsOf userID (deleteWhere user userID cond t) =
  deleteWhere user userID cond (rowsOf userID t).
Proof.
  rewrite !rowsOf_filter. unfold deleteWhere. rewrite !filter_filter.
  apply filter_ext. intros r. apply andb_comm.
Qed.

Lemma rowsOf_delete_other (a b : gostring) (cond : row -> bool)
    (t : list row) :
  a <> b -> rowsOf b (deleteWhere user a cond t) = rowsOf b t.
Proof.
  intros Hab. rewrite !rowsOf_filter. unfold deleteWhere.
  rewrite filter_filter. apply filter_ext. intros r.
  destruct (owned user a r) eqn:A; [|reflexivity].
  rewrite (owned_other a b r Hab A). destruct (cond r); reflexivity.
Qed.

Lemma rowsOf_update (userID : gostring) (cond : row -> bool)
    (set : row -> row) (t : list row) :
  (forall r, user (set r) = user r) ->
  rowsOf userID (updateWhere user userID cond set t) =
  updateWhere user userID cond set (rowsOf userID t).
Proof.
  intros Hset. rewrite !rowsOf_filter. unfold updateWhere.
  induction t as [|r t IH]; [reflexivity|]. cbn [map filter].
  assert (O' : owned user userID (set r) = owned user userID r)
    by (unfold owned; rewrite Hset; reflexivity).
  destruct (owned user userID r) eqn:O; destruct (cond r) eqn:C;
    cbn [andb]; rewrite ?O', ?O; cbn [map]; rewrite ?O, ?C; cbn [andb];
    rewrite IH; reflexivity.
Qed.

Lemma rowsOf_update_other (a b : gostring) (cond : row -> bool)
    (set : row -> row) (t : list row) :
  a <> b -> (forall r, user (set r) = user r) ->
  rowsOf b (updateWhere user a cond set t) = rowsOf b t.
Proof.
  intros Hab Hset. rewrite !rowsOf_filter. unfold updateWhere.
  induction t as [|r t IH]; [reflexivity|]. cbn [map filter].
  assert (B' : owned user b (set r) = owned user b r)
    by (unfold owned; rewrite Hset; reflexivity).
  destruct (owned user a r) eqn:A; destruct (cond r) eqn:C; cbn [andb];
    rewrite ?B'; try (rewrite IH; reflexivity).
  rewrite (owned_other a b r Hab A). exact IH.
Qed.

Lemma rowsAffected_zero (userID : gostring) (cond : row -> bool)
    (t : list row) :
  rowsAffected user userID cond t = 0%nat ->
  selectWhere user userID cond t = [].
Proof. unfold rowsAffected. apply length_zero_iff_nil. Qed.

Lemma deleteWhere_In (userID : gostring) (cond : row -> bool)
    (t : list row) (r : row) :
  In r (deleteWhere user userID cond t) <->
  In r t /\ ~ (user r = userID /\ cond r = true).
Proof.
  unfold deleteWhere. rewrite filter_In, negb_true_iff, andb_false_iff.
  rewrite <- owned_eq.
  destruct (owned user userID r), (cond r); intuition congruence.
Qed.

Lemma select_delete (userID : gostring) (cond : row -> bool) (t : list row) :
  selectWhere user userID cond (deleteWhere user userID cond t) = [].
Proof.
  unfold selectWhere, deleteWhere. rewrite filter_filter.
  induction t as [|r t IH]; [reflexivity|]. simpl.
  destruct (owned user userID r && cond r); simpl; exact IH.
Qed.

End StatementFacts.

(** ** The reconciliation of categories *)

Lemma lastPos_None (names : list gostring) (x : gostring) :
  forall i, lastPos names i x = None <-> ~ In x names.
Proof.
  induction names as [|n rest IH]; intros i; cbn [lastPos In]; [tauto|].
  destruct (lastPos rest (i + 1) x) eqn:E.
  - split; [discriminate|]. intros H. exfalso.
    assert (N : lastPos rest (i + 1) x <> None) by congruence.
    rewrite IH in N. tauto.
  - apply IH in E. destruct (str_eqb n x) eqn:S.
    + apply str_eqb_eq in S. split; [discriminate | tauto].
    + apply str_eqb_neq in S. tauto.
Qed.

(** [lastPos] in terms of indices: the last index that holds [x]. *)
Lemma lastPos_Some (names : list gostring) (x : gostring) :
  forall i p,
    lastPos names i x = Some p ->
    exists k : nat,
      nth_error names k = Some x /\ p = i + Z.of_nat k + 1 /\
      forall k', (k < k')%nat -> nth_error names k' <> Some x.
Proof.
  induction names as [|n rest IH]; intros i p; cbn [lastPos]; [discriminate|].
  destruct (lastPos rest (i + 1) x) as [q|] eqn:E.
  - intros [= <-]. destruct (IH _ _ E) as [k [K1 [K2 K3]]].
    exists (S k). split; [exact K1|]. split; [lia|].
    intros [|k'] Hk; [lia|]. apply K3. lia.
  - destruct (str_eqb n x) eqn:S; [|discriminate]. intros [= <-].
    apply str_eqb_eq in S. subst n. exists 0%nat.
    split; [reflexivity|]. split; [lia|].
    intros [|k'] Hk; [lia|]. cbn [nth_error]. intros C.
    apply nth_error_In in C. apply lastPos_None in E. contradiction.
Qed.

(** Without repeated names the last index is the index. *)
Lemma lastPos_NoDup (names : list gostring) (x : gostring) :
  NoDup names ->
  forall i (k : nat),
    nth_error names k = Some x ->
    lastPos names i x = Some (i + Z.of_nat k + 1).
Proof.
  induction 1 as [|n rest Hn Hd IH]; intros i k Hk.
  - destruct k; discriminate.
  - cbn [lastPos]. destruct k as [|k]; cbn [nth_error] in Hk.
    + injection Hk as ->.
      assert (E : lastPos rest (i + 1) x = None)
        by (apply lastPos_None; exact Hn).
      rewrite E, str_eqb_refl. f_equal. lia.
    + rewrite (IH (i + 1) k Hk). f_equal. lia.
Qed.

Section CategoryFacts.

Variable userID : gostring.

#[local] Abbreviation present := (present userID).

Lemma select_hasName_nil (name : gostring) (t : list categoryRow) :
  selectWhere c_user_id userID (hasName name) t = [] <-> ~ present name t.
Proof.
  unfold selectWhere, present. split.
  - intros H [r [R1 [R2 R3]]].
    assert (In r (filter (fun r => owned c_user_id userID r && hasName name r) t)).
    { apply filter_In. split; [exact R1|]. unfold owned, hasName.
      rewrite R2, R3, !str_eqb_refl. reflexivity. }
    rewrite H in H0. contradiction.
  - intros H. apply filter_none. intros r Hr.
    destruct (owned c_user_id userID r && hasName name r) eqn:E;
      [|reflexivity].
    exfalso. apply H. exists r. apply andb_true_iff in E.
    destruct E as [E1 E2]. unfold owned, hasName in *.
    apply str_eqb_eq in E1, E2. auto.
Qed.

Lemma upsertCategory_cases (name : gostring) (p : Z) (t : list categoryRow) :
  (~ present name t /\
   upsertCategory userID name p t = t ++ [mkCategoryRow userID name p]) \/
  (present name t /\
   upsertCategory userID name p t =
   updateWhere c_user_id userID (hasName name) (setPosition p) t).
Proof.
  unfold upsertCategory.
  destruct (selectWhere c_user_id userID (hasName name) t) as [|r0 rest]
    eqn:E.
  - left. split; [apply select_hasName_nil; exact E | reflexivity].
  - right. split; [|reflexivity].
    assert (Hr : In r0 (selectWhere c_user_id userID (hasName name) t))
      by (rewrite E; left; reflexivity).
    unfold selectWhere in Hr. apply filter_In in Hr. destruct Hr as [R1 R2].
    apply andb_true_iff in R2. destruct R2 as [R2 R3].
    unfold owned, hasName in *. apply str_eqb_eq in R2, R3.
    exists r0. auto.
Qed.

Lemma In_updateWhere (cond : categoryRow -> bool)
    (set : categoryRow -> categoryRow) (t : list categoryRow)
    (r : categoryRow) :
  In r (updateWhere c_user_id userID cond set t) ->
  exists r0, In r0 t /\
    r = (if owned c_user_id userID r0 && cond r0 then set r0 else r0).
Proof.
  unfold updateWhere. intros H. apply in_map_iff in H.
  destruct H as [r0 [H1 H2]]. exists r0. auto.
Qed.

(** A row of the result that is not the upserted one was there before. *)
Lemma upsertCategory_other (name : gostring) (p : Z)
    (t : list categoryRow) (r : categoryRow) :
  In r (upsertCategory userID name p t) ->
  ~ (c_user_id r = userID /\ c_name r = name) -> In r t.
Proof.
  intros H N.
  destruct (upsertCategory_cases name p t) as [[_ E] | [_ E]];
    rewrite E in H.
  - apply in_app_or in H. destruct H as [H | [<- | []]]; [exact H|].
    exfalso. apply N. split; reflexivity.
  - apply In_updateWhere in H. destruct H as [r0 [H1 H2]].
    destruct (owned c_user_id userID r0 && hasName name r0) eqn:C;
      [|subst r; exact H1].
    exfalso. apply N. apply andb_true_iff in C. destruct C as [C1 C2].
    unfold owned, hasName in *. apply str_eqb_eq in C1, C2.
    subst r. cbn. auto.
Qed.

(** The upserted row has the position of the upsert. *)
Lemma upsertCategory_same (name : gostring) (p : Z)
    (t : list categoryRow) (r : categoryRow) :
  In r (upsertCategory userID name p t) ->
  c_user_id r = userID -> c_name r = name -> c_position r = p.
Proof.
  intros H U N.
  destruct (upsertCategory_cases name p t) as [[A E] | [_ E]];
    rewrite E in H.
  - apply in_app_or in H. destruct H as [H | [<- | []]]; [|reflexivity].
    exfalso. apply A. exists r. auto.
  - apply In_updateWhere in H. destruct H as [r0 [H1 H2]].
    destruct (owned c_user_id userID r0 && hasName name r0) eqn:C.
    + subst r. reflexivity.
    + subst r0. exfalso. unfold owned, hasName in C.
      rewrite U, N, !str_eqb_refl in C. discriminate.
Qed.

Lemma upsertCategory_present (name : gostring) (p : Z)
    (t : list categoryRow) :
  present name (upsertCategory userID name p t).
Proof.
  destruct (upsertCategory_cases name p t) as [[_ E] | [[r [R1 [R2 R3]]] E]];
    rewrite E.
  - exists (mkCategoryRow userID name p). split; [|split; reflexivity].
    apply in_or_app. right. left. reflexivity.
  - exists (setPosition p r). split; [|split; assumption].
    unfold updateWhere. apply in_map_iff. exists r. split; [|exact R1].
    unfold owned, hasName. rewrite R2, R3, !str_eqb_refl. reflexivity.
Qed.

Lemma upsertCategory_keeps (name other : gostring) (p : Z)
    (t : list categoryRow) :
  present other t -> present other (upsertCategory userID name p t).
Proof.
  intros [r [R1 [R2 R3]]].
  destruct (upsertCategory_cases name p t) as [[_ E] | [_ E]]; rewrite E.
  - exists r. split; [apply in_or_app; left; exact R1 | auto].
  - exists (if owned c_user_id userID r && hasName name r
            then setPosition p r else r).
    split.
    + unfold updateWhere. apply in_map_iff. exists r. auto.
    + destruct (owned c_user_id userID r && hasName name r); cbn; auto.
Qed.

Lemma upsertCategories_keeps (names : list gostring) (other : gostring) :
  forall i t,
    present other t -> present other (upsertCategories userID names i t).
Proof.
  induction names as [|n rest IH]; intros i t H; [exact H|].
  cbn [upsertCategories]. apply IH. apply upsertCategory_keeps. exact H.
Qed.

(** Every name of the list has a row after the loop. *)
Lemma upsertCategories_present (names : list gostring) :
  forall i t name,
    In name names -> present name (upsertCategories userID names i t).
Proof.
  induction names as [|n rest IH]; intros i t name H; [destruct H|].
  cbn [upsertCategories]. destruct H as [-> | H].
  - apply upsertCategories_keeps. apply upsertCategory_present.
  - apply IH. exact H.
Qed.

(** The rows of the user after the loop: a row whose name is not in the
    list was there before; a row whose name is in the list has the
    position of the last occurrence of its name. *)
Lemma upsertCategories_rows (names : list gostring) :
  forall i t r,
    In r (upsertCategories userID names i t) -> c_user_id r = userID ->
    match lastPos names i (c_name r) with
    | Some p => c_position r = p
    | None => In r t
    end.
Proof.
  induction names as [|n rest IH]; intros i t r H U; [exact H|].
  cbn [upsertCategories lastPos] in *.
  specialize (IH (i + 1) _ r H U).
  destruct (lastPos rest (i + 1) (c_name r)); [exact IH|].
  destruct (str_eqb n (c_name r)) eqn:S.
  - apply str_eqb_eq in S.
    apply (upsertCategory_same n (i + 1) t r IH U). auto.
  - apply str_eqb_neq in S.
    apply (upsertCategory_other n (i + 1) t r IH). intros [_ C]. auto.
Qed.

(** The rows of the other users go through the loop untouched. *)
Lemma upsertCategories_foreign (names : list gostring) :
  forall i t r,
    c_user_id r <> userID ->
    (In r (upsertCategories userID names i t) <-> In r t).
Proof.
  induction names as [|n rest IH]; intros i t r U; [reflexivity|].
  cbn [upsertCategories]. rewrite IH by exact U.
  destruct (upsertCategory_cases n (i + 1) t) as [[_ E] | [_ E]]; rewrite E.
  - rewrite in_app_iff. cbn [In]. split; [|auto].
    intros [H | [<- | []]]; [exact H|]. exfalso. apply U. reflexivity.
  - unfold updateWhere. rewrite in_map_iff. split.
    + intros [r0 [H1 H2]].
      destruct (owned c_user_id userID r0) eqn:O; cbn [andb] in H1.
      * exfalso. apply U. apply owned_eq in O.
        destruct (hasName n r0); subst r; cbn; exact O.
      * subst r0. exact H2.
    + intros H. exists r. split; [|exact H].
      assert (O : owned c_user_id userID r = false)
        by (apply str_eqb_neq; exact U).
      rewrite O. reflexivity.
Qed.

Lemma setPosition_same (r : categoryRow) : setPosition (c_position r) r = r.
Proof. destruct r; reflexivity. Qed.

(** On a table that has a row for every name the loop relabels in
    place. *)
Lemma upsertCategories_relabel (names : list gostring) :
  forall i t,
    (forall name, In name names -> present name t) ->
    upsertCategories userID names i t = map (relabel userID names i) t.
Proof.
  induction names as [|n rest IH]; intros i t H.
  - cbn [upsertCategories]. symmetry. erewrite map_ext; [apply map_id|].
    intros r. unfold relabel. cbn [lastPos].
    destruct (owned c_user_id userID r); reflexivity.
  - cbn [upsertCategories].
    destruct (upsertCategory_cases n (i + 1) t) as [[A _] | [_ E]].
    { exfalso. apply A, H. left. reflexivity. }
    rewrite IH.
    + rewrite E. unfold updateWhere. rewrite map_map. apply map_ext.
      intros r. unfold relabel. cbn [lastPos].
      destruct (owned c_user_id userID r) eqn:O; cbn [andb].
      * unfold hasName. rewrite (str_eqb_sym n (c_name r)).
        destruct (str_eqb (c_name r) n) eqn:S.
        -- unfold owned in *. cbn [setPosition c_user_id c_name].
           rewrite O. destruct (lastPos rest (i + 1) (c_name r));
             reflexivity.
        -- rewrite O. destruct (lastPos rest (i + 1) (c_name r));
             reflexivity.
      * rewrite O. reflexivity.
    + intros name Hn. apply upsertCategory_keeps. apply H. right. exact Hn.
Qed.

Lemma upsertCategory_unique (name : gostring) (p : Z)
    (t : list categoryRow) :
  uniqueCategories t -> uniqueCategories (upsertCategory userID name p t).
Proof.
  unfold uniqueCategories. intros H.
  destruct (upsertCategory_cases name p t) as [[A E] | [_ E]]; rewrite E.
  - rewrite map_app. cbn [map]. apply NoDup_app; [exact H | | ].
    + constructor; [intros [] | constructor].
    + intros k Hk [<- | []]. apply A. apply in_map_iff in Hk.
      destruct Hk as [r [K1 K2]]. unfold categoryKey in K1.
      injection K1 as K1 K3. exists r. auto.
  - replace (map categoryKey
               (updateWhere c_user_id userID (hasName name) (setPosition p) t))
      with (map categoryKey t); [exact H|].
    unfold updateWhere. rewrite map_map. apply map_ext. intros r.
    destruct (owned c_user_id userID r && hasName name r); reflexivity.
Qed.

Lemma upsertCategories_unique (names : list gostring) :
  forall i t,
    uniqueCategories t -> uniqueCategories (upsertCategories userID names i t).
Proof.
  induction names as [|n rest IH]; intros i t H; [exact H|].
  cbn [upsertCategories]. apply IH, upsertCategory_unique, H.
Qed.

Lemma NoDup_map_filter {A B : Type} (f : A -> B) (P : A -> bool)
    (l : list A) :
  NoDup (map f l) -> NoDup (map f (filter P l)).
Proof.
  induction l as [|x l IH]; cbn [map filter]; intros H; [constructor|].
  inversion H as [|? ? Hx Hl]; subst.
  destruct (P x); [|apply IH, Hl].
  cbn [map]. constructor; [|apply IH, Hl].
  intros C. apply Hx. apply in_map_iff in C. destruct C as [y [C1 C2]].
  apply in_map_iff. exists y. split; [exact C1|].
  apply filter_In in C2. apply C2.
Qed.

End CategoryFacts.

(** ** The materialisation of rules *)

Lemma getOrCreateUserConfig_tables (db : DB) (userID : gostring) :
  let db' := snd (getOrCreateUserConfig db userID) in
  expenses db' = expenses db /\
  recurring_expenses db' = recurring_expenses db /\
  categories db' = categories db.
Proof.
  unfold getOrCreateUserConfig.
  destruct (selectWhere u_user_id userID any (user_config db));
    cbn; auto.
Qed.

Lemma defaultCurrency_tables (db : DB) (userID currency : gostring) :
  let db' := snd (defaultCurrency db userID currency) in
  expenses db' = expenses db /\
  recurring_expenses db' = recurring_expenses db /\
  categories db' = categories db.
Proof.
  unfold defaultCurrency, GetCurrency.
  destruct (isEmpty currency); [|cbn; auto].
  pose proof (getOrCreateUserConfig_tables db userID) as H.
  destruct (getOrCreateUserConfig db userID) as [[c s] db']. exact H.
Qed.

Lemma deleteInstances_incl (userID id : gostring) (all : bool) (now : Time)
    (t : list expenseRow) (r : expenseRow) :
  In r (deleteInstances userID id all now t) -> In r t.
Proof.
  unfold deleteInstances, deleteWhere. destruct all; intros H;
    apply filter_In in H; apply H.
Qed.

Lemma instanceRow_ids (l : list Expense) :
  map x_id (map instanceRow l) = map e_ID l.
Proof. rewrite map_map. reflexivity. Qed.

(** What the conversion of the rows of a COPY keeps. *)
Lemma stored_kept (l stored : list Expense) :
  forEach expenseColumns l = Some stored ->
  map e_ID stored = map e_ID l /\ map e_UserID stored = map e_UserID l.
Proof.
  intros H. apply forEach_Some in H.
  induction H as [|e e' l l' He Hl IH]; [split; reflexivity|].
  apply expenseColumns_kept in He. destruct He as [H1 [H2 _]].
  destruct IH as [I1 I2]. cbn [map]. rewrite H1, H2, I1, I2.
  split; reflexivity.
Qed.

Lemma copyIn_cases (l : list Expense) (t : list expenseRow) :
  (forEach expenseColumns l = None /\ copyIn l t = Err DataError) \/
  (exists stored,
     forEach expenseColumns l = Some stored /\
     map x_id (map instanceRow stored) = map e_ID l /\
     map x_user_id (map instanceRow stored) = map e_UserID l /\
     copyIn l t =
     match insertRows x_id (map instanceRow stored) t with
     | None => Err ConflictError
     | Some rows => Ok rows
     end).
Proof.
  unfold copyIn. destruct (forEach expenseColumns l) as [stored|] eqn:E.
  - right. exists stored. destruct (stored_kept l stored E) as [K1 K2].
    rewrite !map_map. cbn [instanceRow x_id x_user_id].
    rewrite <- K1, <- K2. repeat split; reflexivity.
  - left. split; reflexivity.
Qed.

(** Rows that fit their columns and carry fresh ids are appended as they
    are. *)
Lemma copyIn_fits (l : list Expense) (t : list expenseRow) :
  Forall (fun e => expenseFits e = true) l ->
  freshKeys (map e_ID l) (map x_id t) = true ->
  copyIn l t = Ok (t ++ map instanceRow l).
Proof.
  intros F K. unfold copyIn. rewrite forEach_fits.
  - rewrite insertRows_fresh; [reflexivity|].
    rewrite instanceRow_ids. exact K.
  - eapply Forall_impl; [|exact F]. cbv beta. intros e.
    apply expenseColumns_fits.
Qed.

Lemma inTimestampRange_between (a t b : Time) :
  a <= t <= b -> inTimestampRange a = true -> inTimestampRange b = true ->
  inTimestampRange t = true.
Proof.
  unfold inTimestampRange. rewrite !andb_true_iff, !Z.leb_le, !Z.ltb_lt.
  lia.
Qed.

Section Materialisation.

Variable uuid : nat -> gostring.
Variable userID : gostring.
Variable loc : Location.

#[local] Abbreviation instancesOf := (instancesOf userID).
#[local] Abbreviation ruleForUpdate := (ruleForUpdate userID).

Lemma generated_rows_of_rule (recExp : RecurringExpense) (today : Time)
    (fromToday : bool) :
  let rows :=
    map instanceRow
      (generateExpensesFromRecurring uuid userID recExp loc today
         fromToday) in
  instancesOf (re_ID recExp) rows = rows.
Proof.
  cbn zeta. destruct (generate_shape uuid userID recExp loc today fromToday)
    as [m [_ [_ F]]].
  unfold instancesOf, selectWhere. apply filter_all. intros r Hr.
  apply in_map_iff in Hr. destruct Hr as [e [<- He]].
  rewrite Forall_forall in F. destruct (F e He) as [F1 F2].
  unfold owned, ofRule, instanceRow. cbn. rewrite F1, F2.
  rewrite !str_eqb_refl. reflexivity.
Qed.

Lemma generated_ids_fresh (recExp : RecurringExpense) (today : Time)
    (fromToday : bool) (old : list gostring) :
  freshKeys (map uuid (seq 0 (Z.to_nat (re_Occurrences recExp)))) old = true ->
  freshKeys
    (map e_ID
       (generateExpensesFromRecurring uuid userID recExp loc today
          fromToday)) old = true.
Proof.
  intros H. destruct (generate_shape uuid userID recExp loc today fromToday)
    as [m [M1 [M2 _]]].
  rewrite M2. apply freshKeys_prefix with (2 := H). exact M1.
Qed.

Lemma generated_rows_fresh (recExp : RecurringExpense) (today : Time)
    (fromToday : bool) (old : list gostring) :
  freshKeys (map uuid (seq 0 (Z.to_nat (re_Occurrences recExp)))) old = true ->
  freshKeys
    (map x_id
       (map instanceRow
          (generateExpensesFromRecurring uuid userID recExp loc today
             fromToday))) old = true.
Proof.
  intros H. rewrite instanceRow_ids. apply generated_ids_fresh. exact H.
Qed.

Lemma instance_fits (recExp : RecurringExpense) (k : nat) (d : Time) :
  ruleFits recExp = true -> within 36 (re_ID recExp) = true ->
  inTimestampRange d = true ->
  expenseFits (instance uuid userID recExp k d) = true.
Proof.
  unfold ruleFits. rewrite !andb_true_iff.
  intros [[[[[[H1 H2] H3] H4] H5] H6] H7] Hid Hd. unfold expenseFits.
  cbn [instance e_RecurringID e_Name e_Category e_Amount e_Currency e_Date
       e_Source e_Card].
  rewrite H1, H2, H3, H4, Hid, Hd. reflexivity.
Qed.

(** The instances of a storable rule fit their columns, in either
    mode. *)
Lemma generated_fit (recExp : RecurringExpense) (today : Time)
    (fromToday : bool) :
  ruleStorable loc recExp = true ->
  Forall (fun e => expenseFits e = true)
    (generateExpensesFromRecurring uuid userID recExp loc today fromToday).
Proof.
  unfold ruleStorable. rewrite !andb_true_iff. intros [[F I] L].
  assert (S : inTimestampRange (re_StartDate recExp) = true).
  { unfold ruleFits in F. rewrite !andb_true_iff in F. tauto. }
  eapply Forall_impl;
    [|apply (generate_dates uuid userID recExp loc today fromToday)].
  cbv beta. intros e [k [i [Hi ->]]]. apply instance_fits; [exact F|exact I|].
  apply inTimestampRange_between
    with (a := re_StartDate recExp) (b := lastDate loc recExp);
    [|exact S|exact L].
  split.
  - apply (dateAfter_mono loc (re_Interval recExp) 0 i). lia.
  - apply dateAfter_mono. lia.
Qed.

Lemma UpdateRecurringExpense_ok (now today : Time) (db : DB)
    (id : gostring) (recurringExpense : RecurringExpense)
    (updateAll : bool) :
  rowsAffected r_user_id userID (hasRuleID id) (recurring_expenses db)
    <> 0%nat ->
  freshKeys (map uuid (seq 0 (Z.to_nat (re_Occurrences recurringExpense))))
            (map x_id (expenses db)) = true ->
  ruleStorable loc (ruleForUpdate db id recurringExpense) = true ->
  exists db',
    UpdateRecurringExpense uuid now today db userID id recurringExpense
      loc updateAll = (Ok tt, db') /\
    expenses db' =
      deleteInstances userID id updateAll now (expenses db) ++
      map instanceRow
        (generateExpensesFromRecurring uuid userID
           (ruleForUpdate db id recurringExpense) loc today
           (negb updateAll)) /\
    recurring_expenses db' =
      updateWhere r_user_id userID (hasRuleID id)
        (setRule (ruleForUpdate db id recurringExpense))
        (recurring_expenses db) /\
    categories db' = categories db.
Proof.
  intros Hrule Hfresh Hfit.
  pose proof (generated_fit _ today (negb updateAll) Hfit) as G.
  unfold ruleStorable in Hfit. rewrite !andb_true_iff in Hfit.
  destruct Hfit as [[Hfit _] _]. apply ruleColumns_fits in Hfit.
  revert Hfit G.
  unfold UpdateRecurringExpense, updateRecurringTx, ruleForUpdate.
  cbn [set_re_ID re_Currency].
  pose proof (defaultCurrency_tables db userID (re_Currency recurringExpense))
    as [T1 [T2 T3]].
  destruct (defaultCurrency db userID (re_Currency recurringExpense))
    as [c db1]. cbn [fst snd] in *. intros Hfit G.
  rewrite Hfit, T2.
  destruct (rowsAffected r_user_id userID (hasRuleID id)
              (recurring_expenses db)); [contradiction|].
  rewrite T1.
  rewrite copyIn_fits.
  - eexists. split; [reflexivity|]. split; [reflexivity|].
    split; [reflexivity | exact T3].
  - exact G.
  - apply freshKeys_weaken with (old := map x_id (expenses db)).
    + intros k Hk. apply in_map_iff in Hk. destruct Hk as [r [<- Hr]].
      apply in_map. apply deleteInstances_incl in Hr. exact Hr.
    + apply generated_ids_fresh. exact Hfresh.
Qed.

End Materialisation.

Lemma select_app {row : Type} (user : row -> gostring) (userID : gostring)
    (cond : row -> bool) (t1 t2 : list row) :
  selectWhere user userID cond (t1 ++ t2) =
  selectWhere user userID cond t1 ++ selectWhere user userID cond t2.
Proof. unfold selectWhere. apply filter_app. Qed.

Lemma instancesOf_deleteAfter (userID id : gostring) (now : Time)
    (t : list expenseRow) :
  instancesOf userID id (deleteInstances userID id false now t) =
  filter (fun r => x_date r <=? now) (instancesOf userID id t).
Proof.
  unfold instancesOf, deleteInstances, selectWhere, deleteWhere, ofRuleAfter.
  rewrite !filter_filter. apply filter_ext. intros r.
  destruct (owned x_user_id userID r), (ofRule id r); cbn; try reflexivity.
  rewrite andb_true_r. rewrite Z.leb_antisym. reflexivity.
Qed.

Lemma instancesOf_deleteAll (userID id : gostring) (now : Time)
    (t : list expenseRow) :
  instancesOf userID id (deleteInstances userID id true now t) = [].
Proof. unfold instancesOf, deleteInstances. apply select_delete. Qed.

Lemma ofRule_true (id : gostring) (r : expenseRow) :
  ofRule id r = true <-> x_recurring_id r = Some id.
Proof.
  unfold ofRule. destruct (x_recurring_id r) as [rid|].
  - rewrite str_eqb_eq. split; congruence.
  - split; discriminate.
Qed.

Lemma ofRuleAfter_true (id : gostring) (now : Time) (r : expenseRow) :
  ofRuleAfter id now r = true <->
  x_recurring_id r = Some id /\ now < x_date r.
Proof.
  unfold ofRuleAfter. rewrite andb_true_iff, Z.ltb_lt, ofRule_true.
  reflexivity.
Qed.

Lemma freshKeys_not_In (new old : list gostring) (k : gostring) :
  freshKeys new old = true -> In k new -> ~ In k old.
Proof.
  unfold freshKeys. intros H Hk. apply andb_true_iff in H.
  destruct H as [_ H]. rewrite forallb_forall in H. specialize (H k Hk).
  apply negb_true_iff in H. apply mem_str_false. exact H.
Qed.

(** ** Tenant isolation *)

Ltac view_simpl :=
  unfold viewOf, with_expenses, with_recurring, with_categories,
    with_user_config;
  cbn [fst snd expenses recurring_expenses categories user_config].

Section Locality.

(** The user who calls. *)
Variable A : gostring.

#[local] Abbreviation localAt := (localAt A).
#[local] Abbreviation local := (local A).
#[local] Abbreviation scoped := (scoped A).

Lemma viewOf_idem (db : DB) : viewOf A (viewOf A db) = viewOf A db.
Proof.
  unfold viewOf. cbn [expenses recurring_expenses categories user_config].
  rewrite !rowsOf_idem. reflexivity.
Qed.

Lemma localAt_bind {R S : Type} (f : DB -> R * DB) (g : R -> DB -> S * DB)
    (db : DB) :
  localAt f db ->
  (forall r db1, f db = (r, db1) -> localAt (g r) db1) ->
  localAt (fun db => let (r, db1) := f db in g r db1) db.
Proof.
  intros [F1 [F2 F3]] G. unfold localAt in *.
  destruct (f db) as [r db1] eqn:E1.
  destruct (f (viewOf A db)) as [r' db1'] eqn:E2.
  cbn [fst snd] in *. subst r' db1'.
  destruct (G r db1 eq_refl) as [G1 [G2 G3]].
  split; [exact G1|]. split; [exact G2|].
  intros B HB. rewrite (G3 B HB). apply F3. exact HB.
Qed.

Lemma local_bind {R S : Type} (f : DB -> R * DB) (g : R -> DB -> S * DB) :
  local f -> (forall r, local (g r)) ->
  local (fun db => let (r, db1) := f db in g r db1).
Proof.
  intros F G db. apply localAt_bind; [apply F|]. intros r db1 _. apply G.
Qed.

Lemma localAt_map {R S : Type} (f : DB -> R * DB) (h : R -> S) (db : DB) :
  localAt f db -> localAt (fun db => let (r, db1) := f db in (h r, db1)) db.
Proof.
  intros [F1 [F2 F3]]. unfold localAt in *.
  destruct (f db) as [r db1]. destruct (f (viewOf A db)) as [r' db1'].
  cbn [fst snd] in *. subst. auto.
Qed.

Lemma local_ret {R : Type} (r : R) : local (fun db => (r, db)).
Proof. intros db. unfold localAt. cbn [fst snd]. auto. Qed.

(** A branch on something read from the rows of [A]. *)
Lemma local_read {R S : Type} (g : DB -> R) (k : R -> DB -> S * DB) :
  (forall db, g db = g (viewOf A db)) ->
  (forall r, local (k r)) ->
  local (fun db => k (g db) db).
Proof.
  intros G K db. unfold localAt. rewrite <- (G db). apply K.
Qed.

Lemma scoped_id {row : Type} (user : row -> gostring) :
  scoped user (fun t => t).
Proof. split; reflexivity. Qed.

Lemma scoped_delete {row : Type} (user : row -> gostring)
    (cond : row -> bool) :
  scoped user (deleteWhere user A cond).
Proof.
  split; [intros t; apply rowsOf_delete|].
  intros B t HB. apply rowsOf_delete_other. exact HB.
Qed.

Lemma scoped_update {row : Type} (user : row -> gostring)
    (cond : row -> bool) (set : row -> row) :
  (forall r, user (set r) = user r) ->
  scoped user (updateWhere user A cond set).
Proof.
  intros H. split; [intros t; apply rowsOf_update; exact H|].
  intros B t HB. apply rowsOf_update_other; assumption.
Qed.

Lemma scoped_append {row : Type} (user : row -> gostring)
    (rows : list row) :
  Forall (fun r => user r = A) rows ->
  scoped user (fun t => t ++ rows).
Proof.
  intros H. split.
  - intros t. rewrite rowsOf_app, (rowsOf_all user A rows H). reflexivity.
  - intros B t HB.
    rewrite rowsOf_app, (rowsOf_none user A B rows HB H), app_nil_r.
    reflexivity.
Qed.

Lemma scoped_compose {row : Type} (user : row -> gostring)
    (F G : list row -> list row) :
  scoped user F -> scoped user G -> scoped user (fun t => G (F t)).
Proof.
  intros [F1 F2] [G1 G2]. split.
  - intros t. rewrite G1, F1. reflexivity.
  - intros B t HB. rewrite G2, F2 by exact HB. reflexivity.
Qed.

Lemma local_write {R : Type} (r : R)
    (Fx : list expenseRow -> list expenseRow)
    (Fr : list recurringRow -> list recurringRow)
    (Fc : list categoryRow -> list categoryRow)
    (Fu : list userConfigRow -> list userConfigRow) :
  scoped x_user_id Fx -> scoped r_user_id Fr ->
  scoped c_user_id Fc -> scoped u_user_id Fu ->
  local (fun db =>
           (r, mkDB (Fx (expenses db)) (Fr (recurring_expenses db))
                    (Fc (categories db)) (Fu (user_config db)))).
Proof.
  intros [X1 X2] [R1 R2] [C1 C2] [U1 U2] db. unfold localAt.
  view_simpl. split; [reflexivity|]. split.
  - rewrite X1, R1, C1, U1. reflexivity.
  - intros B HB. rewrite X2, R2, C2, U2 by exact HB. reflexivity.
Qed.

(** *** Configuration *)

Lemma getOrCreateUserConfig_local :
  local (fun db => getOrCreateUserConfig db A).
Proof.
  unfold getOrCreateUserConfig.
  apply (local_read
           (fun db => selectWhere u_user_id A any (user_config db))
           (fun rows db =>
              match rows with
              | r :: _ => (u_currency r, u_start_date r, db)
              | [] =>
                  (lit "usd", 1,
                   with_user_config db
                     (user_config db ++ [mkUserConfigRow A (lit "usd") 1]))
              end)).
  - intros db. view_simpl. rewrite select_rowsOf. reflexivity.
  - intros [|r rows]; [|apply local_ret].
    apply (local_write (lit "usd", 1) (fun t => t) (fun t => t) (fun t => t)
             (fun t => t ++ [mkUserConfigRow A (lit "usd") 1]));
      try apply scoped_id.
    apply scoped_append. repeat constructor.
Qed.

Lemma GetCurrency_local : local (fun db => GetCurrency db A).
Proof.
  intros db. unfold GetCurrency.
  pose proof (getOrCreateUserConfig_local db) as [H1 [H2 H3]].
  unfold localAt.
  destruct (getOrCreateUserConfig db A) as [[c s] db1].
  destruct (getOrCreateUserConfig (viewOf A db) A) as [[c' s'] db1'].
  cbn [fst snd] in *. injection H1 as -> ->. auto.
Qed.

Lemma GetStartDate_local : local (fun db => GetStartDate db A).
Proof.
  intros db. unfold GetStartDate.
  pose proof (getOrCreateUserConfig_local db) as [H1 [H2 H3]].
  unfold localAt.
  destruct (getOrCreateUserConfig db A) as [[c s] db1].
  destruct (getOrCreateUserConfig (viewOf A db) A) as [[c' s'] db1'].
  cbn [fst snd] in *. injection H1 as -> ->. auto.
Qed.

Lemma defaultCurrency_local (currency : gostring) :
  local (fun db => defaultCurrency db A currency).
Proof.
  unfold defaultCurrency. destruct (isEmpty currency);
    [apply GetCurrency_local | apply local_ret].
Qed.

Lemma upsertUserConfig_scoped (new : userConfigRow)
    (set : userConfigRow -> userConfigRow) :
  u_user_id new = A -> (forall r, u_user_id (set r) = u_user_id r) ->
  scoped u_user_id (upsertUserConfig A new set).
Proof.
  intros Hnew Hset. unfold upsertUserConfig. split.
  - intros t. rewrite select_rowsOf.
    destruct (selectWhere u_user_id A any t).
    + apply scoped_append. repeat constructor. exact Hnew.
    + apply scoped_update. exact Hset.
  - intros B t HB. destruct (selectWhere u_user_id A any t).
    + apply scoped_append; [repeat constructor; exact Hnew | exact HB].
    + apply scoped_update; assumption.
Qed.

Lemma UpdateCurrency_local (currency : gostring) :
  local (fun db => UpdateCurrency db A currency).
Proof.
  unfold UpdateCurrency.
  destruct (negb (mem_str currency SupportedCurrencies)); [apply local_ret|].
  apply (local_bind (fun db => getOrCreateUserConfig db A)
           (fun cs db' =>
              let '(_, startDate) := cs in
              (Ok tt,
               with_user_config db'
                 (upsertUserConfig A (mkUserConfigRow A currency startDate)
                    (fun r => mkUserConfigRow (u_user_id r) currency
                                (u_start_date r))
                    (user_config db'))))).
  - apply getOrCreateUserConfig_local.
  - intros [c s].
    apply (local_write (Ok tt) (fun t => t) (fun t => t) (fun t => t));
      try apply scoped_id.
    apply upsertUserConfig_scoped; reflexivity.
Qed.

Lemma UpdateStartDate_local (startDate : Z) :
  local (fun db => UpdateStartDate db A startDate).
Proof.
  unfold UpdateStartDate.
  destruct ((startDate <? 1) || (31 <? startDate)); [apply local_ret|].
  apply (local_bind (fun db => getOrCreateUserConfig db A)
           (fun cs db' =>
              let '(currency, _) := cs in
              (Ok tt,
               with_user_config db'
                 (upsertUserConfig A (mkUserConfigRow A currency startDate)
                    (fun r => mkUserConfigRow (u_user_id r) (u_currency r)
                                startDate)
                    (user_config db'))))).
  - apply getOrCreateUserConfig_local.
  - intros [c s].
    apply (local_write (Ok tt) (fun t => t) (fun t => t) (fun t => t));
      try apply scoped_id.
    apply upsertUserConfig_scoped; reflexivity.
Qed.

(** *** Categories *)

Lemma upsertCategory_scoped (name : gostring) (p : Z) :
  scoped c_user_id (upsertCategory A name p).
Proof.
  unfold upsertCategory. split.
  - intros t. rewrite select_rowsOf.
    destruct (selectWhere c_user_id A (hasName name) t).
    + apply scoped_append. repeat constructor.
    + apply scoped_update. reflexivity.
  - intros B t HB. destruct (selectWhere c_user_id A (hasName name) t).
    + apply scoped_append; [repeat constructor | exact HB].
    + apply scoped_update; [reflexivity | exact HB].
Qed.

Lemma upsertCategories_scoped (names : list gostring) :
  forall i, scoped c_user_id (upsertCategories A names i).
Proof.
  induction names as [|n rest IH]; intros i; [apply scoped_id|].
  cbn [upsertCategories].
  apply (scoped_compose c_user_id (upsertCategory A n (i + 1))
           (upsertCategories A rest (i + 1)));
    [apply upsertCategory_scoped | apply IH].
Qed.

Lemma getCategoriesFromTable_view (db : DB) :
  getCategoriesFromTable db A = getCategoriesFromTable (viewOf A db) A.
Proof.
  unfold getCategoriesFromTable. view_simpl. rewrite select_rowsOf. reflexivity.
Qed.

Lemma GetCategories_local : local (fun db => GetCategories db A).
Proof.
  unfold GetCategories.
  apply (local_read (fun db => getCategoriesFromTable db A)
           (fun names db =>
              match names with
              | [] => (defaultCategories,
                       seedCategories db A defaultCategories)
              | n :: rest => (n :: rest, db)
              end)).
  - apply getCategoriesFromTable_view.
  - intros [|n names]; [|apply local_ret].
    apply (local_write defaultCategories (fun t => t) (fun t => t)
             (upsertCategories A defaultCategories 0) (fun t => t));
      try apply scoped_id.
    apply upsertCategories_scoped.
Qed.

Lemma updateCategoriesTable_local (names : list gostring) :
  local (fun db => updateCategoriesTable db A names).
Proof.
  unfold updateCategoriesTable.
  destruct (length names =? 0)%nat; [apply local_ret|].
  destruct (existsb (fun cat => isEmpty (TrimSpace cat)) names);
    [apply local_ret|].
  apply (local_write (Ok tt) (fun t => t) (fun t => t)
           (fun t =>
              deleteWhere c_user_id A
                (fun r => negb (mem_str (c_name r) names))
                (upsertCategories A names 0 t))
           (fun t => t)); try apply scoped_id.
  apply (scoped_compose c_user_id (upsertCategories A names 0)).
  - apply upsertCategories_scoped.
  - apply scoped_delete.
Qed.

(** *** Expenses *)

Lemma UpdateExpense_local (id : gostring) (expense : Expense) :
  local (fun db => UpdateExpense db A id expense).
Proof.
  unfold UpdateExpense.
  apply (local_bind (fun db => defaultCurrency db A (e_Currency expense))
           (fun currency db =>
              match expenseColumns (set_e_Currency expense currency) with
              | None => (Err DataError, db)
              | Some stored =>
                  match rowsAffected x_user_id A (hasID id) (expenses db) with
                  | O => (Err NotFoundError, db)
                  | S _ =>
                      (Ok tt,
                       with_expenses db
                         (updateWhere x_user_id A (hasID id)
                            (setExpense stored) (expenses db)))
                  end
              end)).
  - apply defaultCurrency_local.
  - intros currency.
    destruct (expenseColumns (set_e_Currency expense currency))
      as [stored|]; [|apply local_ret].
    apply (local_read
             (fun db => rowsAffected x_user_id A (hasID id) (expenses db))
             (fun n db =>
                match n with
                | O => (Err NotFoundError, db)
                | S _ =>
                    (Ok tt,
                     with_expenses db
                       (updateWhere x_user_id A (hasID id)
                          (setExpense stored) (expenses db)))
                end)).
    + intros db. view_simpl. rewrite rowsAffected_rowsOf. reflexivity.
    + intros [|n]; [apply local_ret|].
      apply (local_write (Ok tt)
               (updateWhere x_user_id A (hasID id) (setExpense stored))
               (fun t => t) (fun t => t) (fun t => t));
        try apply scoped_id.
      apply scoped_update. reflexivity.
Qed.

Lemma RemoveExpense_local (id : gostring) :
  local (fun db => RemoveExpense db A id).
Proof.
  unfold RemoveExpense.
  apply (local_read
           (fun db => rowsAffected x_user_id A (hasID id) (expenses db))
           (fun n db =>
              match n with
              | O => (Err NotFoundError, db)
              | S _ =>
                  (Ok tt,
                   with_expenses db
                     (deleteWhere x_user_id A (hasID id) (expenses db)))
              end)).
  - intros db. view_simpl. rewrite rowsAffected_rowsOf. reflexivity.
  - intros [|n]; [apply local_ret|].
    apply (local_write (Ok tt) (deleteWhere x_user_id A (hasID id))
             (fun t => t) (fun t => t) (fun t => t));
      try apply scoped_id.
    apply scoped_delete.
Qed.

Lemma RemoveMultipleExpenses_local (ids : list gostring) :
  local (fun db => RemoveMultipleExpenses db A ids).
Proof.
  unfold RemoveMultipleExpenses. destruct ids as [|i ids];
    [apply local_ret|].
  apply (local_write (Ok tt)
           (deleteWhere x_user_id A (fun r => mem_str (x_id r) (i :: ids)))
           (fun t => t) (fun t => t) (fun t => t));
    try apply scoped_id.
  apply scoped_delete.
Qed.

Lemma GetAllExpenses_view (db : DB) :
  GetAllExpenses db A = GetAllExpenses (viewOf A db) A.
Proof.
  unfold GetAllExpenses. view_simpl. rewrite select_rowsOf. reflexivity.
Qed.

Lemma GetExpense_view (db : DB) (id : gostring) :
  GetExpense db A id = GetExpense (viewOf A db) A id.
Proof.
  unfold GetExpense. view_simpl. rewrite select_rowsOf. reflexivity.
Qed.

(** *** Recurring rules *)

Lemma GetRecurringExpenses_view (db : DB) :
  GetRecurringExpenses db A = GetRecurringExpenses (viewOf A db) A.
Proof.
  unfold GetRecurringExpenses. view_simpl. rewrite select_rowsOf.
  reflexivity.
Qed.

Lemma GetRecurringExpense_view (db : DB) (id : gostring) :
  GetRecurringExpense db A id = GetRecurringExpense (viewOf A db) A id.
Proof.
  unfold GetRecurringExpense. view_simpl. rewrite select_rowsOf.
  reflexivity.
Qed.

Lemma deleteInstances_scoped (id : gostring) (all : bool) (now : Time) :
  scoped x_user_id (deleteInstances A id all now).
Proof. unfold deleteInstances. destruct all; apply scoped_delete. Qed.

Lemma RemoveRecurringExpense_local (now : Time) (id : gostring)
    (removeAll : bool) :
  local (fun db => RemoveRecurringExpense now db A id removeAll).
Proof.
  unfold RemoveRecurringExpense.
  apply (local_read
           (fun db => rowsAffected r_user_id A (hasRuleID id)
                        (recurring_expenses db))
           (fun n db =>
              match n with
              | O => (Err NotFoundError, db)
              | S _ =>
                  (Ok tt,
                   with_expenses
                     (with_recurring db
                        (deleteWhere r_user_id A (hasRuleID id)
                           (recurring_expenses db)))
                     (deleteInstances A id removeAll now (expenses db)))
              end)).
  - intros db. view_simpl. rewrite rowsAffected_rowsOf. reflexivity.
  - intros [|n]; [apply local_ret|].
    apply (local_write (Ok tt) (deleteInstances A id removeAll now)
             (deleteWhere r_user_id A (hasRuleID id))
             (fun t => t) (fun t => t));
      try apply scoped_id.
    + apply deleteInstances_scoped.
    + apply scoped_delete.
Qed.

Lemma rowsOf_ids_incl (t : list expenseRow) (k : gostring) :
  In k (map x_id (rowsOf x_user_id A t)) -> In k (map x_id t).
Proof.
  intros H. apply in_map_iff in H. destruct H as [r [<- Hr]].
  apply in_map. unfold rowsOf, selectWhere in Hr.
  apply filter_In in Hr. apply Hr.
Qed.

Lemma updateRecurringTx_localAt (uuid : nat -> gostring) (now today : Time)
    (id : gostring) (rule : RecurringExpense) (loc : Location)
    (updateAll : bool) (db : DB) :
  freshKeys (map uuid (seq 0 (Z.to_nat (re_Occurrences rule))))
            (map x_id (expenses db)) = true ->
  localAt (fun db => updateRecurringTx uuid now today db A id rule loc
                       updateAll)
          db.
Proof.
  intros Hfresh. unfold localAt, updateRecurringTx. view_simpl.
  destruct (ruleColumns rule) as [stored|]; [|cbn [fst snd]; auto].
  rewrite rowsAffected_rowsOf.
  destruct (rowsAffected r_user_id A (hasRuleID id) (recurring_expenses db));
    [cbn [fst snd]; auto|].
  set (gen := generateExpensesFromRecurring uuid A rule loc today
                (negb updateAll)).
  destruct (copyIn_cases gen
              (deleteInstances A id updateAll now (expenses db)))
    as [[E1 C1] | [rows [E1 [I1 [O1 C1]]]]];
    destruct (copyIn_cases gen
                (deleteInstances A id updateAll now
                   (rowsOf x_user_id A (expenses db))))
      as [[E2 C2] | [rows' [E2 [I2 [O2 C2]]]]];
    rewrite C1, C2; try (rewrite E1 in E2; discriminate);
    [cbn [fst snd]; auto|].
  rewrite E1 in E2. injection E2 as <-. clear I2 O2.
  set (G := map instanceRow rows) in *.
  assert (F1 : freshKeys (map x_id G)
                 (map x_id (deleteInstances A id updateAll now (expenses db)))
               = true).
  { rewrite I1.
    apply freshKeys_weaken with (old := map x_id (expenses db)).
    - intros k Hk. apply in_map_iff in Hk. destruct Hk as [r [<- Hr]].
      apply in_map. apply deleteInstances_incl in Hr. exact Hr.
    - apply generated_ids_fresh. exact Hfresh. }
  assert (F2 : freshKeys (map x_id G)
                 (map x_id (deleteInstances A id updateAll now
                              (rowsOf x_user_id A (expenses db)))) = true).
  { rewrite I1.
    apply freshKeys_weaken with (old := map x_id (expenses db)).
    - intros k Hk. apply rowsOf_ids_incl.
      apply in_map_iff in Hk. destruct Hk as [r [<- Hr]].
      apply in_map. apply deleteInstances_incl in Hr. exact Hr.
    - apply generated_ids_fresh. exact Hfresh. }
  rewrite (insertRows_fresh x_id G _ F1), (insertRows_fresh x_id G _ F2).
  assert (Own : Forall (fun r => x_user_id r = A) G).
  { apply Forall_forall. intros r Hr.
    assert (In (x_user_id r) (map x_user_id G)) by (apply in_map; exact Hr).
    rewrite O1 in H. apply in_map_iff in H. destruct H as [e [<- He]].
    destruct (generate_shape uuid A rule loc today (negb updateAll))
      as [m [_ [_ F]]].
    rewrite Forall_forall in F. destruct (F e He) as [F' _]. exact F'. }
  destruct (deleteInstances_scoped id updateAll now) as [D1 D2].
  destruct (scoped_append x_user_id G Own) as [P1 P2].
  destruct (scoped_update r_user_id (hasRuleID id) (setRule stored)
              (fun r => eq_refl)) as [U1 U2].
  view_simpl. split; [reflexivity|]. split.
  - rewrite P1, D1, U1. reflexivity.
  - intros B HB. rewrite (P2 B _ HB), (D2 B _ HB), (U2 B _ HB).
    reflexivity.
Qed.

Lemma UpdateRecurringExpense_localAt (uuid : nat -> gostring)
    (now today : Time) (id : gostring) (re : RecurringExpense)
    (loc : Location) (updateAll : bool) (db : DB) :
  freshKeys (map uuid (seq 0 (Z.to_nat (re_Occurrences re))))
            (map x_id (expenses db)) = true ->
  localAt (fun db => UpdateRecurringExpense uuid now today db A id re loc
                       updateAll) db.
Proof.
  intros Hfresh.
  apply (localAt_bind
           (fun db => defaultCurrency db A (re_Currency (set_re_ID re id)))
           (fun currency db =>
              updateRecurringTx uuid now today db A id
                (set_re_Currency (set_re_ID re id) currency) loc updateAll)).
  - apply defaultCurrency_local.
  - intros currency db1 E. apply updateRecurringTx_localAt.
    pose proof (defaultCurrency_tables db A (re_Currency (set_re_ID re id)))
      as [T _].
    rewrite E in T. cbn [snd] in T. rewrite T. exact Hfresh.
Qed.

Lemma GetConfig_local : local (fun db => GetConfig db A).
Proof.
  unfold GetConfig.
  apply (local_bind (fun db => getOrCreateUserConfig db A)
           (fun cs db =>
              let '(currency, startDate) := cs in
              let '(names, db) := GetCategories db A in
              (mkConfig names currency startDate
                 (GetRecurringExpenses db A), db))).
  - apply getOrCreateUserConfig_local.
  - intros [c s]. cbn [fst snd].
    apply (local_bind (fun db => GetCategories db A)
             (fun names db =>
                (mkConfig names c s (GetRecurringExpenses db A), db))).
    + apply GetCategories_local.
    + intros names.
      apply (local_read (fun db => GetRecurringExpenses db A)
               (fun rules db => (mkConfig names c s rules, db))).
      * apply GetRecurringExpenses_view.
      * intros rules. apply local_ret.
Qed.

Lemma freshFor_view (env : environment) (req : request) (db : DB) :
  freshFor env req db -> freshFor env req (viewOf A db).
Proof.
  destruct req; cbn [freshFor]; auto.
  apply freshKeys_weaken. intros k. view_simpl. apply rowsOf_ids_incl.
Qed.

Lemma local_pure {R : Type} (g : DB -> R) :
  (forall db, g db = g (viewOf A db)) -> local (fun db => (g db, db)).
Proof.
  intros G. apply (local_read g (fun r db => (r, db)) G).
  intros r. apply local_ret.
Qed.

Lemma serve_localAt (env : environment) (req : request) (db : DB) :
  freshFor env req db ->
  localAt (fun db => serve env db A req) db.
Proof.
  intros Hfresh. destruct req; cbn [serve freshFor] in *.
  - apply (localAt_map (fun db => GetConfig db A) ConfigResp).
    apply GetConfig_local.
  - apply (localAt_map (fun db => GetCategories db A) NamesResp).
    apply GetCategories_local.
  - apply (localAt_map (fun db => UpdateCategories db A names) DoneResp).
    apply updateCategoriesTable_local.
  - apply (localAt_map (fun db => GetCurrency db A) CurrencyResp).
    apply GetCurrency_local.
  - apply (localAt_map (fun db => UpdateCurrency db A currency) DoneResp).
    apply UpdateCurrency_local.
  - apply (localAt_map (fun db => GetStartDate db A) StartDateResp).
    apply GetStartDate_local.
  - apply (localAt_map (fun db => UpdateStartDate db A startDate) DoneResp).
    apply UpdateStartDate_local.
  - apply (local_pure (fun db => RulesResp (GetRecurringExpenses db A))).
    intros d. rewrite <- GetRecurringExpenses_view. reflexivity.
  - apply (local_pure (fun db => RuleResp (GetRecurringExpense db A id))).
    intros d. rewrite <- GetRecurringExpense_view. reflexivity.
  - apply (localAt_map
             (fun db => RemoveRecurringExpense (env_now env) db A id
                          removeAll) DoneResp).
    apply RemoveRecurringExpense_local.
  - apply (localAt_map
             (fun db => UpdateRecurringExpense (env_uuid env) (env_now env)
                          (env_today env) db A id recurringExpense loc
                          updateAll)
             DoneResp).
    apply UpdateRecurringExpense_localAt. exact Hfresh.
  - apply (local_pure (fun db => ExpensesResp (GetAllExpenses db A))).
    intros d. rewrite <- GetAllExpenses_view. reflexivity.
  - apply (local_pure (fun db => ExpenseResp (GetExpense db A id))).
    intros d. rewrite <- GetExpense_view. reflexivity.
  - apply (localAt_map (fun db => RemoveExpense db A id) DoneResp).
    apply RemoveExpense_local.
  - apply (localAt_map (fun db => RemoveMultipleExpenses db A ids) DoneResp).
    apply RemoveMultipleExpenses_local.
  - apply (localAt_map (fun db => UpdateExpense db A id expense) DoneResp).
    apply UpdateExpense_local.
Qed.

End Locality.

(** * The claims *)

(** ** Validation *)

Section ValidationFacts.

Variable unicodeL : rune -> bool.
Variable unicodeN : rune -> bool.

#[local] Abbreviation sanitize := (SanitizeString unicodeL unicodeN).
#[local] Abbreviation validate := (Validate unicodeL unicodeN).
#[local] Abbreviation malformed := (malformed unicodeL unicodeN).

Ltac open_Validate e :=
  destruct e as [uid flow id name amount currency tags category start
                 interval occurrences];
  unfold Validate;
  cbn -[SanitizeString validIntervals IsZero Z.ltb cleanTags].

Lemma isEmpty_true (s : gostring) : isEmpty s = true <-> s = [].
Proof. destruct s; simpl; split; congruence. Qed.

Lemma Validate_Name (e : RecurringExpense) :
  re_Name (fst (validate e)) = sanitize (re_Name e).
Proof.
  open_Validate e.
  destruct (isEmpty (sanitize name)); [reflexivity|].
  destruct (isEmpty category); [reflexivity|].
  destruct tags; cbn -[SanitizeString validIntervals IsZero Z.ltb cleanTags];
    destruct (occurrences <? 2); try reflexivity;
    destruct (IsZero start); try reflexivity;
    destruct (negb (validIntervals interval)); reflexivity.
Qed.

Lemma Validate_error (e : RecurringExpense) :
  snd (validate e) = Some ValidationError \/ snd (validate e) = None.
Proof.
  open_Validate e.
  destruct (isEmpty (sanitize name)); [left; reflexivity|].
  destruct (isEmpty category); [left; reflexivity|].
  destruct tags; cbn -[SanitizeString validIntervals IsZero Z.ltb cleanTags];
    destruct (occurrences <? 2); try (left; reflexivity);
    destruct (IsZero start); try (left; reflexivity);
    destruct (negb (validIntervals interval));
    (left; reflexivity) || (right; reflexivity).
Qed.

Lemma Validate_passes (e : RecurringExpense) :
  snd (validate e) = None <-> ~ malformed e.
Proof.
  unfold malformed. open_Validate e. unfold IsZero.
  destruct (isEmpty (sanitize name)) eqn:E1.
  { apply isEmpty_true in E1. cbn [snd]. split; [discriminate | tauto]. }
  destruct (isEmpty category) eqn:E2.
  { apply isEmpty_true in E2. cbn [snd]. split; [discriminate | tauto]. }
  assert (N1 : sanitize name <> [])
    by (intros C; apply isEmpty_true in C; congruence).
  assert (N2 : category <> [])
    by (intros C; apply isEmpty_true in C; congruence).
  assert (G : (if occurrences <? 2 then Some ValidationError
               else if start =? 0 then Some ValidationError
               else if negb (validIntervals interval)
                    then Some ValidationError else None) = None <->
              ~ (sanitize name = [] \/ category = [] \/ occurrences < 2 \/
                 start = 0 \/ validIntervals interval = false)).
  { destruct (Z.ltb_spec occurrences 2);
      [split; [discriminate | tauto]|].
    destruct (Z.eqb_spec start 0); [split; [discriminate | tauto]|].
    destruct (validIntervals interval); cbn [negb].
    - split; [intros _ | reflexivity].
      intros [C|[C|[C|[C|C]]]]; first [congruence | lia].
    - split; [discriminate | tauto]. }
  destruct tags; cbn -[SanitizeString validIntervals IsZero Z.ltb cleanTags];
    (destruct (occurrences <? 2); [exact G|]);
    (destruct (start =? 0); [exact G|]);
    (destruct (negb (validIntervals interval)); exact G).
Qed.

(** A rule that passes validation has a valid interval and two
    occurrences at least. *)
Lemma Validate_ok_interval (e : RecurringExpense) :
  snd (validate e) = None ->
  validIntervals (re_Interval e) = true /\ 2 <= re_Occurrences e.
Proof.
  intros H. apply Validate_passes in H. unfold malformed in H.
  destruct (validIntervals (re_Interval e)); split; try tauto; lia.
Qed.


(** C10.  [SanitizeString] is idempotent, and [Validate] leaves a name
    that is already sanitised as it is. *)
Theorem C10_SanitizeString_idempotent (s : gostring) (e : RecurringExpense) :
  sanitize (sanitize s) = sanitize s /\
  re_Name (fst (validate (set_re_Name e (sanitize s)))) = sanitize s.
Proof.
  split; [apply SanitizeString_idem|].
  rewrite Validate_Name. cbn [set_re_Name re_Name].
  apply SanitizeString_idem.
Qed.

End ValidationFacts.



(** ** The recurring engine *)

(** C9.  In Full mode a rule with [Occurrences = 0] yields no instance. *)
Theorem C9_zero_occurrences_full_mode_empty (uuid : nat -> gostring)
    (userID : gostring) (recExp : RecurringExpense) (loc : Location)
    (today : Time) :
  re_Occurrences recExp = 0 ->
  generateExpensesFromRecurring uuid userID recExp loc today false = [].
Proof.
  intros H. unfold generateExpensesFromRecurring. rewrite H. reflexivity.
Qed.

Lemma C9_witness :
  generateExpensesFromRecurring uuidExample (lit "alice") ruleUnbounded UTC
    (Date 2026 6 1 0 0 0 0) false = [].
Proof.
  apply (C9_zero_occurrences_full_mode_empty uuidExample (lit "alice")
           ruleUnbounded UTC (Date 2026 6 1 0 0 0 0)).
  reflexivity.
Defined.

Lemma stepDate_shift (loc : Location) (interval : gostring) (t : Time) :
  validIntervals interval = true ->
  stepDate loc interval t =
  let '(years, months, days) := intervalShift interval in
  AddDate loc t years months days.
Proof.
  unfold validIntervals, stepDate, nextDate, intervalShift. intros H.
  destruct (str_eqb interval (lit "daily")); [reflexivity|].
  destruct (str_eqb interval (lit "weekly")); [reflexivity|].
  destruct (str_eqb interval (lit "monthly")); [reflexivity|].
  destruct (str_eqb interval (lit "yearly")); [reflexivity|].
  discriminate.
Qed.

Lemma dateAfter_days (loc : Location) (interval : gostring) (n : Z)
    (k : nat) (t : Time) :
  (forall u, stepDate loc interval u = AddDate loc u 0 0 n) ->
  dateAfter loc interval k t = t + Z.of_nat k * (n * nsPerDay).
Proof.
  intros H. induction k as [|k IH].
  - simpl. lia.
  - change (dateAfter loc interval (S k) t)
      with (stepDate loc interval (dateAfter loc interval k t)).
    rewrite H, AddDate_days, IH. lia.
Qed.

Section EngineClaims.

Variable unicodeL : rune -> bool.
Variable unicodeN : rune -> bool.
Variable uuid : nat -> gostring.
Variable userID : gostring.

(** C3.  FutureOnly generation for a valid rule.  Let [d k] be the date
    reached from the start date after [k] interval steps, taken in the
    location [loc] of the start date, [n] the occurrences of the rule
    and [j] the number of the dates [d 0 .. d (n-1)] that are strictly
    before [today].  The result is the [n - j] instances dated
    [d j, d (j+1), ..]; the dates before [d j] are strictly before
    [today] and [d j], if any instance is left, is not: it is the first
    date on or after [today].  When all [n] dates are before [today],
    the result is empty. *)
Theorem C3_future_only_generation (recExp : RecurringExpense)
    (loc : Location) (today : Time) :
  snd (Validate unicodeL unicodeN recExp) = None ->
  let n := Z.to_nat (re_Occurrences recExp) in
  let d :=
    fun k => dateAfter loc (re_Interval recExp) k (re_StartDate recExp) in
  let j := length (filter (fun k => Before (d k) today) (seq 0 n)) in
  generateExpensesFromRecurring uuid userID recExp loc today true =
    map (fun i => instance uuid userID recExp i (d (j + i)%nat))
        (seq 0 (n - j)) /\
  (forall k, (k < j)%nat -> Before (d k) today = true) /\
  ((j < n)%nat -> Before (d j) today = false) /\
  ((forall k, (k < n)%nat -> Before (d k) today = true) ->
   generateExpensesFromRecurring uuid userID recExp loc today true = []).
Proof.
  intros Hvalid n d j.
  destruct (Validate_ok_interval _ _ _ Hvalid) as [Hi Ho].
  destruct (skipPast_positive recExp loc today Hi ltac:(lia)
              (skipFuel today recExp) (re_StartDate recExp)
              (re_Occurrences recExp)) as [j0 [J1 [J2 [J3 J4]]]].
  { unfold skipFuel. destruct (Z.eqb_spec (re_Occurrences recExp) 0); lia. }
  assert (Hlater : forall i, (j0 <= i < n)%nat -> Before (d i) today = false).
  { intros i Hi'. destruct J4 as [J4 | J4]; [lia|].
    unfold Before in *. apply Z.ltb_ge in J4. apply Z.ltb_ge.
    destruct (Nat.eq_dec i j0) as [-> | Hne]; [exact J4|].
    pose proof (dateAfter_increasing loc (re_Interval recExp) j0 i
                  (re_StartDate recExp) Hi ltac:(lia)).
    unfold d. lia. }
  assert (Hj : j = j0).
  { unfold j. apply count_prefix; [lia | exact J3 | exact Hlater]. }
  assert (Hgen : generateExpensesFromRecurring uuid userID recExp loc today
                   true =
                 map (fun i => instance uuid userID recExp i (d (j + i)%nat))
                     (seq 0 (n - j))).
  { unfold generateExpensesFromRecurring. rewrite J2, Hj.
    rewrite emit_valid by exact Hi.
    replace (Z.to_nat (re_Occurrences recExp - Z.of_nat j0))
      with (n - j0)%nat by lia.
    apply map_ext. intros i. cbn [Nat.add]. unfold d.
    rewrite dateAfter_add. reflexivity. }
  split; [exact Hgen|]. split; [rewrite Hj; exact J3|].
  split.
  - intros Hlt. apply Hlater. lia.
  - intros Hall. rewrite Hgen.
    assert (j = n).
    { unfold j. rewrite filter_all; [apply length_seq|].
      intros k Hk. apply in_seq in Hk. apply Hall. lia. }
    replace (n - j)%nat with 0%nat by lia. reflexivity.
Qed.

(** The instances of a valid rule in Full mode, as rows. *)
Lemma full_rows (recExp : RecurringExpense) (loc : Location)
    (today : Time) :
  validIntervals (re_Interval recExp) = true ->
  map instanceRow
    (generateExpensesFromRecurring uuid userID recExp loc today false) =
  map (fun k =>
         mkExpenseRow (uuid k) userID (Some (re_ID recExp))
           (re_Name recExp) (re_Category recExp) (re_Amount recExp)
           (re_Currency recExp)
           (dateAfter loc (re_Interval recExp) k (re_StartDate recExp))
           (re_Tags recExp) None None)
      (seq 0 (Z.to_nat (re_Occurrences recExp))).
Proof.
  intros H. rewrite generate_full by exact H. rewrite map_map.
  reflexivity.
Qed.

End EngineClaims.

Lemma C3_witness :
  map (fun e => date (e_Date e))
    (generateExpensesFromRecurring uuidExample (lit "alice") ruleJan31 UTC
       (Date 2026 3 3 10 30 0 0) true) =
  [(2026, 3, 3); (2026, 4, 3); (2026, 5, 3); (2026, 6, 3)].
Proof.
  destruct (C3_future_only_generation asciiLetter asciiDigit uuidExample
              (lit "alice") ruleJan31 UTC (Date 2026 3 3 10 30 0 0) eq_refl)
    as [H _].
  rewrite H. vm_compute. reflexivity.
Defined.

(** ** The materialisation of rules *)

Section StoreClaims.

Variable unicodeL : rune -> bool.
Variable unicodeN : rune -> bool.




End StoreClaims.

(** ** The reconciliation of categories *)

Section ReconcileClaims.

Variable unicodeL : rune -> bool.
Variable unicodeN : rune -> bool.

#[local] Abbreviation sanitizedNames := (sanitizedNames unicodeL unicodeN).

Lemma sanitizedNames_checks (names : list gostring) :
  sanitizedNames names ->
  (length names =? 0)%nat = false /\
  existsb (fun cat => isEmpty (TrimSpace cat)) names = false.
Proof.
  intros [H1 H2]. split.
  - destruct names; [contradiction | reflexivity].
  - clear H1. induction H2 as [|n rest [S1 S2] _ IH]; [reflexivity|].
    cbn [existsb]. rewrite IH, orb_false_r.
    destruct (SanitizeString_shape unicodeL unicodeN n) as [_ [_ T]].
    cbv zeta in T. rewrite S1 in T. rewrite T.
    destruct n; [contradiction | reflexivity].
Qed.

Variable userID : gostring.

#[local] Abbreviation reconciled := (reconciled userID).

Lemma updateCategoriesTable_ok (db : DB) (names : list gostring) :
  sanitizedNames names ->
  updateCategoriesTable db userID names =
  (Ok tt, with_categories db (reconciled names (categories db))).
Proof.
  intros H. destruct (sanitizedNames_checks names H) as [C1 C2].
  unfold updateCategoriesTable. rewrite C1, C2. reflexivity.
Qed.

Lemma reconciled_In (names : list gostring) (t : list categoryRow)
    (r : categoryRow) :
  In r (reconciled names t) <->
  In r (upsertCategories userID names 0 t) /\
  (c_user_id r = userID -> In (c_name r) names).
Proof.
  unfold reconciled. rewrite deleteWhere_In, negb_true_iff, mem_str_false.
  split; intros [H1 H2]; (split; [exact H1|]).
  - intros U. destruct (mem_str (c_name r) names) eqn:M.
    + apply mem_str_In. exact M.
    + exfalso. apply H2. split; [exact U|]. apply mem_str_false. exact M.
  - intros [U N]. apply N. apply H2. exact U.
Qed.

(** The rows of the user after a reconciliation carry the names of the
    list, each at the position of its last occurrence. *)
Lemma reconciled_rows (names : list gostring) (t : list categoryRow)
    (r : categoryRow) :
  In r (reconciled names t) -> c_user_id r = userID ->
  lastPos names 0 (c_name r) = Some (c_position r).
Proof.
  intros H U. apply reconciled_In in H. destruct H as [H1 H2].
  specialize (H2 U).
  pose proof (upsertCategories_rows userID names 0 t r H1 U) as P.
  destruct (lastPos names 0 (c_name r)) as [p|] eqn:E.
  - rewrite P. reflexivity.
  - apply lastPos_None in E. contradiction.
Qed.

Lemma reconciled_present (names : list gostring) (t : list categoryRow)
    (name : gostring) :
  In name names -> present userID name (reconciled names t).
Proof.
  intros H.
  destruct (upsertCategories_present userID names 0 t name H)
    as [r [R1 [R2 R3]]].
  exists r. split; [|auto]. apply reconciled_In. split; [exact R1|].
  intros _. rewrite R3. exact H.
Qed.

Lemma reconciled_unique (names : list gostring) (t : list categoryRow) :
  uniqueCategories t -> uniqueCategories (reconciled names t).
Proof.
  intros H. unfold reconciled, deleteWhere, uniqueCategories.
  apply NoDup_map_filter. apply upsertCategories_unique. exact H.
Qed.

(** Reconciling a reconciled table with the same list changes nothing. *)
Lemma reconciled_idem (names : list gostring) (t : list categoryRow) :
  reconciled names (reconciled names t) = reconciled names t.
Proof.
  set (t1 := reconciled names t).
  assert (U : upsertCategories userID names 0 t1 = t1).
  { rewrite upsertCategories_relabel
      by (intros name Hn; apply reconciled_present; exact Hn).
    erewrite map_ext_in; [apply map_id|].
    intros r Hr. unfold relabel.
    destruct (owned c_user_id userID r) eqn:O; [|reflexivity].
    apply owned_eq in O.
    rewrite (reconciled_rows names t r Hr O). apply setPosition_same. }
  unfold reconciled at 1. rewrite U. unfold deleteWhere.
  apply filter_all. intros r Hr. apply negb_true_iff.
  destruct (owned c_user_id userID r) eqn:O; [|reflexivity].
  apply owned_eq in O. cbn [andb]. apply negb_false_iff.
  apply mem_str_In. apply reconciled_In in Hr. apply Hr. exact O.
Qed.



End ReconcileClaims.




(** The scenario of the specification: Food and Travel on an empty tenant,
    then Travel, Food and Rent. *)
Example reconcile_scenario :
  updateCategoriesTable emptyDB (lit "T") [lit "Food"; lit "Travel"] =
  (Ok tt,
   mkDB [] []
     [mkCategoryRow (lit "T") (lit "Food") 1;
      mkCategoryRow (lit "T") (lit "Travel") 2] []) /\
  afterTwoReconciliations (lit "T") [lit "Food"; lit "Travel"]
    [lit "Travel"; lit "Food"; lit "Rent"] =
  (Ok tt,
   mkDB [] []
     [mkCategoryRow (lit "T") (lit "Food") 2;
      mkCategoryRow (lit "T") (lit "Travel") 1;
      mkCategoryRow (lit "T") (lit "Rent") 3] []) /\
  getCategoriesFromTable
    (snd (afterTwoReconciliations (lit "T") [lit "Food"; lit "Travel"]
            [lit "Travel"; lit "Food"; lit "Rent"])) (lit "T") =
  [lit "Travel"; lit "Food"; lit "Rent"].
Proof. repeat split; vm_compute; reflexivity. Qed.

(** ** Tenant isolation *)

(** C2.  Take two users [A] and [B], a read, update or delete request of
    [A], and two databases that hold the same rows of [A] (the rows of [B]
    and of anyone else may differ, and may carry the ids of the rows of
    [A]).  When the identifiers that the request may draw from
    [uuid.New()] are fresh, the two runs give the same response and leave
    the same rows of [A]; the rows of [B] are left as they were; and the
    response is the one obtained on the rows of [A] alone, so that it
    holds no row of [B]. *)
Theorem C2_tenant_isolation (env : environment) (A B : gostring)
    (req : request) (db1 db2 : DB) :
  A <> B ->
  viewOf A db1 = viewOf A db2 ->
  freshFor env req db1 -> freshFor env req db2 ->
  fst (serve env db1 A req) = fst (serve env db2 A req) /\
  viewOf A (snd (serve env db1 A req)) = viewOf A (snd (serve env db2 A req)) /\
  viewOf B (snd (serve env db1 A req)) = viewOf B db1 /\
  fst (serve env db1 A req) = fst (serve env (viewOf A db1) A req).
Proof.
  intros HAB Hview F1 F2.
  destruct (serve_localAt A env req db1 F1) as [P1 [P2 P3]].
  destruct (serve_localAt A env req db2 F2) as [Q1 [Q2 _]].
  split; [|split; [|split]].
  - rewrite P1, Q1, Hview. reflexivity.
  - rewrite P2, Q2, Hview. reflexivity.
  - apply P3. exact HAB.
  - exact P1.
Qed.

Lemma alice_is_not_bob : lit "alice" <> lit "bob".
Proof. intros H. vm_compute in H. discriminate H. Qed.

Lemma C2_witness :
  fst (serve february dbWithBob (lit "alice")
         (RemoveRecurringExpenseReq (lit "r1") true)) =
  fst (serve february dbAliceOnly (lit "alice")
         (RemoveRecurringExpenseReq (lit "r1") true)) /\
  viewOf (lit "bob")
    (snd (serve february dbWithBob (lit "alice")
            (RemoveRecurringExpenseReq (lit "r1") true))) =
  viewOf (lit "bob") dbWithBob.
Proof.
  destruct (C2_tenant_isolation february (lit "alice") (lit "bob")
              (RemoveRecurringExpenseReq (lit "r1") true) dbWithBob
              dbAliceOnly alice_is_not_bob eq_refl I I)
    as [H1 [_ [H3 _]]].
  split; [exact H1 | exact H3].
Defined.

(** Outside the reads, updates and deletes: an insert with an id chosen
    by the caller meets the primary key of the table, which spans all
    users.  [AddExpense] of alice with the id of an expense of bob fails,
    and succeeds on the rows of alice alone. *)
Example AddExpense_meets_primary_key :
  fst (AddExpense uuidExample (Date 2026 2 10 9 0 0 0) dbWithBob
         (lit "alice") expenseWithBobsId) = Err ConflictError /\
  fst (AddExpense uuidExample (Date 2026 2 10 9 0 0 0)
         (viewOf (lit "alice") dbWithBob) (lit "alice") expenseWithBobsId)
  = Ok tt.
Proof. split; vm_compute; reflexivity. Qed.

(** ** Examples of the materialisation claims *)






(** The update of the example, in full: the January instance stays, the
    March instance goes, and the rows of bob are untouched. *)
Example update_example :
  map (fun r => (x_id r, x_user_id r, date (x_date r)))
    (expenses
       (snd (UpdateRecurringExpense uuidExample (Date 2026 2 10 9 0 0 0)
               (Date 2026 2 10 9 0 0 1) dbWithBob (lit "alice") (lit "r1")
               ruleQuarter UTC false))) =
  [(lit "e1", lit "alice", (2026, 1, 1));
   (lit "e2", lit "bob", (2026, 3, 1));
   (lit "id-0", lit "alice", (2026, 3, 1))].
Proof. vm_compute. reflexivity. Qed.

(** * More properties of the code

    ** Validation *)

Section MoreValidation.

Variable unicodeL : rune -> bool.
Variable unicodeN : rune -> bool.

#[local] Abbreviation sanitize := (SanitizeString unicodeL unicodeN).
#[local] Abbreviation cleanTags := (cleanTags unicodeL unicodeN).
#[local] Abbreviation cleanTag := (cleanTag unicodeL unicodeN).
#[local] Abbreviation malformedExpense := (malformedExpense unicodeL unicodeN).

Lemma isEmpty_false (s : gostring) : isEmpty s = false <-> s <> [].
Proof. destruct s; simpl; split; congruence. Qed.

Lemma cleanTags_clean (tags : list gostring) :
  Forall cleanTag (cleanTags tags).
Proof.
  unfold cleanTags. induction tags as [|t tags IH]; [constructor|].
  cbn [map filter]. destruct (isEmpty (sanitize t)) eqn:E; cbn [negb].
  - exact IH.
  - constructor; [|exact IH]. split; [apply SanitizeString_idem|].
    apply isEmpty_false. exact E.
Qed.

Lemma cleanTags_fixed (tags : list gostring) :
  Forall cleanTag tags -> cleanTags tags = tags.
Proof.
  unfold cleanTags. induction 1 as [|t tags [H1 H2] _ IH]; [reflexivity|].
  cbn [map filter]. rewrite H1.
  apply isEmpty_false in H2. rewrite H2. cbn [negb]. f_equal. exact IH.
Qed.

Lemma cleanTags_idem (tags : list gostring) :
  cleanTags (cleanTags tags) = cleanTags tags.
Proof. apply cleanTags_fixed, cleanTags_clean. Qed.

(** The tags as both [Validate] methods leave them. *)
Lemma validated_tags (tags : list gostring) :
  let tags' := match tags with [] => [] | _ => cleanTags tags end in
  match tags' with [] => [] | _ => cleanTags tags' end = tags' /\
  Forall cleanTag tags'.
Proof.
  destruct tags as [|t tags]; [split; [reflexivity | constructor]|].
  cbv zeta. split; [|apply cleanTags_clean].
  destruct (cleanTags (t :: tags)) eqn:E; [reflexivity|].
  rewrite <- E. apply cleanTags_idem.
Qed.

Ltac open_Expense e :=
  destruct e as [uid flow id rid name tags category amount currency source
                 card date];
  unfold Expense_Validate;
  cbn -[SanitizeString IsZero Z.eqb cleanTags].

Lemma Expense_Validate_error (e : Expense) :
  snd (Expense_Validate unicodeL unicodeN e) = Some ValidationError \/
  snd (Expense_Validate unicodeL unicodeN e) = None.
Proof.
  open_Expense e.
  destruct (isEmpty (sanitize name)); [left; reflexivity|].
  destruct (isEmpty category); [left; reflexivity|].
  destruct (amount =? 0); [left; reflexivity|].
  destruct tags; cbn -[SanitizeString IsZero Z.eqb cleanTags];
    destruct (IsZero date); (left; reflexivity) || (right; reflexivity).
Qed.

Lemma Expense_Validate_passes (e : Expense) :
  snd (Expense_Validate unicodeL unicodeN e) = None <-> ~ malformedExpense e.
Proof.
  unfold malformedExpense. open_Expense e. unfold IsZero.
  destruct (isEmpty (sanitize name)) eqn:E1.
  { apply isEmpty_true in E1. cbn [snd]. split; [discriminate | tauto]. }
  destruct (isEmpty category) eqn:E2.
  { apply isEmpty_true in E2. cbn [snd]. split; [discriminate | tauto]. }
  apply isEmpty_false in E1, E2.
  destruct (Z.eqb_spec amount 0) as [A | A].
  { cbn [snd]. split; [discriminate | tauto]. }
  assert (G : (if date =? 0 then Some ValidationError else None) = None <->
              ~ (sanitize name = [] \/ category = [] \/ amount = 0 \/
                 date = 0)).
  { destruct (Z.eqb_spec date 0); [split; [discriminate | tauto]|].
    split; [intros _ | reflexivity]. tauto. }
  destruct tags; cbn -[SanitizeString IsZero Z.eqb cleanTags];
    (destruct (date =? 0); exact G).
Qed.

(** X1.  [Expense.Validate] reports a ValidationError exactly when the name
    is empty after sanitisation, the category is empty, the amount is
    zero or the date is the zero time; otherwise it reports no error.
    Neither the currency nor the source, the card or the tags can make
    it fail. *)
Theorem X1_Expense_Validate_rejects_exactly (e : Expense) :
  (snd (Expense_Validate unicodeL unicodeN e) = Some ValidationError <->
   malformedExpense e) /\
  (snd (Expense_Validate unicodeL unicodeN e) = None <->
   ~ malformedExpense e).
Proof.
  split; [|apply Expense_Validate_passes].
  pose proof (Expense_Validate_passes e) as P.
  destruct (Expense_Validate_error e) as [E | E]; rewrite E in *.
  - split; [intros _ | reflexivity].
    destruct P as [_ P].
    assert (D : malformedExpense e \/ ~ malformedExpense e).
    { unfold malformedExpense.
      destruct (sanitize (e_Name e)); [tauto|].
      destruct (e_Category e); [tauto|].
      destruct (Z.eq_dec (e_Amount e) 0); [tauto|].
      destruct (Z.eq_dec (e_Date e) 0); [tauto|].
      right. intros [C|[C|[C|C]]]; try discriminate; tauto. }
    destruct D as [D | D]; [exact D | specialize (P D); discriminate].
  - split; [discriminate|]. intros M. destruct P as [P _].
    exfalso. exact (P eq_refl M).
Qed.

(** X2.  Validating an expense a second time changes nothing: the expense
    that [Expense.Validate] leaves is left as it is by a second run,
    which reports the same outcome.  On an expense that passes, name,
    source and card are sanitised and every tag is sanitised and not
    empty. *)
Theorem X2_Expense_Validate_idempotent (e : Expense) :
  let e' := fst (Expense_Validate unicodeL unicodeN e) in
  Expense_Validate unicodeL unicodeN e' =
    Expense_Validate unicodeL unicodeN e /\
  (snd (Expense_Validate unicodeL unicodeN e) = None ->
   sanitize (e_Name e') = e_Name e' /\ e_Name e' <> [] /\
   sanitize (e_Source e') = e_Source e' /\
   sanitize (e_Card e') = e_Card e' /\
   Forall cleanTag (e_Tags e')).
Proof.
  open_Expense e.
  destruct (isEmpty (sanitize name)) eqn:E1.
  { cbn -[SanitizeString IsZero Z.eqb cleanTags].
    rewrite SanitizeString_idem, E1. split; [reflexivity | discriminate]. }
  destruct (isEmpty category) eqn:E2.
  { cbn -[SanitizeString IsZero Z.eqb cleanTags].
    rewrite SanitizeString_idem, E1, E2. split; [reflexivity | discriminate]. }
  destruct (amount =? 0) eqn:E3.
  { cbn -[SanitizeString IsZero Z.eqb cleanTags].
    rewrite SanitizeString_idem, E1, E2, E3.
    split; [reflexivity | discriminate]. }
  assert (N : sanitize name <> []) by (apply isEmpty_false; exact E1).
  destruct tags as [|t ts].
  - cbn -[SanitizeString IsZero Z.eqb cleanTags].
    destruct (IsZero date) eqn:E4;
      cbn -[SanitizeString IsZero Z.eqb cleanTags];
      rewrite !SanitizeString_idem, E1, E2, E3, E4;
      (split; [reflexivity|]); [discriminate|].
    intros _. repeat split; try apply SanitizeString_idem; try exact N.
    constructor.
  - pose proof (cleanTags_idem (t :: ts)) as I.
    pose proof (cleanTags_clean (t :: ts)) as C.
    cbn -[SanitizeString IsZero Z.eqb cleanTags].
    destruct (cleanTags (t :: ts)) as [|c cs] eqn:EC;
      destruct (IsZero date) eqn:E4;
      cbn -[SanitizeString IsZero Z.eqb cleanTags];
      rewrite !SanitizeString_idem, E1, E2, E3, E4, ?I;
      (split; [reflexivity|]); try discriminate;
      intros _; repeat split; try apply SanitizeString_idem;
      try exact N; exact C.
Qed.

(** X3.  Validating a recurring rule a second time changes nothing: the rule
    that [RecurringExpense.Validate] leaves is left as it is by a second
    run, which reports the same outcome.  On a rule that passes, the
    name is sanitised and not empty and every tag is sanitised and not
    empty. *)
Theorem X3_Validate_idempotent (e : RecurringExpense) :
  let e' := fst (Validate unicodeL unicodeN e) in
  Validate unicodeL unicodeN e' = Validate unicodeL unicodeN e /\
  (snd (Validate unicodeL unicodeN e) = None ->
   sanitize (re_Name e') = re_Name e' /\ re_Name e' <> [] /\
   Forall cleanTag (re_Tags e')).
Proof.
  destruct e as [uid flow id name amount currency tags category start
                 interval occurrences].
  unfold Validate. cbn -[SanitizeString validIntervals IsZero Z.ltb cleanTags].
  destruct (isEmpty (sanitize name)) eqn:E1.
  { cbn -[SanitizeString validIntervals IsZero Z.ltb cleanTags].
    rewrite SanitizeString_idem, E1. split; [reflexivity | discriminate]. }
  destruct (isEmpty category) eqn:E2.
  { cbn -[SanitizeString validIntervals IsZero Z.ltb cleanTags].
    rewrite SanitizeString_idem, E1, E2. split; [reflexivity | discriminate]. }
  assert (N : sanitize name <> []) by (apply isEmpty_false; exact E1).
  destruct tags as [|t ts].
  - cbn -[SanitizeString validIntervals IsZero Z.ltb cleanTags].
    destruct (occurrences <? 2) eqn:E3;
      [|destruct (IsZero start) eqn:E4;
        [|destruct (negb (validIntervals interval)) eqn:E5]];
      cbn -[SanitizeString validIntervals IsZero Z.ltb cleanTags];
      rewrite !SanitizeString_idem, E1, E2;
      cbn -[SanitizeString validIntervals IsZero Z.ltb cleanTags];
      rewrite ?E3, ?E4, ?E5;
      (split; [reflexivity|]); try discriminate.
    intros _. repeat split; try apply SanitizeString_idem; try exact N.
    constructor.
  - pose proof (cleanTags_idem (t :: ts)) as I.
    pose proof (cleanTags_clean (t :: ts)) as C.
    cbn -[SanitizeString validIntervals IsZero Z.ltb cleanTags].
    destruct (cleanTags (t :: ts)) as [|c cs] eqn:EC;
      (destruct (occurrences <? 2) eqn:E3;
       [|destruct (IsZero start) eqn:E4;
         [|destruct (negb (validIntervals interval)) eqn:E5]]);
      cbn -[SanitizeString validIntervals IsZero Z.ltb cleanTags];
      rewrite !SanitizeString_idem, E1, E2;
      cbn -[SanitizeString validIntervals IsZero Z.ltb cleanTags];
      rewrite ?I, ?E3, ?E4, ?E5;
      (split; [reflexivity|]); try discriminate;
      intros _; repeat split; try apply SanitizeString_idem;
      try exact N; exact C.
Qed.

Lemma ValidateCategory_Some (category s : gostring) :
  ValidateCategory unicodeL unicodeN category = Some s <->
  s = sanitize category /\ s <> [].
Proof.
  unfold ValidateCategory. cbv zeta.
  destruct (sanitize category) as [|r t].
  - split; [discriminate | intros [-> C]; congruence].
  - split.
    + intros H. injection H as <-. split; [reflexivity | discriminate].
    + intros [-> _]. reflexivity.
Qed.


End MoreValidation.


(** ** The storage backend *)

Lemma backendSSLFromEnv_mode (env : gostring) :
  In (backendSSLFromEnv env) sslModes.
Proof.
  unfold backendSSLFromEnv, sslModes.
  destruct (str_eqb env (lit "disable")) eqn:E1;
    [apply str_eqb_eq in E1; rewrite E1; cbn [orb In]; tauto|].
  destruct (str_eqb env (lit "require")) eqn:E2;
    [apply str_eqb_eq in E2; rewrite E2; cbn [orb In]; tauto|].
  destruct (str_eqb env (lit "verify-full")) eqn:E3;
    [apply str_eqb_eq in E3; rewrite E3; cbn [orb In]; tauto|].
  destruct (str_eqb env (lit "verify-ca")) eqn:E4;
    [apply str_eqb_eq in E4; rewrite E4; cbn [orb In]; tauto|].
  cbn [orb In]. tauto.
Qed.

Section Backend.

Context {Connection : Type}.
Variable connect : SystemConfig -> Connection.

(** X5.  [InitializeStorage] reaches PostgreSQL exactly when STORAGE_TYPE is
    postgres and STORAGE_URL, STORAGE_USER and STORAGE_PASS are not
    empty; the configuration it connects with carries these values, and
    as sslmode the value of STORAGE_SSL if it is one of disable,
    require, verify-full and verify-ca, and disable otherwise.  The
    error for an unsupported type is raised for json only: every other
    value is read as a missing type. *)
Theorem X5_InitializeStorage_connects_exactly
    (getenv : gostring -> gostring) :
  (forall c,
     InitializeStorage connect getenv = inr c <->
     getenv (lit "STORAGE_TYPE") = lit "postgres" /\
     getenv (lit "STORAGE_URL") <> [] /\
     getenv (lit "STORAGE_USER") <> [] /\
     getenv (lit "STORAGE_PASS") <> [] /\
     c = connect
           (mkSystemConfig (getenv (lit "STORAGE_URL")) (lit "postgres")
              (getenv (lit "STORAGE_USER")) (getenv (lit "STORAGE_PASS"))
              (backendSSLFromEnv (getenv (lit "STORAGE_SSL"))))) /\
  In (StorageSSL (SetStorageConfig getenv)) sslModes /\
  (backendSSLFromEnv (getenv (lit "STORAGE_SSL")) <>
     getenv (lit "STORAGE_SSL") ->
   StorageSSL (SetStorageConfig getenv) = lit "disable") /\
  (forall t,
     InitializeStorage connect getenv = inl (UnsupportedStorageType t) <->
     getenv (lit "STORAGE_TYPE") = lit "json" /\ t = lit "json") /\
  (InitializeStorage connect getenv = inl MissingStorageType <->
   getenv (lit "STORAGE_TYPE") <> lit "json" /\
   getenv (lit "STORAGE_TYPE") <> lit "postgres").
Proof.
  unfold InitializeStorage, SetStorageConfig, backendTypeFromEnv,
    backendURLFromEnv.
  cbn [StorageType StorageURL StorageUser StoragePass StorageSSL].
  split; [|split; [apply backendSSLFromEnv_mode|split; [|split]]].
  - intros c.
    destruct (str_eqb (getenv (lit "STORAGE_TYPE")) (lit "json")) eqn:E1.
    { apply str_eqb_eq in E1. rewrite E1.
      split; [discriminate | intros [C _]; discriminate C]. }
    destruct (str_eqb (getenv (lit "STORAGE_TYPE")) (lit "postgres")) eqn:E2.
    2:{ apply str_eqb_neq in E2. cbn [isEmpty].
        split; [discriminate | intros [C _]; contradiction]. }
    apply str_eqb_eq in E2.
    change (isEmpty BackendTypePostgres) with false.
    rewrite str_eqb_refl. cbn [negb].
    destruct (getenv (lit "STORAGE_URL")) as [|u1 u] eqn:U; cbn [isEmpty];
      [split; [discriminate | intros [_ [C _]]; congruence]|].
    destruct (getenv (lit "STORAGE_USER")) as [|n1 n] eqn:N; cbn [isEmpty];
      [split; [discriminate | intros [_ [_ [C _]]]; congruence]|].
    destruct (getenv (lit "STORAGE_PASS")) as [|p1 p] eqn:P; cbn [isEmpty];
      [split; [discriminate | intros [_ [_ [_ [C _]]]]; congruence]|].
    split.
    + intros H. injection H as <-.
      repeat split; try discriminate; try exact E2.
    + intros [_ [_ [_ [_ ->]]]]. reflexivity.
  - unfold backendSSLFromEnv.
    destruct (str_eqb (getenv (lit "STORAGE_SSL")) (lit "disable") ||
              str_eqb (getenv (lit "STORAGE_SSL")) (lit "require") ||
              str_eqb (getenv (lit "STORAGE_SSL")) (lit "verify-full") ||
              str_eqb (getenv (lit "STORAGE_SSL")) (lit "verify-ca"));
      [intros C; congruence | reflexivity].
  - intros t.
    destruct (str_eqb (getenv (lit "STORAGE_TYPE")) (lit "json")) eqn:E1.
    { apply str_eqb_eq in E1.
      change (isEmpty BackendTypeJSON) with false.
      change (str_eqb BackendTypeJSON BackendTypePostgres) with false.
      cbn [negb]. split.
      - intros H. injection H as <-. split; [exact E1 | reflexivity].
      - intros [_ ->]. reflexivity. }
    apply str_eqb_neq in E1.
    destruct (str_eqb (getenv (lit "STORAGE_TYPE")) (lit "postgres")) eqn:E2.
    2:{ cbn [isEmpty]. split; [discriminate | intros [C _]; contradiction]. }
    change (isEmpty BackendTypePostgres) with false.
    rewrite str_eqb_refl. cbn [negb].
    split; [|intros [C _]; contradiction].
    destruct (isEmpty (getenv (lit "STORAGE_URL"))); [discriminate|].
    destruct (isEmpty (getenv (lit "STORAGE_USER"))); [discriminate|].
    destruct (isEmpty (getenv (lit "STORAGE_PASS"))); discriminate.
  - destruct (str_eqb (getenv (lit "STORAGE_TYPE")) (lit "json")) eqn:E1.
    { apply str_eqb_eq in E1.
      change (isEmpty BackendTypeJSON) with false.
      change (str_eqb BackendTypeJSON BackendTypePostgres) with false.
      cbn [negb]. split; [discriminate | intros [C _]; contradiction]. }
    apply str_eqb_neq in E1.
    destruct (str_eqb (getenv (lit "STORAGE_TYPE")) (lit "postgres")) eqn:E2.
    2:{ apply str_eqb_neq in E2. cbn [isEmpty]. tauto. }
    apply str_eqb_eq in E2.
    change (isEmpty BackendTypePostgres) with false.
    rewrite str_eqb_refl. cbn [negb].
    split; [|intros [_ C]; contradiction].
    destruct (isEmpty (getenv (lit "STORAGE_URL"))); [discriminate|].
    destruct (isEmpty (getenv (lit "STORAGE_USER"))); [discriminate|].
    destruct (isEmpty (getenv (lit "STORAGE_PASS"))); discriminate.
Qed.

End Backend.

(** ** The configuration of a user *)

Lemma select_app_own {row : Type} (user : row -> gostring)
    (userID : gostring) (t : list row) (r : row) :
  user r = userID ->
  selectWhere user userID any (t ++ [r]) =
  selectWhere user userID any t ++ [r].
Proof.
  intros H. rewrite select_app. f_equal. unfold selectWhere, owned.
  cbn [filter]. rewrite H, str_eqb_refl. reflexivity.
Qed.

Section ConfigFacts.

Variable userID : gostring.

#[local] Abbreviation configOf := (selectWhere u_user_id userID any).
#[local] Abbreviation defaultRow := (mkUserConfigRow userID (lit "usd") 1).

Lemma getOrCreateUserConfig_cases (db : DB) :
  (configOf (user_config db) = [] /\
   getOrCreateUserConfig db userID =
   (lit "usd", 1, with_user_config db (user_config db ++ [defaultRow]))) \/
  (exists r rest,
     configOf (user_config db) = r :: rest /\
     getOrCreateUserConfig db userID = (u_currency r, u_start_date r, db)).
Proof.
  unfold getOrCreateUserConfig.
  destruct (configOf (user_config db)) as [|r rest] eqn:E.
  - left. split; reflexivity.
  - right. exists r, rest. split; reflexivity.
Qed.

(** Once read, the configuration is there: a second read returns the
    same values and writes nothing. *)
Lemma getOrCreateUserConfig_settles (db : DB) :
  getOrCreateUserConfig (snd (getOrCreateUserConfig db userID)) userID =
  (fst (getOrCreateUserConfig db userID),
   snd (getOrCreateUserConfig db userID)).
Proof.
  destruct (getOrCreateUserConfig_cases db) as [[E ->] | [r [rest [E ->]]]];
    cbn [fst snd].
  - unfold getOrCreateUserConfig at 1. cbn [user_config with_user_config].
    rewrite select_app_own by reflexivity. rewrite E. reflexivity.
  - unfold getOrCreateUserConfig. rewrite E. reflexivity.
Qed.

(** X6.  A user who has no configuration row reads the currency usd and the
    start date 1, and the read stores a row with them.  A second read of
    either value, by [GetCurrency] or [GetStartDate], returns what the
    first returned and leaves the database as the first left it; a user
    who has a row is only read. *)
Theorem X6_configuration_is_created_once (db : DB) :
  let db1 := snd (GetCurrency db userID) in
  GetCurrency db1 userID = (fst (GetCurrency db userID), db1) /\
  GetStartDate db1 userID = (fst (GetStartDate db userID), db1) /\
  snd (GetStartDate db userID) = db1 /\
  (configOf (user_config db) = [] ->
   fst (GetCurrency db userID) = lit "usd" /\
   fst (GetStartDate db userID) = 1 /\
   db1 = with_user_config db (user_config db ++ [defaultRow])) /\
  (configOf (user_config db) <> [] -> db1 = db).
Proof.
  pose proof (getOrCreateUserConfig_settles db) as S.
  unfold GetCurrency, GetStartDate.
  destruct (getOrCreateUserConfig_cases db) as [[E G] | [r [rest [E G]]]];
    rewrite G in *; cbn [fst snd] in *; rewrite S;
    (split; [reflexivity|]); (split; [reflexivity|]);
    (split; [reflexivity|]); split; intros H; try congruence; auto.
Qed.

(** SET currency and SET start_date. *)
Lemma upsertUserConfig_present (new : userConfigRow)
    (set : userConfigRow -> userConfigRow) (t : list userConfigRow) :
  configOf t <> [] ->
  upsertUserConfig userID new set t = updateWhere u_user_id userID any set t.
Proof.
  intros H. unfold upsertUserConfig.
  destruct (configOf t); [contradiction | reflexivity].
Qed.

Lemma configOf_settled (db : DB) :
  configOf (user_config (snd (getOrCreateUserConfig db userID))) <> [].
Proof.
  destruct (getOrCreateUserConfig_cases db) as [[E ->] | [r [rest [E ->]]]];
    cbn [snd user_config with_user_config].
  - rewrite select_app_own by reflexivity.
    intros C. apply app_eq_nil in C. destruct C as [_ C]. discriminate C.
  - rewrite E. discriminate.
Qed.

Lemma configOf_update (set : userConfigRow -> userConfigRow)
    (t : list userConfigRow) :
  (forall r, u_user_id (set r) = u_user_id r) ->
  configOf (updateWhere u_user_id userID any set t) = map set (configOf t).
Proof.
  intros H. unfold selectWhere, updateWhere, any.
  induction t as [|r t IH]; [reflexivity|].
  cbn [map filter]. rewrite !andb_true_r.
  destruct (owned u_user_id userID r) eqn:O.
  - assert (O' : owned u_user_id userID (set r) = true).
    { unfold owned in *. rewrite H. exact O. }
    rewrite O'. cbn [map]. f_equal. exact IH.
  - rewrite O. exact IH.
Qed.

Lemma getOrCreateUserConfig_read (db : DB) (r : userConfigRow)
    (rest : list userConfigRow) :
  configOf (user_config db) = r :: rest ->
  getOrCreateUserConfig db userID = (u_currency r, u_start_date r, db).
Proof. intros E. unfold getOrCreateUserConfig. rewrite E. reflexivity. Qed.

Lemma getOrCreateUserConfig_first (db : DB) (r : userConfigRow)
    (rest : list userConfigRow) :
  configOf (user_config (snd (getOrCreateUserConfig db userID))) = r :: rest ->
  fst (getOrCreateUserConfig db userID) = (u_currency r, u_start_date r).
Proof.
  intros E. pose proof (getOrCreateUserConfig_settles db) as S.
  rewrite (getOrCreateUserConfig_read _ r rest E) in S.
  injection S as S1. symmetry. exact S1.
Qed.

Lemma getOrCreateUserConfig_updated (db : DB)
    (set : userConfigRow -> userConfigRow) (r : userConfigRow)
    (rest : list userConfigRow) :
  (forall r, u_user_id (set r) = u_user_id r) ->
  configOf (user_config db) = r :: rest ->
  let db' :=
    with_user_config db
      (updateWhere u_user_id userID any set (user_config db)) in
  getOrCreateUserConfig db' userID =
  (u_currency (set r), u_start_date (set r), db').
Proof.
  intros H E db'. apply (getOrCreateUserConfig_read db' _ (map set rest)).
  unfold db'. cbn [user_config with_user_config].
  rewrite configOf_update by exact H. rewrite E. reflexivity.
Qed.

(** X7.  [UpdateCurrency] rejects exactly a currency other than ars, usd and
    eur, and then leaves the database as it is.  After it has accepted a
    currency, [GetCurrency] returns that currency, [GetStartDate] returns
    what it returned before, and neither writes; the three tables of the
    data are untouched. *)
Theorem X7_UpdateCurrency_round_trip (db : DB) (currency : gostring) :
  (~ In currency SupportedCurrencies ->
   UpdateCurrency db userID currency = (Err ValidationError, db)) /\
  (In currency SupportedCurrencies ->
   exists db',
     UpdateCurrency db userID currency = (Ok tt, db') /\
     GetCurrency db' userID = (currency, db') /\
     GetStartDate db' userID = (fst (GetStartDate db userID), db') /\
     expenses db' = expenses db /\
     recurring_expenses db' = recurring_expenses db /\
     categories db' = categories db).
Proof.
  unfold UpdateCurrency. split; intros H.
  - apply mem_str_false in H. rewrite H. reflexivity.
  - apply mem_str_In in H. rewrite H. cbn [negb].
    pose proof (configOf_settled db) as P.
    pose proof (getOrCreateUserConfig_tables db userID) as T.
    pose proof (getOrCreateUserConfig_first db) as F.
    cbv zeta in T. unfold GetStartDate at 2.
    destruct (getOrCreateUserConfig db userID) as [[c d] db1].
    cbn [fst snd] in *. rewrite upsertUserConfig_present by exact P.
    eexists. split; [reflexivity|].
    destruct (configOf (user_config db1)) as [|r rest] eqn:E;
      [contradiction|].
    specialize (F r rest eq_refl). injection F as -> ->.
    unfold GetCurrency, GetStartDate.
    rewrite (getOrCreateUserConfig_updated db1 _ r rest)
      by (reflexivity || exact E).
    cbn [u_currency u_start_date expenses recurring_expenses categories
         with_user_config].
    repeat split; apply T.
Qed.

(** X8.  [UpdateStartDate] rejects exactly a day outside 1..31, and then
    leaves the database as it is.  After it has accepted a day,
    [GetStartDate] returns that day, [GetCurrency] returns what it
    returned before, and neither writes; the three tables of the data are
    untouched. *)
Theorem X8_UpdateStartDate_round_trip (db : DB) (startDate : Z) :
  (~ 1 <= startDate <= 31 ->
   UpdateStartDate db userID startDate = (Err ValidationError, db)) /\
  (1 <= startDate <= 31 ->
   exists db',
     UpdateStartDate db userID startDate = (Ok tt, db') /\
     GetStartDate db' userID = (startDate, db') /\
     GetCurrency db' userID = (fst (GetCurrency db userID), db') /\
     expenses db' = expenses db /\
     recurring_expenses db' = recurring_expenses db /\
     categories db' = categories db).
Proof.
  unfold UpdateStartDate. split; intros H.
  - assert (B : (startDate <? 1) || (31 <? startDate) = true).
    { apply orb_true_iff.
      destruct (Z.ltb_spec startDate 1); [left; reflexivity|].
      destruct (Z.ltb_spec 31 startDate); [right; reflexivity|]. lia. }
    rewrite B. reflexivity.
  - assert (B : (startDate <? 1) || (31 <? startDate) = false).
    { apply orb_false_iff. split; apply Z.ltb_ge; lia. }
    rewrite B.
    pose proof (configOf_settled db) as P.
    pose proof (getOrCreateUserConfig_tables db userID) as T.
    pose proof (getOrCreateUserConfig_first db) as F.
    cbv zeta in T. unfold GetCurrency at 2.
    destruct (getOrCreateUserConfig db userID) as [[c d] db1].
    cbn [fst snd] in *. rewrite upsertUserConfig_present by exact P.
    eexists. split; [reflexivity|].
    destruct (configOf (user_config db1)) as [|r rest] eqn:E;
      [contradiction|].
    specialize (F r rest eq_refl). injection F as -> ->.
    unfold GetCurrency, GetStartDate.
    rewrite (getOrCreateUserConfig_updated db1 _ r rest)
      by (reflexivity || exact E).
    cbn [u_currency u_start_date expenses recurring_expenses categories
         with_user_config].
    repeat split; apply T.
Qed.

Lemma UpdateCurrency_ok (db : DB) (currency : gostring) :
  In currency SupportedCurrencies ->
  let db1 := snd (getOrCreateUserConfig db userID) in
  UpdateCurrency db userID currency =
  (Ok tt,
   with_user_config db1
     (updateWhere u_user_id userID any
        (fun r => mkUserConfigRow (u_user_id r) currency (u_start_date r))
        (user_config db1))).
Proof.
  intros H db1. unfold UpdateCurrency.
  apply mem_str_In in H. rewrite H. cbn [negb].
  pose proof (configOf_settled db) as P. fold db1 in P. subst db1.
  destruct (getOrCreateUserConfig db userID) as [[c d] db1].
  cbn [snd] in *. rewrite upsertUserConfig_present by exact P. reflexivity.
Qed.

Lemma UpdateStartDate_ok (db : DB) (startDate : Z) :
  1 <= startDate <= 31 ->
  let db1 := snd (getOrCreateUserConfig db userID) in
  UpdateStartDate db userID startDate =
  (Ok tt,
   with_user_config db1
     (updateWhere u_user_id userID any
        (fun r => mkUserConfigRow (u_user_id r) (u_currency r) startDate)
        (user_config db1))).
Proof.
  intros H db1. unfold UpdateStartDate.
  assert (B : (startDate <? 1) || (31 <? startDate) = false).
  { apply orb_false_iff. split; apply Z.ltb_ge; lia. }
  rewrite B.
  pose proof (configOf_settled db) as P. fold db1 in P. subst db1.
  destruct (getOrCreateUserConfig db userID) as [[c d] db1].
  cbn [snd] in *. rewrite upsertUserConfig_present by exact P. reflexivity.
Qed.

Lemma getOrCreateUserConfig_snd_updated (db : DB)
    (set : userConfigRow -> userConfigRow) :
  (forall r, u_user_id (set r) = u_user_id r) ->
  configOf (user_config db) <> [] ->
  let db' :=
    with_user_config db
      (updateWhere u_user_id userID any set (user_config db)) in
  snd (getOrCreateUserConfig db' userID) = db'.
Proof.
  intros H P db'.
  destruct (configOf (user_config db)) as [|r rest] eqn:E; [contradiction|].
  unfold db'. rewrite (getOrCreateUserConfig_updated db set r rest H E).
  reflexivity.
Qed.

(** X9.  Setting the currency and setting the start date commute: both
    orders succeed and leave the same database, also for a user who had
    no configuration row. *)
Theorem X9_currency_and_start_date_commute (db : DB) (currency : gostring)
    (startDate : Z) :
  In currency SupportedCurrencies -> 1 <= startDate <= 31 ->
  UpdateStartDate (snd (UpdateCurrency db userID currency)) userID startDate
  = UpdateCurrency (snd (UpdateStartDate db userID startDate)) userID currency
  /\ fst (UpdateCurrency (snd (UpdateStartDate db userID startDate)) userID
            currency) = Ok tt.
Proof.
  intros Hc Hd.
  pose proof (configOf_settled db) as P.
  rewrite (UpdateCurrency_ok db currency Hc).
  rewrite (UpdateStartDate_ok db startDate Hd). cbn [snd].
  rewrite UpdateStartDate_ok by exact Hd.
  rewrite UpdateCurrency_ok by exact Hc. cbv zeta.
  rewrite !getOrCreateUserConfig_snd_updated by (reflexivity || exact P).
  cbn [fst user_config with_user_config expenses recurring_expenses
       categories].
  split; [|reflexivity]. unfold with_user_config.
  cbn [user_config expenses recurring_expenses categories]. f_equal. f_equal.
  unfold updateWhere. rewrite !map_map. apply map_ext. intros r.
  unfold any, owned. rewrite !andb_true_r.
  destruct (str_eqb (u_user_id r) userID) eqn:O; cbn [u_user_id];
    rewrite O; reflexivity.
Qed.

End ConfigFacts.

Lemma X7_witness :
  GetCurrency (snd (UpdateCurrency dbWithBob (lit "alice") (lit "ars")))
    (lit "alice") =
  (lit "ars", snd (UpdateCurrency dbWithBob (lit "alice") (lit "ars"))).
Proof.
  destruct (X7_UpdateCurrency_round_trip (lit "alice") dbWithBob (lit "ars"))
    as [_ H].
  destruct H as [db' [E [G _]]]; [cbn; tauto|].
  rewrite E. exact G.
Defined.

Lemma X8_witness :
  GetStartDate (snd (UpdateStartDate dbWithBob (lit "bob") 15)) (lit "bob") =
  (15, snd (UpdateStartDate dbWithBob (lit "bob") 15)).
Proof.
  destruct (X8_UpdateStartDate_round_trip (lit "bob") dbWithBob 15)
    as [_ H].
  destruct H as [db' [E [G _]]]; [lia|].
  rewrite E. exact G.
Defined.

Lemma X9_witness :
  UpdateStartDate (snd (UpdateCurrency dbWithBob (lit "alice") (lit "eur")))
    (lit "alice") 5 =
  UpdateCurrency (snd (UpdateStartDate dbWithBob (lit "alice") 5))
    (lit "alice") (lit "eur").
Proof.
  apply (X9_currency_and_start_date_commute (lit "alice") dbWithBob
           (lit "eur") 5); [cbn; tauto | lia].
Defined.

(** ** ORDER BY *)

Section SortFacts.

Context {A : Type}.
Variable before : A -> A -> bool.

Hypothesis before_total : forall a b, before a b = false -> before b a = true.
Hypothesis before_trans :
  forall a b c, before a b = true -> before b c = true -> before a c = true.

#[local] Abbreviation inOrder := (fun a b : A => before a b = true).

Lemma insertBy_perm (x : A) (l : list A) :
  Permutation (insertBy before x l) (x :: l).
Proof.
  induction l as [|y l IH]; [apply Permutation_refl|].
  cbn [insertBy]. destruct (before x y); [apply Permutation_refl|].
  apply perm_trans with (y :: x :: l); [|apply perm_swap].
  apply perm_skip. exact IH.
Qed.

Lemma sortBy_perm (l : list A) : Permutation (sortBy before l) l.
Proof.
  unfold sortBy. induction l as [|x l IH]; [apply perm_nil|].
  cbn [fold_right].
  apply perm_trans with (x :: fold_right (insertBy before) [] l).
  - apply insertBy_perm.
  - apply perm_skip. exact IH.
Qed.

Lemma insertBy_sorted (x : A) (l : list A) :
  StronglySorted inOrder l -> StronglySorted inOrder (insertBy before x l).
Proof.
  induction 1 as [|y l S IH F]; [repeat constructor|].
  cbn [insertBy]. destruct (before x y) eqn:B.
  - constructor; [constructor; assumption|].
    constructor; [exact B|].
    eapply Forall_impl; [|exact F]. cbv beta. intros z Hz.
    exact (before_trans x y z B Hz).
  - constructor; [exact IH|].
    eapply Permutation_Forall.
    + apply Permutation_sym, insertBy_perm.
    + constructor; [apply before_total; exact B | exact F].
Qed.

Lemma sortBy_sorted (l : list A) : StronglySorted inOrder (sortBy before l).
Proof.
  unfold sortBy. induction l as [|x l IH]; [constructor|].
  cbn [fold_right]. apply insertBy_sorted. exact IH.
Qed.

(** A list in order is left as it is. *)
Lemma sortBy_fixed (l : list A) :
  StronglySorted inOrder l -> sortBy before l = l.
Proof.
  unfold sortBy. induction 1 as [|x l S IH F]; [reflexivity|].
  cbn [fold_right]. rewrite IH.
  destruct l as [|y l]; [reflexivity|].
  cbn [insertBy]. apply Forall_inv in F. rewrite F. reflexivity.
Qed.

End SortFacts.

(** ** Expenses *)

Lemma StronglySorted_map {A B : Type} (f : A -> B) (R : B -> B -> Prop)
    (l : list A) :
  StronglySorted (fun a b => R (f a) (f b)) l -> StronglySorted R (map f l).
Proof.
  induction 1 as [|x l S IH F]; [constructor|].
  cbn [map]. constructor; [exact IH|].
  apply Forall_map. exact F.
Qed.

Lemma StronglySorted_weaken {A : Type} (R R' : A -> A -> Prop) (l : list A) :
  (forall a b, R a b -> R' a b) ->
  StronglySorted R l -> StronglySorted R' l.
Proof.
  intros H. induction 1 as [|x l S IH F]; [constructor|].
  constructor; [exact IH|].
  eapply Forall_impl; [|exact F]. apply H.
Qed.

Lemma NoDup_map_same {A B : Type} (f : A -> B) (l : list A) (a b : A) :
  NoDup (map f l) -> In a l -> In b l -> f a = f b -> a = b.
Proof.
  induction l as [|x l IH]; [contradiction|].
  cbn [map]. intros N Ha Hb E. apply NoDup_cons_iff in N.
  destruct N as [N1 N2]. destruct Ha as [-> | Ha], Hb as [-> | Hb].
  - reflexivity.
  - exfalso. apply N1. rewrite E. apply in_map. exact Hb.
  - exfalso. apply N1. rewrite <- E. apply in_map. exact Ha.
  - exact (IH N2 Ha Hb E).
Qed.

Lemma with_expenses_same (db : DB) : with_expenses db (expenses db) = db.
Proof. destruct db; reflexivity. Qed.

Section ExpenseFacts.

Variable userID : gostring.

#[local] Abbreviation expenseOf id :=
  (selectWhere x_user_id userID (hasID id)).

Lemma hasID_true (id : gostring) (r : expenseRow) :
  hasID id r = true <-> x_id r = id.
Proof. unfold hasID. apply str_eqb_eq. Qed.

Lemma select_In {row : Type} (user : row -> gostring) (u : gostring)
    (cond : row -> bool) (t : list row) (r : row) :
  In r (selectWhere user u cond t) <->
  In r t /\ user r = u /\ cond r = true.
Proof.
  unfold selectWhere. rewrite filter_In, andb_true_iff.
  unfold owned. rewrite str_eqb_eq. reflexivity.
Qed.

Lemma GetExpense_cases (db : DB) (id : gostring) :
  (expenseOf id (expenses db) = [] /\
   GetExpense db userID id = Err NotFoundError) \/
  (exists r rest,
     expenseOf id (expenses db) = r :: rest /\
     GetExpense db userID id = Ok (scanExpense r)).
Proof.
  unfold GetExpense. destruct (expenseOf id (expenses db)) as [|r rest].
  - left. split; reflexivity.
  - right. exists r, rest. split; reflexivity.
Qed.

Lemma GetExpense_missing (db : DB) (id : gostring) :
  GetExpense db userID id = Err NotFoundError <->
  expenseOf id (expenses db) = [].
Proof.
  destruct (GetExpense_cases db id) as [[E ->] | [r [rest [E ->]]]];
    rewrite E; split; congruence.
Qed.

(** X10.  [GetAllExpenses] lists the expenses of the user, each once, latest
    first.  An expense that [GetExpense] finds is on the list; when the
    ids of the table are distinct, as the primary key has them, every
    expense on the list is the one that [GetExpense] finds under its
    id. *)
Theorem X10_GetAllExpenses_latest_first (db : DB) :
  StronglySorted (fun a b => e_Date b <= e_Date a)
    (GetAllExpenses db userID) /\
  Permutation (GetAllExpenses db userID)
    (map scanExpense (rowsOf x_user_id userID (expenses db))) /\
  (forall id e,
     GetExpense db userID id = Ok e -> In e (GetAllExpenses db userID)) /\
  (NoDup (map x_id (expenses db)) ->
   forall e, In e (GetAllExpenses db userID) ->
             GetExpense db userID (e_ID e) = Ok e).
Proof.
  unfold GetAllExpenses.
  set (before := fun a b : expenseRow => x_date b <=? x_date a).
  assert (P : Permutation
                (sortBy before (selectWhere x_user_id userID any (expenses db)))
                (rowsOf x_user_id userID (expenses db)))
    by apply sortBy_perm.
  split; [|split; [|split]].
  - apply StronglySorted_map. cbn [scanExpense e_Date].
    eapply StronglySorted_weaken; [|apply (sortBy_sorted before)].
    + unfold before. intros a b H. apply Z.leb_le. exact H.
    + unfold before. intros a b H. apply Z.leb_gt in H. apply Z.leb_le. lia.
    + unfold before. intros a b c H1 H2.
      apply Z.leb_le in H1, H2. apply Z.leb_le. lia.
  - apply Permutation_map. exact P.
  - intros id e H.
    destruct (GetExpense_cases db id) as [[E G] | [r [rest [E G]]]];
      rewrite G in H; [discriminate|].
    injection H as <-. apply in_map.
    apply (Permutation_in _ (Permutation_sym P)).
    assert (I : In r (expenseOf id (expenses db)))
      by (rewrite E; left; reflexivity).
    apply select_In in I. apply select_In. tauto.
  - intros N e H. apply in_map_iff in H. destruct H as [r [<- H]].
    apply (Permutation_in _ P) in H. apply select_In in H.
    destruct H as [H1 [H2 _]]. cbn [scanExpense e_ID].
    destruct (GetExpense_cases db (x_id r)) as [[E G] | [r' [rest [E G]]]].
    + exfalso.
      assert (I : In r (expenseOf (x_id r) (expenses db))).
      { apply select_In. split; [exact H1|]. split; [exact H2|].
        apply hasID_true. reflexivity. }
      rewrite E in I. exact I.
    + rewrite G. f_equal. f_equal.
      assert (I : In r' (expenseOf (x_id r) (expenses db)))
        by (rewrite E; left; reflexivity).
      apply select_In in I. destruct I as [I1 [_ I3]].
      apply hasID_true in I3.
      exact (NoDup_map_same x_id (expenses db) r' r N I1 H1 I3).
Qed.

Lemma insertRows_one {row : Type} (key : row -> gostring) (r : row)
    (t : list row) :
  insertRows key [r] t =
  if mem_str (key r) (map key t) then None else Some (t ++ [r]).
Proof. reflexivity. Qed.

Lemma expenseOf_free (id : gostring) (t : list expenseRow) :
  ~ In id (map x_id t) -> expenseOf id t = [].
Proof.
  intros H. apply filter_none. intros r Hr.
  apply andb_false_iff. right. apply not_true_is_false. intros C.
  apply hasID_true in C. apply H. rewrite <- C. apply in_map. exact Hr.
Qed.

(** What [AddExpense] does, by what the columns make of the expense and
    by the id that it is stored under. *)
Lemma AddExpense_cases (uuid : nat -> gostring) (now : Time) (db : DB)
    (expense : Expense) :
  let currency := fst (defaultCurrency db userID (e_Currency expense)) in
  let db1 := snd (defaultCurrency db userID (e_Currency expense)) in
  let prepared := preparedExpense uuid now currency expense in
  AddExpense uuid now db userID expense =
  match
    match varchar 36 (e_ID prepared) with
    | Some id =>
        match expenseColumns prepared with
        | Some stored => Some (set_e_ID stored id)
        | None => None
        end
    | None => None
    end
  with
  | None => (Err DataError, db1)
  | Some stored =>
      if mem_str (e_ID stored) (map x_id (expenses db))
      then (Err ConflictError, db1)
      else
        (Ok tt,
         with_expenses db1 (expenses db ++ [expenseRowOf userID stored]))
  end.
Proof.
  cbv zeta. unfold AddExpense.
  pose proof (defaultCurrency_tables db userID
                (e_Currency (if isEmpty (e_ID expense)
                             then set_e_ID expense (uuid 0%nat)
                             else expense))) as [T _].
  assert (C : e_Currency (if isEmpty (e_ID expense)
                          then set_e_ID expense (uuid 0%nat) else expense)
              = e_Currency expense)
    by (destruct (isEmpty (e_ID expense)); reflexivity).
  rewrite C in *.
  destruct (defaultCurrency db userID (e_Currency expense)) as [c db1].
  cbn [fst snd] in *.
  assert (P : (if IsZero
                    (e_Date
                       (set_e_Currency
                          (if isEmpty (e_ID expense)
                           then set_e_ID expense (uuid 0%nat) else expense)
                          c))
               then set_e_Date
                      (set_e_Currency
                         (if isEmpty (e_ID expense)
                          then set_e_ID expense (uuid 0%nat) else expense)
                         c) now
               else set_e_Currency
                      (if isEmpty (e_ID expense)
                       then set_e_ID expense (uuid 0%nat) else expense) c)
              = preparedExpense uuid now c expense).
  { destruct expense as [uid flow id rid name tags category amount currency
                         source card date].
    unfold preparedExpense.
    cbn -[isEmpty IsZero]. destruct (isEmpty id); cbn -[isEmpty IsZero];
      destruct (IsZero date); reflexivity. }
  rewrite P.
  destruct (varchar 36 (e_ID (preparedExpense uuid now c expense)))
    as [id|]; [|reflexivity].
  destruct (expenseColumns (preparedExpense uuid now c expense))
    as [stored|]; [|reflexivity].
  rewrite insertRows_one, T. unfold expenseRowOf. cbn [x_id].
  destruct (mem_str _ _); reflexivity.
Qed.

(** An expense that fits its columns is stored as it is, under its id
    when that is free. *)
Lemma AddExpense_storable (uuid : nat -> gostring) (now : Time) (db : DB)
    (expense : Expense) :
  let id := if isEmpty (e_ID expense) then uuid 0%nat else e_ID expense in
  let currency := fst (defaultCurrency db userID (e_Currency expense)) in
  let db1 := snd (defaultCurrency db userID (e_Currency expense)) in
  let date := if IsZero (e_Date expense) then now else e_Date expense in
  expenseStorable (preparedExpense uuid now currency expense) = true ->
  AddExpense uuid now db userID expense =
  if mem_str id (map x_id (expenses db)) then (Err ConflictError, db1)
  else
    (Ok tt,
     with_expenses db1
       (expenses db ++
        [mkExpenseRow id userID (Some (e_RecurringID expense))
           (e_Name expense) (e_Category expense) (e_Amount expense)
           currency date (e_Tags expense) (Some (e_Source expense))
           (Some (e_Card expense))])).
Proof.
  cbv zeta. intros F. rewrite AddExpense_cases. cbv zeta.
  unfold expenseStorable in F. apply andb_true_iff in F.
  destruct F as [F1 F2]. rewrite (varchar_within _ _ F1).
  rewrite (expenseColumns_fits _ F2). reflexivity.
Qed.

(** A failure of [AddExpense] leaves the three tables of the data as
    they are. *)
Lemma AddExpense_failure (uuid : nat -> gostring) (now : Time) (db : DB)
    (expense : Expense) (err : error) :
  fst (AddExpense uuid now db userID expense) = Err err ->
  let db' := snd (AddExpense uuid now db userID expense) in
  expenses db' = expenses db /\
  recurring_expenses db' = recurring_expenses db /\
  categories db' = categories db.
Proof.
  cbv zeta. rewrite AddExpense_cases. cbv zeta.
  pose proof (defaultCurrency_tables db userID (e_Currency expense)) as T.
  cbv zeta in T.
  destruct (match varchar 36 _ with Some _ => _ | None => None end)
    as [stored|]; [|intros _; exact T].
  destruct (mem_str _ _); [intros _; exact T | discriminate].
Qed.



Lemma freshKeys_cons (k : gostring) (ks old : list gostring) :
  freshKeys (k :: ks) old = true <->
  mem_str k old = false /\ freshKeys ks (old ++ [k]) = true.
Proof.
  unfold freshKeys. cbn [distinct forallb].
  rewrite !andb_true_iff, !negb_true_iff, !forallb_forall.
  split.
  - intros [[H1 H2] [H3 H4]]. split; [exact H3|]. split; [exact H2|].
    intros x Hx. apply negb_true_iff. rewrite mem_str_app.
    specialize (H4 x Hx). apply negb_true_iff in H4. rewrite H4.
    cbn [mem_str existsb orb]. rewrite orb_false_r.
    apply str_eqb_neq. intros ->. apply mem_str_false in H1.
    contradiction.
  - intros [H1 [H2 H3]]. split; [split; [|exact H2] | split; [exact H1|]].
    + apply mem_str_false. intros Hk. specialize (H3 k Hk).
      apply negb_true_iff in H3. rewrite mem_str_app in H3.
      cbn [mem_str existsb] in H3. rewrite str_eqb_refl in H3.
      rewrite orb_true_r in H3. discriminate H3.
    + intros x Hx. specialize (H3 x Hx). apply negb_true_iff in H3.
      rewrite mem_str_app in H3. apply orb_false_iff in H3.
      apply negb_true_iff. tauto.
Qed.

(** The currency of the user is the same after [AddExpense]. *)
Lemma GetCurrency_with_expenses (db : DB) (t : list expenseRow) :
  fst (GetCurrency (with_expenses db t) userID) =
  fst (GetCurrency db userID).
Proof.
  unfold GetCurrency, getOrCreateUserConfig.
  cbn [user_config with_expenses].
  destruct (selectWhere u_user_id userID any (user_config db)); reflexivity.
Qed.

Lemma GetCurrency_defaultCurrency (db : DB) (currency : gostring) :
  fst (GetCurrency (snd (defaultCurrency db userID currency)) userID) =
  fst (GetCurrency db userID).
Proof.
  unfold defaultCurrency. destruct (isEmpty currency); [|reflexivity].
  unfold GetCurrency at 1 2.
  pose proof (getOrCreateUserConfig_settles userID db) as S.
  destruct (getOrCreateUserConfig db userID) as [[c d] db1] eqn:G.
  cbn [fst snd] in *. unfold GetCurrency. rewrite S, G. reflexivity.
Qed.

Lemma AddExpense_currency (uuid : nat -> gostring) (now : Time) (db : DB)
    (expense : Expense) :
  fst (GetCurrency (snd (AddExpense uuid now db userID expense)) userID) =
  fst (GetCurrency db userID).
Proof.
  rewrite AddExpense_cases. cbv zeta.
  destruct (match varchar 36 _ with Some _ => _ | None => None end)
    as [stored|]; cbn [snd]; [|apply GetCurrency_defaultCurrency].
  destruct (mem_str _ _); cbn [snd];
    rewrite ?GetCurrency_with_expenses; apply GetCurrency_defaultCurrency.
Qed.

(** An expense that fits its columns still does once [AddExpense] has
    filled in an identifier, the currency of the user and the instant of
    the call, when these fit. *)
Lemma prepared_storable (uuid : nat -> gostring) (now : Time) (db : DB)
    (expense : Expense) :
  expenseStorable expense = true ->
  within 36 (uuid 0%nat) = true ->
  inTimestampRange now = true ->
  within 3 (fst (GetCurrency db userID)) = true ->
  expenseStorable
    (preparedExpense uuid now
       (fst (defaultCurrency db userID (e_Currency expense))) expense)
  = true.
Proof.
  intros F Hu Hn Hc. unfold expenseStorable, expenseFits in F.
  rewrite !andb_true_iff in F.
  destruct F as [H0 [[[[[[[H1 H2] H3] H4] H5] H6] H7] H8]].
  unfold expenseStorable, expenseFits, preparedExpense, defaultCurrency.
  cbn [e_ID e_RecurringID e_Name e_Category e_Amount e_Currency e_Date
       e_Source e_Card].
  rewrite H1, H2, H3, H4, H7, H8.
  destruct (isEmpty (e_ID expense)); rewrite ?Hu, ?H0;
    destruct (isEmpty (e_Currency expense)); cbn [fst]; rewrite ?Hc, ?H5;
    destruct (IsZero (e_Date expense)); rewrite ?Hn, ?H6; reflexivity.
Qed.

Lemma AddMultipleExpenses_ok (batch : list Expense) :
  forall (uuid : nat -> gostring) (now : nat -> Time) (db : DB),
    Forall (fun exp => expenseStorable exp = true) batch ->
    (forall k, within 36 (uuid k) = true) ->
    (forall k, inTimestampRange (now k) = true) ->
    within 3 (fst (GetCurrency db userID)) = true ->
    freshKeys (assignedIDs uuid batch) (map x_id (expenses db)) = true ->
    exists db',
      AddMultipleExpenses uuid now db userID batch = (Ok tt, db') /\
      map x_id (expenses db') =
        map x_id (expenses db) ++ assignedIDs uuid batch /\
      recurring_expenses db' = recurring_expenses db /\
      categories db' = categories db.
Proof.
  induction batch as [|exp rest IH]; intros uuid now db F Hu Hn Hc H.
  - exists db. cbn [AddMultipleExpenses assignedIDs].
    rewrite app_nil_r. repeat split.
  - cbn [AddMultipleExpenses]. inversion F as [|e l Fe Fl]; subst.
    pose proof (AddExpense_currency uuid (now 0%nat) db exp) as Cur.
    pose proof (AddExpense_storable uuid (now 0%nat) db exp
                  (prepared_storable uuid (now 0%nat) db exp Fe (Hu 0%nat)
                     (Hn 0%nat) Hc)) as A.
    pose proof (defaultCurrency_tables db userID (e_Currency exp))
      as [T1 [T2 T3]].
    cbv zeta in A. rewrite A in *. clear A.
    assert (E : assignedIDs uuid (exp :: rest) =
                (if isEmpty (e_ID exp) then uuid 0%nat else e_ID exp)
                :: assignedIDs
                     (if isEmpty (e_ID exp) then fun k => uuid (S k)
                      else uuid) rest).
    { cbn [assignedIDs]. destruct (isEmpty (e_ID exp)); reflexivity. }
    rewrite E in *. apply freshKeys_cons in H. destruct H as [H1 H2].
    rewrite H1 in *. cbn [snd] in Cur.
    match goal with
    | |- context [AddMultipleExpenses ?u ?n ?d userID rest] =>
        destruct (IH u n d) as [db' [I1 [I2 [I3 I4]]]]
    end.
    { exact Fl. }
    { intros k. destruct (isEmpty (e_ID exp)); apply Hu. }
    { intros k. destruct (IsZero (e_Date exp)); apply Hn. }
    { rewrite Cur. exact Hc. }
    { cbn [expenses with_expenses]. rewrite map_app. exact H2. }
    exists db'. split; [exact I1|].
    cbn [expenses recurring_expenses categories with_expenses] in *.
    rewrite I2, I3, I4, map_app, <- app_assoc. repeat split; assumption.
Qed.

Lemma AddMultipleExpenses_stops (done : list Expense) (bad : Expense)
    (rest : list Expense) :
  forall (uuid : nat -> gostring) (now : nat -> Time) (db : DB),
    let ids := assignedIDs uuid done in
    let badID :=
      if isEmpty (e_ID bad) then uuid (drawn done) else e_ID bad in
    Forall (fun exp => expenseStorable exp = true) (done ++ [bad]) ->
    (forall k, within 36 (uuid k) = true) ->
    (forall k, inTimestampRange (now k) = true) ->
    within 3 (fst (GetCurrency db userID)) = true ->
    freshKeys ids (map x_id (expenses db)) = true ->
    In badID (map x_id (expenses db) ++ ids) ->
    exists db',
      AddMultipleExpenses uuid now db userID (done ++ bad :: rest) =
        (Err ConflictError, db') /\
      map x_id (expenses db') = map x_id (expenses db) ++ ids.
Proof.
  induction done as [|exp done IH];
    intros uuid now db ids badID F Hu Hn Hc H Hbad.
  - subst ids badID. cbn [assignedIDs drawn filter length app] in *.
    rewrite app_nil_r in *. inversion F as [|e l Fe Fl]; subst.
    pose proof (AddExpense_storable uuid (now 0%nat) db bad
                  (prepared_storable uuid (now 0%nat) db bad Fe (Hu 0%nat)
                     (Hn 0%nat) Hc)) as A.
    pose proof (defaultCurrency_tables db userID (e_Currency bad))
      as [T1 _].
    cbv zeta in A. cbn [AddMultipleExpenses]. rewrite A.
    apply mem_str_In in Hbad. rewrite Hbad.
    eexists. split; [reflexivity|]. rewrite T1. reflexivity.
  - cbn [app AddMultipleExpenses]. cbn [app] in F.
    inversion F as [|e l Fe Fl]; subst.
    pose proof (AddExpense_currency uuid (now 0%nat) db exp) as Cur.
    pose proof (AddExpense_storable uuid (now 0%nat) db exp
                  (prepared_storable uuid (now 0%nat) db exp Fe (Hu 0%nat)
                     (Hn 0%nat) Hc)) as A.
    pose proof (defaultCurrency_tables db userID (e_Currency exp))
      as [T1 _].
    cbv zeta in A. rewrite A in *. clear A.
    assert (E : ids =
                (if isEmpty (e_ID exp) then uuid 0%nat else e_ID exp)
                :: assignedIDs
                     (if isEmpty (e_ID exp) then fun k => uuid (S k)
                      else uuid) done).
    { unfold ids. cbn [assignedIDs].
      destruct (isEmpty (e_ID exp)); reflexivity. }
    assert (B : badID =
                if isEmpty (e_ID bad)
                then (if isEmpty (e_ID exp) then fun k => uuid (S k)
                      else uuid) (drawn done)
                else e_ID bad).
    { unfold badID, drawn. cbn [filter].
      destruct (isEmpty (e_ID exp)); reflexivity. }
    rewrite E in *. clear E. apply freshKeys_cons in H.
    destruct H as [H1 H2]. rewrite H1 in *. cbn [snd] in Cur.
    match goal with
    | |- context [AddMultipleExpenses ?u ?n ?d userID (done ++ bad :: rest)] =>
        destruct (IH u n d) as [db' [I1 I2]]
    end.
    { exact Fl. }
    { intros k. destruct (isEmpty (e_ID exp)); apply Hu. }
    { intros k. destruct (IsZero (e_Date exp)); apply Hn. }
    { rewrite Cur. exact Hc. }
    { cbn [expenses with_expenses]. rewrite map_app. exact H2. }
    { cbn [expenses with_expenses]. rewrite <- B, map_app, <- app_assoc.
      exact Hbad. }
    exists db'. split; [exact I1|].
    cbn [expenses with_expenses] in I2.
    rewrite I2, map_app, <- app_assoc. reflexivity.
Qed.


Lemma select_after_delete {row : Type} (user : row -> gostring)
    (u : gostring) (c d : row -> bool) (t : list row) :
  (forall r, c r = true -> d r = false) ->
  selectWhere user u c (deleteWhere user u d t) = selectWhere user u c t.
Proof.
  intros H. unfold selectWhere, deleteWhere. rewrite filter_filter.
  apply filter_ext. intros r.
  destruct (owned user u r); cbn [andb negb]; [|reflexivity].
  destruct (c r) eqn:C; [rewrite (H r C); reflexivity|].
  apply andb_false_r.
Qed.

Lemma select_after_delete_all {row : Type} (user : row -> gostring)
    (u : gostring) (c d : row -> bool) (t : list row) :
  (forall r, c r = true -> d r = true) ->
  selectWhere user u c (deleteWhere user u d t) = [].
Proof.
  intros H. unfold selectWhere, deleteWhere. rewrite filter_filter.
  apply filter_none. intros r _.
  destruct (owned user u r); cbn [andb negb]; [|reflexivity].
  destruct (c r) eqn:C; [rewrite (H r C); reflexivity|].
  apply andb_false_r.
Qed.

Lemma select_after_update {row : Type} (user : row -> gostring)
    (u : gostring) (c d : row -> bool) (set : row -> row) (t : list row) :
  (forall r, d r = true -> c r = false /\ c (set r) = false) ->
  selectWhere user u c (updateWhere user u d set t) = selectWhere user u c t.
Proof.
  intros H. unfold selectWhere, updateWhere.
  induction t as [|r t IH]; [reflexivity|].
  cbn [map filter]. rewrite IH.
  destruct (owned user u r) eqn:O; cbn [andb]; [|rewrite O; reflexivity].
  destruct (d r) eqn:D; [|rewrite O; reflexivity].
  destruct (H r D) as [H1 H2]. rewrite H1, H2, !andb_false_r. reflexivity.
Qed.

Lemma select_updated {row : Type} (user : row -> gostring)
    (u : gostring) (c : row -> bool) (set : row -> row) (t : list row) :
  (forall r, user (set r) = user r) ->
  (forall r, c (set r) = c r) ->
  selectWhere user u c (updateWhere user u c set t) =
  map set (selectWhere user u c t).
Proof.
  intros H1 H2. unfold selectWhere, updateWhere.
  induction t as [|r t IH]; [reflexivity|].
  cbn [map filter]. rewrite IH.
  destruct (owned user u r && c r) eqn:O.
  - assert (O' : owned user u (set r) && c (set r) = true).
    { unfold owned in *. rewrite H1, H2. exact O. }
    rewrite O'. reflexivity.
  - rewrite O. reflexivity.
Qed.

Lemma hasID_other (id id' : gostring) (r : expenseRow) :
  id' <> id -> hasID id r = true -> hasID id' r = false.
Proof.
  intros N H. apply hasID_true in H. apply not_true_is_false.
  intros C. apply hasID_true in C. congruence.
Qed.

Lemma rowsAffected_found (db : DB) (id : gostring) (old : Expense) :
  GetExpense db userID id = Ok old ->
  exists n, rowsAffected x_user_id userID (hasID id) (expenses db) = S n.
Proof.
  intros H. unfold rowsAffected.
  destruct (GetExpense_cases db id) as [[E G] | [r [rest [E G]]]];
    [rewrite G in H; discriminate|].
  rewrite E. exists (length rest). reflexivity.
Qed.

Lemma rowsAffected_missing (db : DB) (id : gostring) :
  GetExpense db userID id = Err NotFoundError ->
  rowsAffected x_user_id userID (hasID id) (expenses db) = 0%nat.
Proof.
  intros H. apply GetExpense_missing in H. unfold rowsAffected.
  rewrite H. reflexivity.
Qed.


(** X15.  [RemoveExpense] succeeds exactly on an expense that [GetExpense]
    finds.  Afterwards [GetExpense] does not find it, every other
    expense of the user reads as before, and the rows of the table are
    the former ones but for the rows of the user with that id.  On an
    expense that is not found the call reports NotFoundError and the
    database is left as it is. *)
Theorem X15_RemoveExpense_removes (db : DB) (id : gostring) :
  (GetExpense db userID id = Err NotFoundError ->
   RemoveExpense db userID id = (Err NotFoundError, db)) /\
  (forall old,
     GetExpense db userID id = Ok old ->
     exists db',
       RemoveExpense db userID id = (Ok tt, db') /\
       GetExpense db' userID id = Err NotFoundError /\
       (forall id', id' <> id ->
          GetExpense db' userID id' = GetExpense db userID id') /\
       (forall r, In r (expenses db') <->
          In r (expenses db) /\ ~ (x_user_id r = userID /\ x_id r = id)) /\
       recurring_expenses db' = recurring_expenses db /\
       categories db' = categories db /\
       user_config db' = user_config db).
Proof.
  unfold RemoveExpense. split.
  - intros H. apply rowsAffected_missing in H. rewrite H. reflexivity.
  - intros old H. destruct (rowsAffected_found db id old H) as [n R].
    rewrite R. eexists. split; [reflexivity|].
    cbn [expenses recurring_expenses categories user_config with_expenses].
    split; [|split; [|split; [|repeat split]]].
    + apply GetExpense_missing. cbn [expenses with_expenses].
      apply select_delete.
    + intros id' N. unfold GetExpense. cbn [expenses with_expenses].
      rewrite select_after_delete; [reflexivity|].
      intros r Hr. exact (hasID_other id' id r (not_eq_sym N) Hr).
    + intros r. rewrite deleteWhere_In, hasID_true. reflexivity.
Qed.

Lemma mem_ids_true (ids : list gostring) (r : expenseRow) :
  mem_str (x_id r) ids = true <-> In (x_id r) ids.
Proof. apply mem_str_In. Qed.


End ExpenseFacts.

(** ** Categories, read back *)

Lemma sorted_lt_unique (u v : list Z) :
  StronglySorted Z.lt u -> StronglySorted Z.lt v ->
  (forall x, In x u <-> In x v) -> u = v.
Proof.
  revert v. induction u as [|a u IH]; intros v Su Sv H.
  - destruct v as [|b v]; [reflexivity|].
    exfalso. apply (H b). left. reflexivity.
  - destruct v as [|b v]; [exfalso; apply (H a); left; reflexivity|].
    apply StronglySorted_inv in Su, Sv.
    destruct Su as [Su Fu], Sv as [Sv Fv].
    rewrite Forall_forall in Fu, Fv.
    assert (E : a = b).
    { destruct (proj1 (H a) (or_introl eq_refl)) as [E | I1]; [congruence|].
      destruct (proj2 (H b) (or_introl eq_refl)) as [E | I2]; [congruence|].
      specialize (Fu b I2). specialize (Fv a I1). lia. }
    subst b. f_equal. apply IH; [assumption | assumption|].
    intros x. split; intros I.
    + destruct (proj1 (H x) (or_intror I)) as [E | I']; [|exact I'].
      specialize (Fu x I). lia.
    + destruct (proj2 (H x) (or_intror I)) as [E | I']; [|exact I'].
      specialize (Fv x I). lia.
Qed.

Lemma sorted_le_NoDup (l : list Z) :
  StronglySorted Z.le l -> NoDup l -> StronglySorted Z.lt l.
Proof.
  induction 1 as [|a l S IH F]; intros N; [constructor|].
  apply NoDup_cons_iff in N. destruct N as [N1 N2].
  constructor; [exact (IH N2)|].
  rewrite Forall_forall in *. intros x Hx. specialize (F x Hx).
  assert (a <> x) by (intros ->; contradiction). lia.
Qed.

Lemma map_inj_on {A B : Type} (f : A -> B) (l1 l2 : list A) :
  (forall x y, In x l1 -> In y l2 -> f x = f y -> x = y) ->
  map f l1 = map f l2 -> l1 = l2.
Proof.
  revert l2. induction l1 as [|a l1 IH]; intros [|b l2] H E;
    try discriminate; [reflexivity|].
  cbn [map] in E. injection E as E1 E2. f_equal.
  - apply H; [left; reflexivity | left; reflexivity | exact E1].
  - apply IH; [|exact E2]. intros x y Hx Hy. apply H; right; assumption.
Qed.

Lemma keepLast_In (names : list gostring) (x : gostring) :
  In x (keepLast names) <-> In x names.
Proof.
  induction names as [|n rest IH]; [reflexivity|].
  cbn [keepLast]. destruct (mem_str n rest) eqn:M.
  - rewrite IH. apply mem_str_In in M. split; [right; assumption|].
    intros [<- | H]; assumption.
  - cbn [In]. rewrite IH. reflexivity.
Qed.

Lemma keepLast_NoDup (names : list gostring) :
  NoDup names -> keepLast names = names.
Proof.
  induction 1 as [|n rest N _ IH]; [reflexivity|].
  cbn [keepLast]. apply mem_str_false in N. rewrite N, IH. reflexivity.
Qed.

Lemma positionOf_In (names : list gostring) (x : gostring) (i : Z) :
  In x names ->
  lastPos names i x = Some (positionOf names i x) /\
  i < positionOf names i x.
Proof.
  intros H. unfold positionOf.
  destruct (lastPos names i x) as [p|] eqn:E.
  - split; [reflexivity|]. apply lastPos_Some in E.
    destruct E as [k [_ [-> _]]]. lia.
  - apply lastPos_None in E. contradiction.
Qed.

Lemma positionOf_inj (names : list gostring) (i : Z) (x y : gostring) :
  In x names -> In y names ->
  positionOf names i x = positionOf names i y -> x = y.
Proof.
  intros Hx Hy E.
  destruct (positionOf_In names x i Hx) as [Px _].
  destruct (positionOf_In names y i Hy) as [Py _].
  rewrite E in Px. apply lastPos_Some in Px, Py.
  destruct Px as [k [K1 [K2 _]]], Py as [k' [K1' [K2' _]]].
  assert (k = k') by lia. subst k'. congruence.
Qed.

Lemma positionOf_tail (n : gostring) (rest : list gostring) (i : Z)
    (x : gostring) :
  In x rest -> positionOf (n :: rest) i x = positionOf rest (i + 1) x.
Proof.
  intros H. unfold positionOf. cbn [lastPos].
  destruct (positionOf_In rest x (i + 1) H) as [P _]. rewrite P.
  reflexivity.
Qed.

Lemma keepLast_sorted (names : list gostring) :
  forall i, StronglySorted Z.lt (map (positionOf names i) (keepLast names)).
Proof.
  induction names as [|n rest IH]; intros i; [constructor|].
  assert (T : map (positionOf (n :: rest) i) (keepLast rest) =
              map (positionOf rest (i + 1)) (keepLast rest)).
  { apply map_ext_in. intros x Hx. apply positionOf_tail.
    apply keepLast_In. exact Hx. }
  cbn [keepLast]. destruct (mem_str n rest) eqn:M.
  - rewrite T. apply IH.
  - cbn [map]. rewrite T. constructor; [apply IH|].
    apply Forall_forall. intros p Hp. apply in_map_iff in Hp.
    destruct Hp as [x [<- Hx]]. apply (proj1 (keepLast_In _ _)) in Hx.
    destruct (positionOf_In rest x (i + 1) Hx) as [_ P].
    unfold positionOf at 1. cbn [lastPos].
    apply mem_str_false in M. apply (lastPos_None rest n (i + 1)) in M.
    rewrite M, str_eqb_refl. lia.
Qed.

(** The rows of a user, one per name of the list and each at the
    position of that name, read in the order of the list. *)
Lemma sorted_names (rows : list categoryRow) (names : list gostring) :
  NoDup (map c_name rows) ->
  (forall r, In r rows -> lastPos names 0 (c_name r) = Some (c_position r)) ->
  (forall x, In x names -> exists r, In r rows /\ c_name r = x) ->
  map c_name (sortBy (fun a b => c_position a <=? c_position b) rows) =
  keepLast names.
Proof.
  intros N Hpos Hall.
  set (before := fun a b : categoryRow => c_position a <=? c_position b).
  pose proof (sortBy_perm before rows) as P.
  assert (S : StronglySorted (fun a b => before a b = true)
                (sortBy before rows)).
  { apply sortBy_sorted; unfold before.
    - intros a b H. apply Z.leb_gt in H. apply Z.leb_le. lia.
    - intros a b c H1 H2. apply Z.leb_le in H1, H2. apply Z.leb_le. lia. }
  set (s := sortBy before rows) in *.
  assert (Hin : forall r, In r s -> In (c_name r) names).
  { intros r Hr. apply (Permutation_in _ P) in Hr.
    specialize (Hpos r Hr).
    destruct (in_dec (list_eq_dec Z.eq_dec) (c_name r) names) as [I | I];
      [exact I|].
    apply (lastPos_None names (c_name r) 0) in I. congruence. }
  assert (Hp : forall r, In r s ->
                         c_position r = positionOf names 0 (c_name r)).
  { intros r Hr. apply (Permutation_in _ P) in Hr.
    unfold positionOf. rewrite (Hpos r Hr). reflexivity. }
  assert (Ns : NoDup (map c_name s)).
  { apply (Permutation_NoDup (l := map c_name rows)); [|exact N].
    apply Permutation_map, Permutation_sym. exact P. }
  apply (map_inj_on (positionOf names 0)).
  { intros x y Hx Hy. apply in_map_iff in Hx. destruct Hx as [r [<- Hr]].
    apply positionOf_inj; [apply Hin; exact Hr|].
    apply keepLast_In. exact Hy. }
  apply sorted_lt_unique.
  - apply sorted_le_NoDup.
    + replace (map (positionOf names 0) (map c_name s))
        with (map c_position s)
        by (rewrite map_map; apply map_ext_in; exact Hp).
      apply StronglySorted_map.
      eapply StronglySorted_weaken; [|exact S]. cbv beta.
      intros a b H. unfold before in H. apply Z.leb_le in H. exact H.
    + apply NoDup_map_NoDup_ForallPairs; [|exact Ns].
      intros x y Hx Hy. apply in_map_iff in Hx, Hy.
      destruct Hx as [r [<- Hr]], Hy as [r' [<- Hr']].
      apply positionOf_inj; apply Hin; assumption.
  - apply keepLast_sorted.
  - intros p. rewrite !in_map_iff. split.
    + intros [x [<- Hx]]. exists x. split; [reflexivity|].
      apply keepLast_In. apply in_map_iff in Hx.
      destruct Hx as [r [<- Hr]]. apply Hin. exact Hr.
    + intros [x [<- Hx]]. exists x. split; [reflexivity|].
      apply (proj1 (keepLast_In _ _)) in Hx.
      destruct (Hall x Hx) as [r [Hr <-]].
      apply in_map. apply (Permutation_in _ (Permutation_sym P)). exact Hr.
Qed.

Lemma sortBy_nil {A : Type} (before : A -> A -> bool) (l : list A) :
  sortBy before l = [] <-> l = [].
Proof.
  split; [|intros ->; reflexivity].
  intros H. pose proof (insertBy_perm before) as I.
  destruct l as [|x l]; [reflexivity|]. exfalso.
  unfold sortBy in H. cbn [fold_right] in H.
  specialize (I x (fold_right (insertBy before) [] l)). rewrite H in I.
  apply Permutation_nil in I. discriminate I.
Qed.

Section CategoryReadBack.

Variable userID : gostring.

#[local] Abbreviation categoriesOf := (selectWhere c_user_id userID any).

Lemma acceptedNames_checks (names : list gostring) :
  acceptedNames names <->
  (length names =? 0)%nat = false /\
  existsb (fun cat => isEmpty (TrimSpace cat)) names = false.
Proof.
  unfold acceptedNames. split.
  - intros [H1 H2]. split; [destruct names; [contradiction | reflexivity]|].
    apply not_true_is_false. intros C. apply existsb_exists in C.
    destruct C as [x [Hx C]]. apply isEmpty_true in C.
    rewrite Forall_forall in H2. exact (H2 x Hx C).
  - intros [H1 H2]. split; [destruct names; [discriminate | discriminate]|].
    apply Forall_forall. intros x Hx C.
    assert (E : existsb (fun cat => isEmpty (TrimSpace cat)) names = true).
    { apply existsb_exists. exists x. split; [exact Hx|].
      apply isEmpty_true. exact C. }
    congruence.
Qed.

Lemma updateCategoriesTable_cases (db : DB) (names : list gostring) :
  (acceptedNames names /\
   updateCategoriesTable db userID names =
   (Ok tt, with_categories db (reconciled userID names (categories db)))) \/
  (~ acceptedNames names /\
   updateCategoriesTable db userID names = (Err ValidationError, db)).
Proof.
  unfold updateCategoriesTable. rewrite acceptedNames_checks.
  destruct (length names =? 0)%nat;
    [right; split; [intros [C _]; discriminate C | reflexivity]|].
  destruct (existsb (fun cat => isEmpty (TrimSpace cat)) names);
    [right; split; [intros [_ C]; discriminate C | reflexivity]|].
  left. split; [split; reflexivity | reflexivity].
Qed.

Lemma owned_names (rows : list categoryRow) :
  Forall (fun r => c_user_id r = userID) rows ->
  NoDup (map categoryKey rows) -> NoDup (map c_name rows).
Proof.
  intros F N.
  assert (E : map categoryKey rows = map (pair userID) (map c_name rows)).
  { rewrite map_map. apply map_ext_in. intros r Hr.
    rewrite Forall_forall in F. unfold categoryKey. rewrite (F r Hr).
    reflexivity. }
  rewrite E in N. exact (NoDup_map_inv _ _ N).
Qed.

Lemma categoriesOf_owned (t : list categoryRow) :
  Forall (fun r => c_user_id r = userID) (categoriesOf t).
Proof.
  apply Forall_forall. intros r Hr. apply select_In in Hr. tauto.
Qed.


Lemma upsertCategories_fresh (names : list gostring) :
  forall i t,
    NoDup names ->
    (forall x, In x names -> ~ present userID x t) ->
    upsertCategories userID names i t = t ++ rowsFrom userID names i.
Proof.
  induction names as [|n rest IH]; intros i t N H.
  - cbn [upsertCategories rowsFrom]. rewrite app_nil_r. reflexivity.
  - cbn [upsertCategories rowsFrom].
    apply NoDup_cons_iff in N. destruct N as [N1 N2].
    destruct (upsertCategory_cases userID n (i + 1) t) as [[_ ->] | [P _]];
      [|exfalso; apply (H n); [left; reflexivity | exact P]].
    rewrite IH; [rewrite <- app_assoc; reflexivity | exact N2|].
    intros x Hx [r [R1 [R2 R3]]]. apply in_app_or in R1.
    destruct R1 as [R1 | [<- | []]].
    + apply (H x); [right; exact Hx|]. exists r. tauto.
    + cbn [c_name] in R3. subst x. contradiction.
Qed.

Lemma rowsFrom_owned (names : list gostring) :
  forall i, categoriesOf (rowsFrom userID names i) = rowsFrom userID names i.
Proof.
  induction names as [|n rest IH]; intros i; [reflexivity|].
  cbn [rowsFrom]. unfold selectWhere, owned, any in *. cbn [filter c_user_id].
  rewrite str_eqb_refl. cbn [andb]. f_equal. apply IH.
Qed.

Lemma seeded_defaults (t : list categoryRow) :
  categoriesOf t = [] ->
  upsertCategories userID defaultCategories 0 t =
  t ++ rowsFrom userID defaultCategories 0.
Proof.
  intros H. apply upsertCategories_fresh.
  - repeat constructor; cbn [In]; intros C;
      repeat (destruct C as [C | C]; [discriminate C|]); exact C.
  - intros x _ [r [R1 [R2 R3]]].
    assert (I : In r (categoriesOf t)) by (apply select_In; tauto).
    rewrite H in I. exact I.
Qed.

Lemma GetCategories_cases (db : DB) :
  (categoriesOf (categories db) = [] /\
   GetCategories db userID =
   (defaultCategories, seedCategories db userID defaultCategories)) \/
  (categoriesOf (categories db) <> [] /\
   GetCategories db userID = (getCategoriesFromTable db userID, db)).
Proof.
  destruct (categoriesOf (categories db)) as [|r rest] eqn:E.
  - left. split; [reflexivity|].
    unfold GetCategories, getCategoriesFromTable. rewrite E. reflexivity.
  - right. split; [discriminate|]. unfold GetCategories.
    destruct (getCategoriesFromTable db userID) as [|n ns] eqn:F;
      [|reflexivity].
    exfalso. unfold getCategoriesFromTable in F.
    apply map_eq_nil in F. apply sortBy_nil in F. congruence.
Qed.

(** Once read, the categories are there: a second read returns the same
    names and writes nothing. *)
Lemma GetCategories_settles (db : DB) :
  GetCategories (snd (GetCategories db userID)) userID =
  (fst (GetCategories db userID), snd (GetCategories db userID)).
Proof.
  destruct (GetCategories_cases db) as [[E G] | [E G]]; rewrite G;
    cbn [fst snd]; [|exact G].
  unfold GetCategories, getCategoriesFromTable, seedCategories.
  cbn [categories with_categories].
  rewrite (seeded_defaults _ E), select_app, E, rowsFrom_owned.
  reflexivity.
Qed.

(** X18.  A user who has no category gets the ten default categories the
    first time [GetCategories] is called: it returns them and stores
    them after the rows of the table, at the positions 1 to 10.  Called
    again, [GetCategories] returns the same list and writes nothing; a
    user who has categories is only read. *)
Theorem X18_GetCategories_seeds_once (db : DB) :
  let db1 := snd (GetCategories db userID) in
  GetCategories db1 userID = (fst (GetCategories db userID), db1) /\
  (categoriesOf (categories db) = [] ->
   fst (GetCategories db userID) = defaultCategories /\
   categories db1 =
     categories db ++ rowsFrom userID defaultCategories 0) /\
  (categoriesOf (categories db) <> [] ->
   db1 = db /\
   fst (GetCategories db userID) = getCategoriesFromTable db userID).
Proof.
  cbv zeta. split; [apply GetCategories_settles|].
  destruct (GetCategories_cases db) as [[E G] | [E G]]; rewrite G;
    cbn [fst snd].
  - split; [|intros C; contradiction]. intros _. split; [reflexivity|].
    unfold seedCategories. cbn [categories with_categories].
    exact (seeded_defaults _ E).
  - split; [intros C; contradiction|]. intros _. split; reflexivity.
Qed.

End CategoryReadBack.


(** ** The recurring engine, on any rule *)

Section EngineFacts.

Variable uuid : nat -> gostring.
Variable userID : gostring.
Variable recExp : RecurringExpense.
Variable loc : Location.

#[local] Abbreviation emitted := (emit uuid userID recExp loc).
#[local] Abbreviation instanceAt := (instance uuid userID recExp).
#[local] Abbreviation generate :=
  (generateExpensesFromRecurring uuid userID recExp loc).
#[local] Abbreviation copy := (copyOf userID recExp).

Lemma emit_invalid (limit k : nat) (currentDate : Time) :
  validIntervals (re_Interval recExp) = false ->
  emitted limit k currentDate =
  match limit with
  | O => []
  | S _ => [instanceAt k currentDate]
  end.
Proof.
  intros H. destruct limit as [|limit]; [reflexivity|].
  cbn [emit]. rewrite (nextDate_invalid _ _ _ H). reflexivity.
Qed.

(** X19.  The store does not validate a rule.  On a rule whose interval is
    none of daily, weekly, monthly and yearly, the engine yields one
    instance at most, dated at the start date: in Full mode when the rule
    has an occurrence at least, in FutureOnly mode when moreover the
    start date is not before [today]. *)
Theorem X19_invalid_interval_one_instance (today : Time) :
  validIntervals (re_Interval recExp) = false ->
  generate today false =
    (if 0 <? re_Occurrences recExp
     then [instanceAt 0%nat (re_StartDate recExp)] else []) /\
  generate today true =
    (if Before (re_StartDate recExp) today then []
     else generate today false).
Proof.
  intros H.
  assert (F : generate today false =
              if 0 <? re_Occurrences recExp
              then [instanceAt 0%nat (re_StartDate recExp)] else []).
  { unfold generateExpensesFromRecurring. rewrite emit_invalid by exact H.
    destruct (Z.ltb_spec 0 (re_Occurrences recExp)) as [P | P].
    - destruct (Z.to_nat (re_Occurrences recExp)) eqn:E; [lia | reflexivity].
    - replace (Z.to_nat (re_Occurrences recExp)) with 0%nat by lia.
      reflexivity. }
  split; [exact F|].
  unfold generateExpensesFromRecurring at 1.
  destruct (Before (re_StartDate recExp) today) eqn:B.
  - destruct (skipFuel today recExp) as [|fuel]; cbn [skipPast]; rewrite B;
      cbn [andb].
    + destruct ((re_Occurrences recExp =? 0) || (0 <? re_Occurrences recExp))
        eqn:C; [reflexivity|].
      apply orb_false_iff in C. destruct C as [_ C]. apply Z.ltb_ge in C.
      replace (Z.to_nat (re_Occurrences recExp)) with 0%nat by lia.
      reflexivity.
    + destruct ((re_Occurrences recExp =? 0) || (0 <? re_Occurrences recExp))
        eqn:C.
      * rewrite (nextDate_invalid _ _ _ H). reflexivity.
      * apply orb_false_iff in C. destruct C as [_ C]. apply Z.ltb_ge in C.
        replace (Z.to_nat (re_Occurrences recExp)) with 0%nat by lia.
        reflexivity.
  - destruct (skipFuel today recExp) as [|fuel]; cbn [skipPast]; rewrite B;
      cbn [andb]; reflexivity.
Qed.

Lemma instance_copy (k : nat) (currentDate : Time) :
  copy (instanceAt k currentDate).
Proof. unfold copyOf. cbn. repeat split. Qed.

Lemma emit_copies (limit : nat) :
  forall k currentDate,
    Forall copy (emitted limit k currentDate) /\
    Forall (fun e => currentDate <= e_Date e) (emitted limit k currentDate) /\
    StronglySorted (fun a b => e_Date a < e_Date b)
      (emitted limit k currentDate).
Proof.
  induction limit as [|limit IH]; intros k currentDate;
    [repeat constructor|].
  cbn [emit].
  destruct (nextDate loc (re_Interval recExp) currentDate) as [next|] eqn:N.
  - destruct (IH (S k) next) as [I1 [I2 I3]].
    pose proof (nextDate_later _ _ _ _ N) as L. pose proof nsPerDay_pos as P.
    split; [constructor; [apply instance_copy | exact I1]|].
    split.
    + constructor; [cbn; lia|].
      eapply Forall_impl; [|exact I2]. cbv beta. intros e He. lia.
    + constructor; [exact I3|].
      eapply Forall_impl; [|exact I2]. cbv beta. intros e He. cbn. lia.
  - split; [constructor; [apply instance_copy | constructor]|].
    split; [constructor; [cbn; lia | constructor]|].
    repeat constructor.
Qed.

Lemma skipPast_reached (today : Time) (fuel : nat) :
  forall currentDate occ reached left,
    skipPast loc fuel today recExp currentDate occ = Reached reached left ->
    currentDate <= reached /\
    (0 < left -> Before reached today = false).
Proof.
  induction fuel as [|fuel IH]; intros currentDate occ reached left;
    cbn [skipPast];
    destruct (Before currentDate today &&
              ((re_Occurrences recExp =? 0) || (0 <? occ))) eqn:C;
    try discriminate.
  - intros H. injection H as <- <-. split; [lia|]. intros P.
    apply andb_false_iff in C. destruct C as [C | C]; [exact C|].
    apply orb_false_iff in C. destruct C as [_ C]. apply Z.ltb_ge in C. lia.
  - destruct (nextDate loc (re_Interval recExp) currentDate) as [next|] eqn:N;
      [|discriminate].
    intros H. apply IH in H. pose proof (nextDate_later _ _ _ _ N).
    pose proof nsPerDay_pos. split; [lia | tauto].
  - intros H. injection H as <- <-. split; [lia|]. intros P.
    apply andb_false_iff in C. destruct C as [C | C]; [exact C|].
    apply orb_false_iff in C. destruct C as [_ C]. apply Z.ltb_ge in C. lia.
Qed.

(** X20.  Whatever the rule and the mode, the engine yields no more instances
    than the rule has occurrences (none for a rule with no occurrence),
    with the identifiers drawn in order; every instance copies name,
    category, amount, currency and tags of the rule, carries the user and
    the id of the rule, and has no flow, source or card; the dates
    increase strictly from the start date on; in FutureOnly mode no
    instance is dated before [today]. *)
Theorem X20_generated_instances_bounded (today : Time) (fromToday : bool) :
  let out := generate today fromToday in
  (length out <= Z.to_nat (re_Occurrences recExp))%nat /\
  map e_ID out = map uuid (seq 0 (length out)) /\
  Forall copy out /\
  Forall (fun e => re_StartDate recExp <= e_Date e) out /\
  StronglySorted (fun a b => e_Date a < e_Date b) out /\
  (fromToday = true -> Forall (fun e => today <= e_Date e) out).
Proof.
  cbv zeta.
  destruct (generate_shape uuid userID recExp loc today fromToday)
    as [m [M1 [M2 _]]].
  assert (L : length (generate today fromToday) = m).
  { rewrite <- (length_map e_ID), M2, length_map, length_seq. reflexivity. }
  rewrite L. split; [exact M1|]. split; [exact M2|].
  unfold generateExpensesFromRecurring.
  destruct fromToday.
  - destruct (skipPast loc (skipFuel today recExp) today recExp
                (re_StartDate recExp) (re_Occurrences recExp))
      as [reached left| |] eqn:S;
      [|repeat split; constructor|repeat split; constructor].
    destruct (skipPast_reached _ _ _ _ _ _ S) as [R1 R2].
    destruct (emit_copies (Z.to_nat left) 0 reached) as [E1 [E2 E3]].
    split; [exact E1|]. split; [|split; [exact E3|]].
    + eapply Forall_impl; [|exact E2]. cbv beta. intros e He. lia.
    + intros _. destruct (Z.ltb_spec 0 left) as [P | P].
      * specialize (R2 P). unfold Before in R2. apply Z.ltb_ge in R2.
        eapply Forall_impl; [|exact E2]. cbv beta. intros e He. lia.
      * replace (Z.to_nat left) with 0%nat by lia. constructor.
  - destruct (emit_copies (Z.to_nat (re_Occurrences recExp)) 0
                (re_StartDate recExp)) as [E1 [E2 E3]].
    repeat split; try assumption. discriminate.
Qed.

End EngineFacts.

(** ** Recurring rules in the store *)

Section RuleFacts.

Variable userID : gostring.

#[local] Abbreviation ruleOf id :=
  (selectWhere r_user_id userID (hasRuleID id)).

Lemma hasRuleID_true (id : gostring) (r : recurringRow) :
  hasRuleID id r = true <-> r_id r = id.
Proof. unfold hasRuleID. apply str_eqb_eq. Qed.

Lemma hasRuleID_other (id id' : gostring) (r : recurringRow) :
  id' <> id -> hasRuleID id r = true -> hasRuleID id' r = false.
Proof.
  intros N H. apply hasRuleID_true in H. apply not_true_is_false.
  intros C. apply hasRuleID_true in C. congruence.
Qed.

Lemma GetRecurringExpense_cases (db : DB) (id : gostring) :
  (ruleOf id (recurring_expenses db) = [] /\
   GetRecurringExpense db userID id = Err NotFoundError) \/
  (exists r rest,
     ruleOf id (recurring_expenses db) = r :: rest /\
     GetRecurringExpense db userID id = Ok (scanRecurringExpense r)).
Proof.
  unfold GetRecurringExpense.
  destruct (ruleOf id (recurring_expenses db)) as [|r rest].
  - left. split; reflexivity.
  - right. exists r, rest. split; reflexivity.
Qed.

Lemma GetRecurringExpense_missing (db : DB) (id : gostring) :
  GetRecurringExpense db userID id = Err NotFoundError <->
  ruleOf id (recurring_expenses db) = [].
Proof.
  destruct (GetRecurringExpense_cases db id)
    as [[E ->] | [r [rest [E ->]]]]; rewrite E; split; congruence.
Qed.

Lemma rule_found (db : DB) (id : gostring) (old : RecurringExpense) :
  GetRecurringExpense db userID id = Ok old ->
  exists n,
    rowsAffected r_user_id userID (hasRuleID id) (recurring_expenses db)
    = S n.
Proof.
  intros H. unfold rowsAffected.
  destruct (GetRecurringExpense_cases db id) as [[E G] | [r [rest [E G]]]];
    [rewrite G in H; discriminate|].
  rewrite E. exists (length rest). reflexivity.
Qed.

Lemma rule_missing (db : DB) (id : gostring) :
  GetRecurringExpense db userID id = Err NotFoundError ->
  rowsAffected r_user_id userID (hasRuleID id) (recurring_expenses db)
  = 0%nat.
Proof.
  intros H. apply GetRecurringExpense_missing in H. unfold rowsAffected.
  rewrite H. reflexivity.
Qed.

Lemma ruleOf_free (id : gostring) (t : list recurringRow) :
  ~ In id (map r_id t) -> ruleOf id t = [].
Proof.
  intros H. apply filter_none. intros r Hr.
  apply andb_false_iff. right. apply not_true_is_false. intros C.
  apply hasRuleID_true in C. apply H. rewrite <- C. apply in_map. exact Hr.
Qed.

(** What [AddRecurringExpense] does. *)
Lemma AddRecurringExpense_cases (uuid : nat -> gostring) (today : Time)
    (db : DB) (re : RecurringExpense) (loc : Location) :
  let id := ruleID uuid re in
  let currency := fst (defaultCurrency db userID (re_Currency re)) in
  let db1 := snd (defaultCurrency db userID (re_Currency re)) in
  let rule := set_re_Currency (set_re_ID re id) currency in
  AddRecurringExpense uuid today db userID re loc =
  match
    match varchar 36 id with
    | Some id' =>
        match ruleColumns rule with
        | Some stored => Some (set_re_ID stored id')
        | None => None
        end
    | None => None
    end
  with
  | None => (Err DataError, db1)
  | Some stored =>
      if mem_str (re_ID stored) (map r_id (recurring_expenses db))
      then (Err ConflictError, db1)
      else
        match copyIn
                (generateExpensesFromRecurring (instanceIDs uuid re) userID
                   rule loc today false)
                (expenses db) with
        | Err err => (Err err, db1)
        | Ok rows =>
            (Ok tt,
             with_expenses
               (with_recurring db1
                  (recurring_expenses db ++ [ruleRow userID stored]))
               rows)
        end
  end.
Proof.
  cbv zeta. unfold AddRecurringExpense, ruleID.
  assert (E : (if isEmpty (re_ID re)
               then (set_re_ID re (uuid 0%nat), fun k => uuid (S k))
               else (re, uuid)) =
              (set_re_ID re (if isEmpty (re_ID re) then uuid 0%nat
                             else re_ID re),
               instanceIDs uuid re)).
  { unfold instanceIDs. destruct (isEmpty (re_ID re)) eqn:E; [reflexivity|].
    destruct re; reflexivity. }
  rewrite E.
  change (re_Currency
            (set_re_ID re
               (if isEmpty (re_ID re) then uuid 0%nat else re_ID re)))
    with (re_Currency re).
  pose proof (defaultCurrency_tables db userID (re_Currency re))
    as [T1 [T2 _]].
  destruct (defaultCurrency db userID (re_Currency re)) as [c db1].
  cbn [fst snd] in *.
  change (re_ID
            (set_re_Currency
               (set_re_ID re
                  (if isEmpty (re_ID re) then uuid 0%nat else re_ID re)) c))
    with (if isEmpty (re_ID re) then uuid 0%nat else re_ID re).
  destruct (varchar 36 (if isEmpty (re_ID re) then uuid 0%nat else re_ID re))
    as [id'|]; [|reflexivity].
  destruct (ruleColumns _) as [stored|]; [|reflexivity].
  rewrite insertRows_one, T1, T2. cbn [ruleRow r_id].
  destruct (mem_str _ (map r_id (recurring_expenses db))); reflexivity.
Qed.

(** A rule that the tables hold as it is. *)
Lemma AddRecurringExpense_storable (uuid : nat -> gostring) (today : Time)
    (db : DB) (re : RecurringExpense) (loc : Location) :
  let id := ruleID uuid re in
  let currency := fst (defaultCurrency db userID (re_Currency re)) in
  let db1 := snd (defaultCurrency db userID (re_Currency re)) in
  let rule := set_re_Currency (set_re_ID re id) currency in
  ruleStorable loc rule = true ->
  AddRecurringExpense uuid today db userID re loc =
  if mem_str id (map r_id (recurring_expenses db))
  then (Err ConflictError, db1)
  else
    match insertRows x_id
            (map instanceRow
               (generateExpensesFromRecurring (instanceIDs uuid re) userID
                  rule loc today false))
            (expenses db) with
    | None => (Err ConflictError, db1)
    | Some rows =>
        (Ok tt,
         with_expenses
           (with_recurring db1
              (recurring_expenses db ++ [ruleRow userID rule]))
           rows)
    end.
Proof.
  cbv zeta. intros F. rewrite AddRecurringExpense_cases. cbv zeta.
  pose proof (generated_fit (instanceIDs uuid re) userID loc _ today false F)
    as G.
  unfold ruleStorable in F. rewrite !andb_true_iff in F.
  destruct F as [[F I] _].
  change (re_ID
            (set_re_Currency (set_re_ID re (ruleID uuid re))
               (fst (defaultCurrency db userID (re_Currency re)))))
    with (ruleID uuid re) in I.
  rewrite (varchar_within _ _ I), (ruleColumns_fits _ F).
  change (set_re_ID
            (set_re_Currency (set_re_ID re (ruleID uuid re))
               (fst (defaultCurrency db userID (re_Currency re))))
            (ruleID uuid re))
    with (set_re_Currency (set_re_ID re (ruleID uuid re))
            (fst (defaultCurrency db userID (re_Currency re)))).
  change (re_ID
            (set_re_Currency (set_re_ID re (ruleID uuid re))
               (fst (defaultCurrency db userID (re_Currency re)))))
    with (ruleID uuid re).
  destruct (mem_str (ruleID uuid re) (map r_id (recurring_expenses db)));
    [reflexivity|].
  unfold copyIn. rewrite forEach_fits.
  - destruct (insertRows x_id _ (expenses db)); reflexivity.
  - eapply Forall_impl; [|exact G]. cbv beta. intros e.
    apply expenseColumns_fits.
Qed.

(** X21.  [AddRecurringExpense] is all or nothing: when it fails, neither the
    rule nor any instance is stored, and the categories are as they
    were.  It fails for a value that a column does not hold or for a key
    that is taken; it does fail when the id of the rule, of at most 36
    characters, is taken by a rule of any user: with the error of the
    key, unless a field of the rule is one that its column does not
    hold, which is found first. *)
Theorem X21_AddRecurringExpense_atomic (uuid : nat -> gostring)
    (today : Time) (db : DB) (re : RecurringExpense) (loc : Location)
    (err : error) :
  let currency := fst (defaultCurrency db userID (re_Currency re)) in
  let rule := set_re_Currency (set_re_ID re (ruleID uuid re)) currency in
  let out := AddRecurringExpense uuid today db userID re loc in
  (fst out = Err err ->
   (err = ConflictError \/ err = DataError) /\
   expenses (snd out) = expenses db /\
   recurring_expenses (snd out) = recurring_expenses db /\
   categories (snd out) = categories db) /\
  (within 36 (ruleID uuid re) = true ->
   In (ruleID uuid re) (map r_id (recurring_expenses db)) ->
   (ruleColumns rule <> None -> fst out = Err ConflictError) /\
   (ruleColumns rule = None -> fst out = Err DataError)).
Proof.
  cbv zeta.
  rewrite (AddRecurringExpense_cases uuid today db re loc). cbv zeta.
  pose proof (defaultCurrency_tables db userID (re_Currency re)) as T.
  cbv zeta in T.
  destruct (varchar 36 (ruleID uuid re)) as [id'|] eqn:V.
  2:{ cbn [fst snd]. split.
      - intros H. injection H as <-. split; [auto | exact T].
      - intros W. rewrite (varchar_within _ _ W) in V. discriminate V. }
  destruct (ruleColumns _) as [stored|] eqn:C.
  2:{ cbn [fst snd]. split.
      - intros H. injection H as <-. split; [auto | exact T].
      - intros _ _. split; [intros N; contradiction | reflexivity]. }
  assert (I : re_ID (set_re_ID stored id') = id') by reflexivity.
  rewrite I. split.
  - destruct (mem_str id' (map r_id (recurring_expenses db))).
    + cbn [fst snd]. intros H. injection H as <-. split; [auto | exact T].
    + destruct (copyIn_cases
                  (generateExpensesFromRecurring (instanceIDs uuid re) userID
                     (set_re_Currency (set_re_ID re (ruleID uuid re))
                        (fst (defaultCurrency db userID (re_Currency re))))
                     loc today false) (expenses db))
        as [[_ ->] | [rows [_ [_ [_ ->]]]]]; cbn [fst snd].
      * intros H. injection H as <-. split; [auto | exact T].
      * destruct (insertRows x_id _ (expenses db)); cbn [fst snd];
          [discriminate|].
        intros H. injection H as <-. split; [auto | exact T].
  - intros W H. rewrite (varchar_within _ _ W) in V. injection V as <-.
    apply mem_str_In in H. rewrite H.
    split; [reflexivity | discriminate].
Qed.


Lemma delete_none {row : Type} (user : row -> gostring) (u : gostring)
    (c : row -> bool) (t : list row) :
  selectWhere user u c t = [] -> deleteWhere user u c t = t.
Proof.
  intros H. unfold deleteWhere. apply filter_all. intros r Hr.
  apply negb_true_iff. apply not_true_is_false. intros C.
  assert (I : In r (selectWhere user u c t))
    by (unfold selectWhere; apply filter_In; split; assumption).
  rewrite H in I. exact I.
Qed.

Lemma delete_all {row : Type} (user : row -> gostring) (u : gostring)
    (c : row -> bool) (t : list row) :
  selectWhere user u c t = t -> deleteWhere user u c t = [].
Proof.
  intros H. unfold deleteWhere. apply filter_none. intros r Hr.
  apply negb_false_iff. rewrite <- H in Hr. unfold selectWhere in Hr.
  apply filter_In in Hr. tauto.
Qed.

Lemma delete_app {row : Type} (user : row -> gostring) (u : gostring)
    (c : row -> bool) (t1 t2 : list row) :
  deleteWhere user u c (t1 ++ t2) =
  deleteWhere user u c t1 ++ deleteWhere user u c t2.
Proof. unfold deleteWhere. apply filter_app. Qed.

(** X23.  [RemoveRecurringExpense] succeeds exactly on a rule that
    [GetRecurringExpense] finds; otherwise it reports NotFoundError and
    leaves the database as it is, in either mode.  With
    [removeAll = true] the rule is gone afterwards and so is every
    expense of the user that carries its id, dated before [now] or after;
    the other rules read as before, and every other expense, of this
    user or another, stays. *)
Theorem X23_RemoveRecurringExpense_all (now : Time) (db : DB)
    (id : gostring) :
  (GetRecurringExpense db userID id = Err NotFoundError ->
   forall removeAll,
     RemoveRecurringExpense now db userID id removeAll =
     (Err NotFoundError, db)) /\
  (forall old,
     GetRecurringExpense db userID id = Ok old ->
     exists db',
       RemoveRecurringExpense now db userID id true = (Ok tt, db') /\
       GetRecurringExpense db' userID id = Err NotFoundError /\
       (forall id', id' <> id ->
          GetRecurringExpense db' userID id' =
          GetRecurringExpense db userID id') /\
       instancesOf userID id (expenses db') = [] /\
       (forall r, In r (expenses db') <->
          In r (expenses db) /\
          ~ (x_user_id r = userID /\ x_recurring_id r = Some id)) /\
       categories db' = categories db /\
       user_config db' = user_config db).
Proof.
  unfold RemoveRecurringExpense. split.
  - intros H removeAll. apply rule_missing in H. rewrite H. reflexivity.
  - intros old H. destruct (rule_found db id old H) as [n R]. rewrite R.
    eexists. split; [reflexivity|].
    cbn [expenses recurring_expenses categories user_config with_expenses
         with_recurring].
    split; [|split; [|split; [|split; [|split; reflexivity]]]].
    + apply GetRecurringExpense_missing.
      cbn [recurring_expenses with_expenses with_recurring].
      apply select_delete.
    + intros id' N. unfold GetRecurringExpense.
      cbn [recurring_expenses with_expenses with_recurring].
      rewrite select_after_delete; [reflexivity|].
      intros r Hr. exact (hasRuleID_other id' id r (not_eq_sym N) Hr).
    + apply instancesOf_deleteAll.
    + intros r. unfold deleteInstances.
      rewrite deleteWhere_In, ofRule_true. reflexivity.
Qed.


(** X25.  [UpdateRecurringExpense] succeeds only on a rule that
    [GetRecurringExpense] finds (on a rule that is not found it reports
    so, unless a new field is one that its column does not hold, which
    is found first), and is all or nothing: when it fails, rules,
    expenses and categories are as they were.  Once it has
    succeeded, [GetRecurringExpense] reads the new fields under the id of
    the call (the id that the new rule carries is not looked at, an empty
    currency is replaced by the currency of the user), as the columns
    store them: as they are when they fit.  Every other rule reads as
    before. *)
Theorem X25_UpdateRecurringExpense_round_trip (uuid : nat -> gostring)
    (now today : Time) (db : DB) (id : gostring) (re : RecurringExpense)
    (loc : Location) (updateAll : bool) :
  let currency := fst (defaultCurrency db userID (re_Currency re)) in
  let rule := ruleForUpdate userID db id re in
  let out :=
    UpdateRecurringExpense uuid now today db userID id re loc updateAll in
  (GetRecurringExpense db userID id = Err NotFoundError ->
   (ruleColumns rule <> None -> fst out = Err NotFoundError) /\
   (ruleColumns rule = None -> fst out = Err DataError)) /\
  (forall err, fst out = Err err ->
     expenses (snd out) = expenses db /\
     recurring_expenses (snd out) = recurring_expenses db /\
     categories (snd out) = categories db) /\
  (fst out = Ok tt ->
   (exists old, GetRecurringExpense db userID id = Ok old) /\
   (exists stored,
      ruleColumns rule = Some stored /\
      GetRecurringExpense (snd out) userID id =
        Ok (storedRule id (re_Currency stored) stored)) /\
   (ruleFits rule = true ->
    GetRecurringExpense (snd out) userID id =
      Ok (storedRule id currency re)) /\
   (forall id', id' <> id ->
      GetRecurringExpense (snd out) userID id' =
      GetRecurringExpense db userID id') /\
   map r_id (recurring_expenses (snd out)) =
     map r_id (recurring_expenses db)).
Proof.
  cbv zeta. unfold UpdateRecurringExpense, updateRecurringTx, ruleForUpdate.
  pose proof (defaultCurrency_tables db userID (re_Currency re))
    as [T1 [T2 T3]].
  change (re_Currency (set_re_ID re id)) with (re_Currency re).
  assert (G1 : forall id', GetRecurringExpense
                 (snd (defaultCurrency db userID (re_Currency re)))
                 userID id' = GetRecurringExpense db userID id').
  { intros id'. unfold GetRecurringExpense. rewrite T2. reflexivity. }
  destruct (defaultCurrency db userID (re_Currency re)) as [c db1].
  cbn [fst snd] in *.
  destruct (ruleColumns (set_re_Currency (set_re_ID re id) c))
    as [stored|] eqn:C.
  2:{ cbn [fst snd]. split; [intros _; split; [contradiction | reflexivity]|].
      split; [intros; tauto | discriminate]. }
  destruct (rowsAffected r_user_id userID (hasRuleID id)
              (recurring_expenses db1)) as [|n] eqn:R.
  { cbn [fst snd]. split; [intros _; split; [reflexivity | discriminate]|].
    split; [intros; tauto | discriminate]. }
  assert (F : exists old, GetRecurringExpense db userID id = Ok old).
  { rewrite <- G1.
    destruct (GetRecurringExpense_cases db1 id)
      as [[E G] | [r [rest [E G]]]].
    - unfold rowsAffected in R. rewrite E in R. discriminate R.
    - rewrite G. eexists. reflexivity. }
  destruct (copyIn _ _) as [rows|err']; cbn [fst snd].
  2:{ split; [destruct F as [old F]; rewrite F; discriminate|].
      split; [intros; tauto | discriminate]. }
  cbn [expenses recurring_expenses categories with_expenses with_recurring].
  split; [destruct F as [old F]; rewrite F; discriminate|].
  split; [discriminate|]. intros _. split; [exact F|].
  assert (Back : GetRecurringExpense
                   (with_expenses
                      (with_recurring db1
                         (updateWhere r_user_id userID (hasRuleID id)
                            (setRule stored) (recurring_expenses db1)))
                      rows) userID id =
                 Ok (storedRule id (re_Currency stored) stored)).
  { unfold GetRecurringExpense in *.
    cbn [recurring_expenses with_expenses with_recurring].
    rewrite select_updated by reflexivity.
    destruct (ruleOf id (recurring_expenses db1)) as [|r rest] eqn:E;
      [unfold rowsAffected in R; rewrite E in R; discriminate R|].
    assert (I : In r (ruleOf id (recurring_expenses db1)))
      by (rewrite E; left; reflexivity).
    apply select_In in I. destruct I as [_ [_ I]].
    apply hasRuleID_true in I. cbn [map]. f_equal.
    unfold scanRecurringExpense, setRule, storedRule.
    cbn [r_id r_name r_amount r_currency r_tags r_category r_start_date
         r_interval r_occurrences].
    rewrite I. reflexivity. }
  split; [exists stored; split; [reflexivity | exact Back]|].
  split; [|split].
  - intros Fit. rewrite (ruleColumns_fits _ Fit) in C. injection C as <-.
    rewrite Back. reflexivity.
  - intros id' N. rewrite <- (G1 id'). unfold GetRecurringExpense.
    cbn [recurring_expenses with_expenses with_recurring].
    rewrite select_after_update; [reflexivity|].
    intros r Hr. split; apply (hasRuleID_other id id'); try exact N;
      [exact Hr | exact Hr].
  - rewrite <- T2. unfold updateWhere. rewrite map_map.
    apply map_ext. intros r.
    destruct (owned r_user_id userID r && hasRuleID id r); reflexivity.
Qed.

End RuleFacts.

(** ** The keys of the schema *)

Lemma NoDup_snoc {A : Type} (l : list A) (a : A) :
  NoDup l -> ~ In a l -> NoDup (l ++ [a]).
Proof.
  intros N H. apply (Permutation_NoDup (Permutation_cons_append l a)).
  constructor; assumption.
Qed.

Lemma insertRows_keys {row : Type} (key : row -> gostring)
    (rows : list row) :
  forall t t',
    insertRows key rows t = Some t' ->
    NoDup (map key t) -> NoDup (map key t').
Proof.
  induction rows as [|r rows IH]; intros t t' H N; cbn [insertRows] in H.
  - injection H as <-. exact N.
  - destruct (mem_str (key r) (map key t)) eqn:M; [discriminate|].
    apply (IH _ _ H). rewrite map_app. apply NoDup_snoc; [exact N|].
    apply mem_str_false. exact M.
Qed.

Lemma updateWhere_keys {row : Type} (user key : row -> gostring)
    (u : gostring) (c : row -> bool) (set : row -> row) (t : list row) :
  (forall r, key (set r) = key r) ->
  map key (updateWhere user u c set t) = map key t.
Proof.
  intros H. unfold updateWhere. rewrite map_map. apply map_ext.
  intros r. destruct (owned user u r && c r); [apply H | reflexivity].
Qed.

Lemma deleteWhere_keys {row K : Type} (user : row -> gostring)
    (key : row -> K) (u : gostring) (c : row -> bool) (t : list row) :
  NoDup (map key t) -> NoDup (map key (deleteWhere user u c t)).
Proof. unfold deleteWhere. apply NoDup_map_filter. Qed.

Section KeyFacts.

Variable userID : gostring.

Lemma getOrCreateUserConfig_keys (db : DB) :
  wellKeyed db -> wellKeyed (snd (getOrCreateUserConfig db userID)).
Proof.
  intros [K1 [K2 [K3 K4]]].
  destruct (getOrCreateUserConfig_cases userID db)
    as [[E ->] | [r [rest [E ->]]]]; cbn [snd];
    [|repeat split; assumption].
  unfold wellKeyed.
  cbn [expenses recurring_expenses categories user_config with_user_config].
  repeat split; try assumption.
  rewrite map_app. apply NoDup_snoc; [exact K4|]. cbn [map u_user_id].
  intros I. apply in_map_iff in I. destruct I as [r [R1 R2]].
  assert (C : In r (selectWhere u_user_id userID any (user_config db)))
    by (apply select_In; tauto).
  rewrite E in C. exact C.
Qed.

Lemma defaultCurrency_keys (db : DB) (currency : gostring) :
  wellKeyed db -> wellKeyed (snd (defaultCurrency db userID currency)).
Proof.
  intros K. unfold defaultCurrency, GetCurrency.
  destruct (isEmpty currency); [|exact K].
  pose proof (getOrCreateUserConfig_keys db K) as G.
  destruct (getOrCreateUserConfig db userID) as [[c d] db1]. exact G.
Qed.

Lemma upsertUserConfig_keys (db : DB) (new : userConfigRow)
    (set : userConfigRow -> userConfigRow) :
  (forall r, u_user_id (set r) = u_user_id r) ->
  wellKeyed db ->
  let db1 := snd (getOrCreateUserConfig db userID) in
  wellKeyed
    (with_user_config db1
       (upsertUserConfig userID new set (user_config db1))).
Proof.
  intros H K db1.
  pose proof (getOrCreateUserConfig_keys db K) as [K1 [K2 [K3 K4]]].
  fold db1 in K1, K2, K3, K4.
  rewrite upsertUserConfig_present by apply configOf_settled.
  unfold wellKeyed.
  cbn [expenses recurring_expenses categories user_config with_user_config].
  repeat split; try assumption.
  rewrite updateWhere_keys by exact H. exact K4.
Qed.

Lemma GetCategories_keys (db : DB) :
  wellKeyed db -> wellKeyed (snd (GetCategories db userID)).
Proof.
  intros K. unfold GetCategories.
  destruct (getCategoriesFromTable db userID); [|exact K].
  destruct K as [K1 [K2 [K3 K4]]]. cbn [snd]. unfold seedCategories, wellKeyed.
  cbn [expenses recurring_expenses categories user_config with_categories].
  repeat split; try assumption.
  apply upsertCategories_unique. exact K3.
Qed.

Lemma updateCategoriesTable_keys (db : DB) (names : list gostring) :
  wellKeyed db -> wellKeyed (snd (updateCategoriesTable db userID names)).
Proof.
  intros K.
  destruct (updateCategoriesTable_cases userID db names)
    as [[_ ->] | [_ ->]]; [|exact K].
  destruct K as [K1 [K2 [K3 K4]]]. cbn [snd]. unfold wellKeyed.
  cbn [expenses recurring_expenses categories user_config with_categories].
  repeat split; try assumption.
  apply reconciled_unique. exact K3.
Qed.

Lemma AddExpense_keys (uuid : nat -> gostring) (now : Time) (db : DB)
    (expense : Expense) :
  wellKeyed db -> wellKeyed (snd (AddExpense uuid now db userID expense)).
Proof.
  intros K.
  pose proof (defaultCurrency_keys db (e_Currency expense) K) as D.
  pose proof (defaultCurrency_tables db userID (e_Currency expense))
    as [T1 _].
  rewrite (AddExpense_cases userID uuid now db expense). cbv zeta.
  destruct (match varchar 36 _ with Some _ => _ | None => None end)
    as [stored|]; cbn [snd]; [|exact D].
  destruct (mem_str _ (map x_id (expenses db))) eqn:M; cbn [snd];
    [exact D|].
  destruct D as [K1 [K2 [K3 K4]]]. unfold wellKeyed.
  cbn [expenses recurring_expenses categories user_config with_expenses].
  repeat split; try assumption.
  rewrite map_app. apply NoDup_snoc; [rewrite <- T1; exact K1|].
  apply mem_str_false. exact M.
Qed.

Lemma AddMultipleExpenses_keys (batch : list Expense) :
  forall (uuid : nat -> gostring) (now : nat -> Time) (db : DB),
    wellKeyed db ->
    wellKeyed (snd (AddMultipleExpenses uuid now db userID batch)).
Proof.
  induction batch as [|exp rest IH]; intros uuid now db K; [exact K|].
  cbn [AddMultipleExpenses].
  pose proof (AddExpense_keys uuid (now 0%nat) db exp K) as A.
  destruct (AddExpense uuid (now 0%nat) db userID exp) as [[[]|err] db1];
    cbn [snd] in *; [apply IH; exact A | exact A].
Qed.

Lemma copyIn_keys (l : list Expense) (t rows : list expenseRow) :
  copyIn l t = Ok rows -> NoDup (map x_id t) -> NoDup (map x_id rows).
Proof.
  intros H N.
  destruct (copyIn_cases l t) as [[_ E] | [stored [_ [_ [_ E]]]]];
    rewrite E in H; [discriminate|].
  destruct (insertRows x_id (map instanceRow stored) t) as [rows'|] eqn:I;
    [|discriminate].
  injection H as <-. exact (insertRows_keys _ _ _ _ I N).
Qed.

Lemma AddRecurringExpense_keys (uuid : nat -> gostring) (today : Time)
    (db : DB) (re : RecurringExpense) (loc : Location) :
  wellKeyed db ->
  wellKeyed (snd (AddRecurringExpense uuid today db userID re loc)).
Proof.
  intros K.
  pose proof (defaultCurrency_keys db (re_Currency re) K) as D.
  pose proof (defaultCurrency_tables db userID (re_Currency re))
    as [T1 [T2 _]].
  rewrite (AddRecurringExpense_cases userID uuid today db re loc). cbv zeta.
  destruct (match varchar 36 _ with Some _ => _ | None => None end)
    as [stored|]; cbn [snd]; [|exact D].
  destruct (mem_str _ (map r_id (recurring_expenses db))) eqn:M; cbn [snd];
    [exact D|].
  destruct (copyIn _ (expenses db)) as [rows|err] eqn:I; cbn [snd];
    [|exact D].
  destruct D as [K1 [K2 [K3 K4]]]. unfold wellKeyed.
  cbn [expenses recurring_expenses categories user_config with_expenses
       with_recurring].
  repeat split; try assumption.
  - apply (copyIn_keys _ _ _ I). rewrite <- T1. exact K1.
  - rewrite map_app. apply NoDup_snoc; [rewrite <- T2; exact K2|].
    apply mem_str_false. exact M.
Qed.

Lemma UpdateExpense_keys (db : DB) (id : gostring) (expense : Expense) :
  wellKeyed db -> wellKeyed (snd (UpdateExpense db userID id expense)).
Proof.
  intros K. unfold UpdateExpense.
  pose proof (defaultCurrency_keys db (e_Currency expense) K) as D.
  destruct (defaultCurrency db userID (e_Currency expense)) as [c db1].
  cbn [snd] in D.
  destruct (expenseColumns _) as [stored|]; [|exact D].
  destruct (rowsAffected x_user_id userID (hasID id) (expenses db1));
    [exact D|].
  destruct D as [K1 [K2 [K3 K4]]]. cbn [snd]. unfold wellKeyed.
  cbn [expenses recurring_expenses categories user_config with_expenses].
  repeat split; try assumption.
  rewrite updateWhere_keys by reflexivity. exact K1.
Qed.

Lemma RemoveExpense_keys (db : DB) (id : gostring) :
  wellKeyed db -> wellKeyed (snd (RemoveExpense db userID id)).
Proof.
  intros K. unfold RemoveExpense.
  destruct (rowsAffected x_user_id userID (hasID id) (expenses db));
    [exact K|].
  destruct K as [K1 [K2 [K3 K4]]]. cbn [snd]. unfold wellKeyed.
  cbn [expenses recurring_expenses categories user_config with_expenses].
  repeat split; try assumption. apply deleteWhere_keys. exact K1.
Qed.

Lemma RemoveMultipleExpenses_keys (db : DB) (ids : list gostring) :
  wellKeyed db -> wellKeyed (snd (RemoveMultipleExpenses db userID ids)).
Proof.
  intros K. unfold RemoveMultipleExpenses. destruct ids; [exact K|].
  destruct K as [K1 [K2 [K3 K4]]]. cbn [snd]. unfold wellKeyed.
  cbn [expenses recurring_expenses categories user_config with_expenses].
  repeat split; try assumption. apply deleteWhere_keys. exact K1.
Qed.

Lemma deleteInstances_keys (id : gostring) (all : bool) (now : Time)
    (t : list expenseRow) :
  NoDup (map x_id t) ->
  NoDup (map x_id (deleteInstances userID id all now t)).
Proof.
  intros N. unfold deleteInstances.
  destruct all; apply deleteWhere_keys; exact N.
Qed.

Lemma RemoveRecurringExpense_keys (now : Time) (db : DB) (id : gostring)
    (removeAll : bool) :
  wellKeyed db ->
  wellKeyed (snd (RemoveRecurringExpense now db userID id removeAll)).
Proof.
  intros K. unfold RemoveRecurringExpense.
  destruct (rowsAffected r_user_id userID (hasRuleID id)
              (recurring_expenses db)); [exact K|].
  destruct K as [K1 [K2 [K3 K4]]]. cbn [snd]. unfold wellKeyed.
  cbn [expenses recurring_expenses categories user_config with_expenses
       with_recurring].
  repeat split; try assumption.
  - apply deleteInstances_keys. exact K1.
  - apply deleteWhere_keys. exact K2.
Qed.

Lemma UpdateRecurringExpense_keys (uuid : nat -> gostring)
    (now today : Time) (db : DB) (id : gostring) (re : RecurringExpense)
    (loc : Location) (updateAll : bool) :
  wellKeyed db ->
  wellKeyed
    (snd (UpdateRecurringExpense uuid now today db userID id re loc
            updateAll)).
Proof.
  intros K. unfold UpdateRecurringExpense, updateRecurringTx.
  cbn [re_Currency set_re_ID].
  pose proof (defaultCurrency_keys db (re_Currency re) K) as D.
  destruct (defaultCurrency db userID (re_Currency re)) as [c db1].
  cbn [snd] in D.
  destruct (ruleColumns _) as [stored|]; [|exact D].
  destruct (rowsAffected r_user_id userID (hasRuleID id)
              (recurring_expenses db1)); [exact D|].
  destruct (copyIn _ _) as [rows|err] eqn:I; cbn [snd]; [|exact D].
  destruct D as [K1 [K2 [K3 K4]]]. unfold wellKeyed.
  cbn [expenses recurring_expenses categories user_config with_expenses
       with_recurring].
  repeat split; try assumption.
  - apply (copyIn_keys _ _ _ I). apply deleteInstances_keys. exact K1.
  - rewrite updateWhere_keys by reflexivity. exact K2.
Qed.

(** X26.  Every operation of the store keeps the keys of the schema: on a
    database where the ids of the expenses are distinct, the ids of the
    rules are distinct, no user has a category twice and no user has two
    configuration rows, this is so again after any read, update, delete
    or insert, whether it succeeds or fails. *)
Theorem X26_operations_keep_the_keys (env : environment) (db : DB) :
  wellKeyed db ->
  (forall req, wellKeyed (snd (serve env db userID req))) /\
  (forall expense,
     wellKeyed
       (snd (AddExpense (env_uuid env) (env_now env) db userID expense))) /\
  (forall now batch,
     wellKeyed
       (snd (AddMultipleExpenses (env_uuid env) now db userID batch))) /\
  (forall re loc,
     wellKeyed
       (snd (AddRecurringExpense (env_uuid env) (env_today env) db userID
               re loc))).
Proof.
  intros K. split; [|split; [|split]].
  - intros req. destruct req; cbn [serve].
    + unfold GetConfig.
      pose proof (getOrCreateUserConfig_keys db K) as G.
      destruct (getOrCreateUserConfig db userID) as [[c d] db1].
      cbn [snd] in G. pose proof (GetCategories_keys db1 G) as C.
      destruct (GetCategories db1 userID) as [names db2]. exact C.
    + pose proof (GetCategories_keys db K) as C.
      destruct (GetCategories db userID) as [names' db1]. exact C.
    + pose proof (updateCategoriesTable_keys db names K) as C.
      unfold UpdateCategories.
      destruct (updateCategoriesTable db userID names) as [o db1]. exact C.
    + unfold GetCurrency. pose proof (getOrCreateUserConfig_keys db K) as G.
      destruct (getOrCreateUserConfig db userID) as [[c d] db1]. exact G.
    + unfold UpdateCurrency.
      destruct (negb (mem_str currency SupportedCurrencies)); [exact K|].
      pose proof (upsertUserConfig_keys db
                    (mkUserConfigRow userID currency
                       (snd (fst (getOrCreateUserConfig db userID))))
                    (fun r => mkUserConfigRow (u_user_id r) currency
                                (u_start_date r))
                    ltac:(reflexivity) K) as U.
      cbv zeta in U.
      destruct (getOrCreateUserConfig db userID) as [[c d] db1]. exact U.
    + unfold GetStartDate. pose proof (getOrCreateUserConfig_keys db K) as G.
      destruct (getOrCreateUserConfig db userID) as [[c d] db1]. exact G.
    + unfold UpdateStartDate.
      destruct ((startDate <? 1) || (31 <? startDate)); [exact K|].
      pose proof (upsertUserConfig_keys db
                    (mkUserConfigRow userID
                       (fst (fst (getOrCreateUserConfig db userID)))
                       startDate)
                    (fun r => mkUserConfigRow (u_user_id r) (u_currency r)
                                startDate)
                    ltac:(reflexivity) K) as U.
      cbv zeta in U.
      destruct (getOrCreateUserConfig db userID) as [[c d] db1]. exact U.
    + exact K.
    + exact K.
    + pose proof (RemoveRecurringExpense_keys (env_now env) db id removeAll K)
        as R.
      destruct (RemoveRecurringExpense (env_now env) db userID id removeAll).
      exact R.
    + pose proof (UpdateRecurringExpense_keys (env_uuid env) (env_now env)
                    (env_today env) db id recurringExpense loc updateAll K)
        as R.
      destruct (UpdateRecurringExpense (env_uuid env) (env_now env)
                  (env_today env) db userID id recurringExpense loc
                  updateAll).
      exact R.
    + exact K.
    + exact K.
    + pose proof (RemoveExpense_keys db id K) as R.
      destruct (RemoveExpense db userID id). exact R.
    + pose proof (RemoveMultipleExpenses_keys db ids K) as R.
      destruct (RemoveMultipleExpenses db userID ids). exact R.
    + pose proof (UpdateExpense_keys db id expense K) as R.
      destruct (UpdateExpense db userID id expense). exact R.
  - intros expense. apply AddExpense_keys. exact K.
  - intros now batch. apply AddMultipleExpenses_keys. exact K.
  - intros re loc. apply AddRecurringExpense_keys. exact K.
Qed.

End KeyFacts.

(** ** Users and sessions *)

Section UserFacts.

Variable unicodeLower : rune -> rune.

#[local] Abbreviation normalize email :=
  (ToLower unicodeLower (TrimSpace email)).

Lemma filter_snoc_only {A : Type} (P : A -> bool) (t : list A) (a : A) :
  (forall x, In x t -> P x = false) -> P a = true ->
  filter P (t ++ [a]) = [a].
Proof.
  intros H1 H2. rewrite filter_app, (filter_none P t H1).
  cbn [filter app]. rewrite H2. reflexivity.
Qed.

Lemma filter_snoc_keep {A : Type} (P : A -> bool) (t : list A) (a : A)
    (x : A) (rest : list A) :
  filter P t = x :: rest -> exists rest', filter P (t ++ [a]) = x :: rest'.
Proof.
  intros H. rewrite filter_app, H. eexists. reflexivity.
Qed.


(** X28.  A user whom [CreateUser] has stored, under an identifier that had
    no configuration and no category, is provisioned: [GetCurrency] reads
    usd, [GetStartDate] reads 1 and [GetCategories] reads the ten default
    categories, and none of the three writes; expenses and rules are
    untouched. *)
Theorem X28_CreateUser_provisions (uuid : nat -> gostring)
    (createdAt : Time) (st : Store) (email passwordHash : gostring)
    (user : User) (st' : Store) :
  CreateUser unicodeLower uuid createdAt st email passwordHash =
    (Ok user, st') ->
  selectWhere u_user_id (usr_ID user) any (user_config (data st)) = [] ->
  selectWhere c_user_id (usr_ID user) any (categories (data st)) = [] ->
  GetCurrency (data st') (usr_ID user) = (lit "usd", data st') /\
  GetStartDate (data st') (usr_ID user) = (1, data st') /\
  GetCategories (data st') (usr_ID user) = (defaultCategories, data st') /\
  expenses (data st') = expenses (data st) /\
  recurring_expenses (data st') = recurring_expenses (data st).
Proof.
  unfold CreateUser. cbn [usr_ID usr_Email usr_PasswordHash usr_Status].
  destruct (mem_str _ _ || mem_str _ _); [discriminate|].
  intros H. injection H as <- <-. cbn [usr_ID data with_data with_users].
  intros E1 E2.
  unfold ensureUserConfig. rewrite E1. cbn [length].
  unfold ensureUserCategories.
  cbn [categories with_user_config SetBaseConfig cfg_Currency cfg_StartDate].
  rewrite E2. cbn [length Nat.eqb].
  set (id := uuid 0%nat) in *.
  set (db1 := with_user_config (data st)
                (user_config (data st) ++ [mkUserConfigRow id (lit "usd") 1])).
  assert (C : selectWhere u_user_id id any (user_config db1) =
              [mkUserConfigRow id (lit "usd") 1]).
  { unfold db1. cbn [user_config with_user_config].
    rewrite select_app_own by reflexivity. rewrite E1. reflexivity. }
  assert (G : getOrCreateUserConfig (seedCategories db1 id defaultCategories)
                id = (lit "usd", 1, seedCategories db1 id defaultCategories)).
  { apply (getOrCreateUserConfig_read id _
             (mkUserConfigRow id (lit "usd") 1) []).
    exact C. }
  unfold GetCurrency, GetStartDate. rewrite G.
  split; [reflexivity|]. split; [reflexivity|]. split; [|split; reflexivity].
  assert (E2' : selectWhere c_user_id id any (categories db1) = [])
    by exact E2.
  pose proof (GetCategories_settles id db1) as S.
  assert (Gc : GetCategories db1 id =
               (defaultCategories, seedCategories db1 id defaultCategories)).
  { unfold GetCategories, getCategoriesFromTable. rewrite E2'. reflexivity. }
  rewrite Gc in S. cbn [fst snd] in S. exact S.
Qed.

(** X29.  [normalizeFlow] accepts exactly a flow that, trimmed and in lower
    case, is empty or one of income, refund and expense.  What it returns
    is one of these three with an amount of the same magnitude, not
    positive for an expense and not negative otherwise, and is returned
    unchanged when normalised again.  Without a flow the amount keeps its
    sign: a positive amount is an income, any other an expense. *)
Theorem X29_normalizeFlow_signs (raw : gostring) (amount : Z) :
  (forall flow amount',
     normalizeFlow unicodeLower raw amount = Ok (flow, amount') ->
     In flow flows /\ Z.abs amount' = Z.abs amount /\
     (flow = lit "expense" -> amount' <= 0) /\
     (flow <> lit "expense" -> 0 <= amount') /\
     normalizeFlow unicodeLower flow amount' = Ok (flow, amount')) /\
  (normalize raw = [] ->
   normalizeFlow unicodeLower raw amount =
   Ok (if 0 <? amount then lit "income" else lit "expense", amount)) /\
  (normalizeFlow unicodeLower raw amount = Err ValidationError <->
   normalize raw <> [] /\ ~ In (normalize raw) flows).
Proof.
  assert (I : forall a, 0 <= a ->
                normalizeFlow unicodeLower (lit "income") a
                = Ok (lit "income", a)).
  { intros a H. unfold normalizeFlow.
    change (ToLower unicodeLower (TrimSpace (lit "income")))
      with (lit "income").
    cbn [isEmpty lit]. change (str_eqb (lit "income") (lit "income")) with true.
    cbv iota. rewrite Z.abs_eq by exact H. reflexivity. }
  assert (R : forall a, 0 <= a ->
                normalizeFlow unicodeLower (lit "refund") a
                = Ok (lit "refund", a)).
  { intros a H. unfold normalizeFlow.
    change (ToLower unicodeLower (TrimSpace (lit "refund")))
      with (lit "refund").
    change (isEmpty (lit "refund")) with false.
    change (str_eqb (lit "refund") (lit "income")) with false.
    change (str_eqb (lit "refund") (lit "refund")) with true.
    cbv iota. rewrite Z.abs_eq by exact H. reflexivity. }
  assert (E : forall a, a <= 0 ->
                normalizeFlow unicodeLower (lit "expense") a
                = Ok (lit "expense", a)).
  { intros a H. unfold normalizeFlow.
    change (ToLower unicodeLower (TrimSpace (lit "expense")))
      with (lit "expense").
    change (isEmpty (lit "expense")) with false.
    change (str_eqb (lit "expense") (lit "income")) with false.
    change (str_eqb (lit "expense") (lit "refund")) with false.
    change (str_eqb (lit "expense") (lit "expense")) with true.
    cbv iota. rewrite Z.abs_neq by exact H. rewrite Z.opp_involutive.
    reflexivity. }
  unfold normalizeFlow, flows.
  set (n := ToLower unicodeLower (TrimSpace raw)).
  set (flow0 := if isEmpty n
                then (if 0 <? amount then lit "income" else lit "expense")
                else n).
  assert (F0 : isEmpty n = true -> flow0 =
               if 0 <? amount then lit "income" else lit "expense").
  { intros H. unfold flow0. rewrite H. reflexivity. }
  assert (F1 : isEmpty n = false -> flow0 = n).
  { intros H. unfold flow0. rewrite H. reflexivity. }
  clearbody flow0.
  split; [|split].
  - intros flow amount' H.
    destruct (str_eqb flow0 (lit "income")) eqn:B1.
    { apply str_eqb_eq in B1. injection H as <- <-. rewrite B1.
      pose proof (Z.abs_nonneg amount). repeat split.
      - cbn [In]. tauto.
      - apply Z.abs_eq. lia.
      - discriminate.
      - lia.
      - apply I. lia. }
    destruct (str_eqb flow0 (lit "refund")) eqn:B2.
    { apply str_eqb_eq in B2. injection H as <- <-. rewrite B2.
      pose proof (Z.abs_nonneg amount). repeat split.
      - cbn [In]. tauto.
      - apply Z.abs_eq. lia.
      - discriminate.
      - lia.
      - apply R. lia. }
    destruct (str_eqb flow0 (lit "expense")) eqn:B3; [|discriminate].
    apply str_eqb_eq in B3. injection H as <- <-. rewrite B3.
    pose proof (Z.abs_nonneg amount). repeat split.
    + cbn [In]. tauto.
    + rewrite Z.abs_opp. apply Z.abs_eq. lia.
    + lia.
    + intros C. contradiction.
    + apply E. lia.
  - intros H. assert (H' : isEmpty n = true) by (rewrite H; reflexivity).
    rewrite (F0 H').
    destruct (Z.ltb_spec 0 amount) as [P | P].
    + change (str_eqb (lit "income") (lit "income")) with true. cbv iota.
      rewrite Z.abs_eq by lia. reflexivity.
    + change (str_eqb (lit "expense") (lit "income")) with false.
      change (str_eqb (lit "expense") (lit "refund")) with false.
      change (str_eqb (lit "expense") (lit "expense")) with true.
      cbv iota. rewrite Z.abs_neq by exact P. rewrite Z.opp_involutive.
      reflexivity.
  - destruct (isEmpty n) eqn:N.
    + rewrite (F0 eq_refl). apply isEmpty_true in N.
      split; [|intros [C _]; contradiction].
      destruct (0 <? amount).
      * change (str_eqb (lit "income") (lit "income")) with true.
        discriminate.
      * change (str_eqb (lit "expense") (lit "income")) with false.
        change (str_eqb (lit "expense") (lit "refund")) with false.
        change (str_eqb (lit "expense") (lit "expense")) with true.
        discriminate.
    + rewrite (F1 eq_refl). apply isEmpty_false in N. cbn [In].
      destruct (str_eqb n (lit "income")) eqn:B1;
        [apply str_eqb_eq in B1; split; [discriminate | intuition congruence]|].
      destruct (str_eqb n (lit "refund")) eqn:B2;
        [apply str_eqb_eq in B2; split; [discriminate | intuition congruence]|].
      destruct (str_eqb n (lit "expense")) eqn:B3;
        [apply str_eqb_eq in B3; split; [discriminate | intuition congruence]|].
      apply str_eqb_neq in B1, B2, B3.
      split; [|reflexivity]. intros _. split; [exact N|].
      intuition congruence.
Qed.

End UserFacts.

(** ** Sessions *)

Lemma sessions_free (id : gostring) (t : list sessionRow) :
  ~ In id (map sr_id t) ->
  filter (fun r => str_eqb (sr_id r) id) t = [].
Proof.
  intros H. apply filter_none. intros r Hr. apply str_eqb_neq.
  intros C. apply H. rewrite <- C. apply in_map. exact Hr.
Qed.

Lemma GetSession_deleted (st : Store) (id : gostring) :
  GetSession (DeleteSession st id) id = ErrNoRows.
Proof.
  unfold GetSession, DeleteSession. cbn [sessions with_sessions].
  rewrite filter_none; [reflexivity|].
  intros r Hr. apply filter_In in Hr. destruct Hr as [_ Hr].
  apply negb_true_iff in Hr. exact Hr.
Qed.

Lemma GetSession_other (st : Store) (id id' : gostring) :
  id' <> id -> GetSession (DeleteSession st id) id' = GetSession st id'.
Proof.
  intros N. unfold GetSession, DeleteSession. cbn [sessions with_sessions].
  assert (E : filter (fun r => str_eqb (sr_id r) id')
                (filter (fun r => negb (str_eqb (sr_id r) id)) (sessions st))
              = filter (fun r => str_eqb (sr_id r) id') (sessions st)).
  { induction (sessions st) as [|r t IH]; [reflexivity|].
    cbn [filter]. destruct (str_eqb (sr_id r) id) eqn:A; cbn [negb].
    - destruct (str_eqb (sr_id r) id') eqn:B; [|exact IH].
      apply str_eqb_eq in A, B. congruence.
    - cbn [filter]. rewrite IH. reflexivity. }
  rewrite E. reflexivity.
Qed.

(** X30.  A session that [createSession] stores under a fresh identifier
    expires 24 hours after its creation, or 30 days after it when the
    user asked to be remembered; it is stored when its columns hold it:
    an identifier of at most 64 characters, an ip of at most 100, a
    creation time and an expiry within the range of TIMESTAMPTZ.  Up to
    the expiry [RequireAuth] lets a request with its cookie through, as
    the user of the session, and changes nothing; later it answers that
    the session has expired and deletes the session, after which, as
    after a logout, the cookie is answered as unauthorized.  Deleting the
    session leaves the others as they are. *)
Theorem X30_session_lifetime (sessionID : gostring) (created later : Time)
    (ip userAgent : gostring) (st : Store) (userID : gostring)
    (remember : bool) :
  let expires :=
    created + (if remember then 30 * 24 * Hour else 24 * Hour) in
  sessionID <> [] ->
  ~ In sessionID (map sr_id (sessions st)) ->
  within 64 sessionID = true ->
  within 100 ip = true ->
  inTimestampRange (if IsZero created then later else created) = true ->
  inTimestampRange expires = true ->
  exists st',
    createSession sessionID created later ip userAgent st userID remember =
      (Ok (mkSession sessionID userID created expires ip userAgent), st') /\
    (forall now, now <= expires ->
       RequireAuth now st' (Some sessionID) = (Next userID, st')) /\
    (forall now, expires < now ->
       RequireAuth now st' (Some sessionID) =
       (SessionExpired, DeleteSession st' sessionID)) /\
    (forall now,
       RequireAuth now (DeleteSession st' sessionID) (Some sessionID) =
       (Unauthorized true, DeleteSession st' sessionID)) /\
    AuthLogout st' (Some sessionID) = DeleteSession st' sessionID /\
    (forall other, other <> sessionID ->
       GetSession (DeleteSession st' sessionID) other =
       GetSession st other).
Proof.
  intros expires Hne Hfree Hid Hip Hcreated Hexpires.
  unfold createSession, CreateSession, sessionColumns.
  cbn [ses_ID ses_UserID ses_CreatedAt ses_ExpiresAt ses_IP ses_UserAgent].
  fold Hour. change sessionRememberDuration with (30 * 24 * Hour).
  change sessionDuration with (24 * Hour). fold expires.
  rewrite (varchar_within _ _ Hid), (varchar_within _ _ Hip),
    (timestamptz_fits _ Hcreated), (timestamptz_fits _ Hexpires).
  cbn [ses_ID ses_UserID ses_CreatedAt ses_ExpiresAt ses_IP ses_UserAgent].
  rewrite insertRows_one. cbn [sr_id].
  apply mem_str_false in Hfree. rewrite Hfree.
  eexists. split; [reflexivity|].
  set (row := mkSessionRow sessionID userID
                (if IsZero created then later else created) expires
                (Some ip) (Some userAgent)).
  set (st' := with_sessions st (sessions st ++ [row])).
  assert (G : GetSession st' sessionID =
              FoundSession
                (mkSession sessionID userID
                   (if IsZero created then later else created) expires
                   ip userAgent)).
  { unfold GetSession, st'. cbn [sessions with_sessions].
    rewrite filter_app.
    rewrite (sessions_free sessionID (sessions st))
      by (apply mem_str_false; exact Hfree).
    cbn [filter app row sr_id]. rewrite str_eqb_refl. reflexivity. }
  assert (E : isEmpty sessionID = false) by (apply isEmpty_false; exact Hne).
  split; [|split; [|split; [|split]]].
  - intros now H. unfold RequireAuth. rewrite E, G.
    cbn [ses_ExpiresAt ses_UserID ses_ID].
    assert (L : (expires <? now) = false) by (apply Z.ltb_ge; exact H).
    rewrite L. reflexivity.
  - intros now H. unfold RequireAuth. rewrite E, G.
    cbn [ses_ExpiresAt ses_UserID ses_ID].
    assert (L : (expires <? now) = true) by (apply Z.ltb_lt; exact H).
    rewrite L. reflexivity.
  - intros now. unfold RequireAuth. rewrite E, GetSession_deleted.
    reflexivity.
  - unfold AuthLogout. rewrite E. reflexivity.
  - intros other N. rewrite GetSession_other by exact N.
    unfold GetSession, st'. cbn [sessions with_sessions].
    rewrite filter_app. cbn [filter row sr_id].
    assert (B : str_eqb sessionID other = false)
      by (apply str_eqb_neq; congruence).
    rewrite B, app_nil_r. reflexivity.
Qed.

(** ** Examples of the properties *)


Lemma X19_witness :
  map e_ID
    (generateExpensesFromRecurring uuidExample (lit "alice") ruleHourly UTC
       (Date 2026 2 10 9 0 0 0) false) = [lit "id-0"] /\
  generateExpensesFromRecurring uuidExample (lit "alice") ruleHourly UTC
    (Date 2026 2 10 9 0 0 0) true = [].
Proof.
  destruct (X19_invalid_interval_one_instance uuidExample (lit "alice")
              ruleHourly UTC (Date 2026 2 10 9 0 0 0) eq_refl) as [F T].
  rewrite T, F. split; reflexivity.
Defined.



Lemma dbWithBob_wellKeyed : wellKeyed dbWithBob.
Proof.
  unfold wellKeyed, uniqueCategories.
  repeat split; repeat constructor; vm_compute; intuition discriminate.
Qed.

Lemma X26_witness :
  wellKeyed
    (snd (serve february dbWithBob (lit "alice")
            (UpdateRecurringExpenseReq (lit "r1") ruleQuarter UTC false))).
Proof.
  destruct (X26_operations_keep_the_keys (lit "alice") february dbWithBob
              dbWithBob_wellKeyed) as [H _].
  apply H.
Defined.

Lemma X28_witness :
  GetCategories
    (data (snd (CreateUser asciiLower uuidExample (Date 2026 2 10 9 0 0 0)
                  storeWithBob (lit " Ann@Example.org ") (lit "hash"))))
    (lit "id-0") =
  (defaultCategories,
   data (snd (CreateUser asciiLower uuidExample (Date 2026 2 10 9 0 0 0)
                storeWithBob (lit " Ann@Example.org ") (lit "hash")))).
Proof.
  assert (E : CreateUser asciiLower uuidExample (Date 2026 2 10 9 0 0 0)
                storeWithBob (lit " Ann@Example.org ") (lit "hash") =
              (Ok (mkUser (lit "id-0") (lit "ann@example.org") (lit "hash")
                     (lit "active") (Date 2026 2 10 9 0 0 0)),
               snd (CreateUser asciiLower uuidExample
                      (Date 2026 2 10 9 0 0 0) storeWithBob
                      (lit " Ann@Example.org ") (lit "hash"))))
    by (vm_compute; reflexivity).
  destruct (X28_CreateUser_provisions asciiLower uuidExample
              (Date 2026 2 10 9 0 0 0) storeWithBob
              (lit " Ann@Example.org ") (lit "hash") _ _ E eq_refl eq_refl)
    as [_ [_ [H _]]].
  exact H.
Defined.

Lemma X30_witness :
  fst (RequireAuth (Date 2026 2 11 9 0 0 0)
         (snd (createSession (lit "s1") (Date 2026 2 10 9 0 0 0)
                 (Date 2026 2 10 9 0 0 1) (lit "10.0.0.1") (lit "curl")
                 storeWithBob (lit "alice") false))
         (Some (lit "s1"))) = Next (lit "alice") /\
  fst (RequireAuth (Date 2026 2 11 9 0 1 0)
         (snd (createSession (lit "s1") (Date 2026 2 10 9 0 0 0)
                 (Date 2026 2 10 9 0 0 1) (lit "10.0.0.1") (lit "curl")
                 storeWithBob (lit "alice") false))
         (Some (lit "s1"))) = SessionExpired.
Proof.
  destruct (X30_session_lifetime (lit "s1") (Date 2026 2 10 9 0 0 0)
              (Date 2026 2 10 9 0 0 1) (lit "10.0.0.1") (lit "curl")
              storeWithBob (lit "alice") false)
    as [st' [E [A [B _]]]].
  - discriminate.
  - intros [].
  - reflexivity.
  - reflexivity.
  - reflexivity.
  - reflexivity.
  - rewrite E. cbn [snd]. split.
    + rewrite A; [reflexivity|]. vm_compute. discriminate.
    + rewrite B; [reflexivity|]. vm_compute. reflexivity.
Defined.



Lemma X15_witness :
  GetExpense (snd (RemoveExpense dbWithBob (lit "alice") (lit "e1")))
    (lit "alice") (lit "e1") = Err NotFoundError /\
  RemoveExpense dbWithBob (lit "alice") (lit "e2") =
  (Err NotFoundError, dbWithBob).
Proof.
  destruct (X15_RemoveExpense_removes (lit "alice") dbWithBob (lit "e1"))
    as [_ H].
  destruct (H _ eq_refl) as [db' [E [G _]]].
  destruct (X15_RemoveExpense_removes (lit "alice") dbWithBob (lit "e2"))
    as [N _].
  split; [rewrite E; exact G | apply N; reflexivity].
Defined.

Lemma X23_witness :
  instancesOf (lit "alice") (lit "r1")
    (expenses
       (snd (RemoveRecurringExpense (Date 2026 2 10 9 0 0 0) dbWithBob
               (lit "alice") (lit "r1") true))) = [] /\
  RemoveRecurringExpense (Date 2026 2 10 9 0 0 0) dbWithBob (lit "bob")
    (lit "r1") true = (Err NotFoundError, dbWithBob).
Proof.
  destruct (X23_RemoveRecurringExpense_all (lit "alice")
              (Date 2026 2 10 9 0 0 0) dbWithBob (lit "r1")) as [_ H].
  destruct (H _ eq_refl) as [db' [E [_ [_ [I _]]]]].
  destruct (X23_RemoveRecurringExpense_all (lit "bob")
              (Date 2026 2 10 9 0 0 0) dbWithBob (lit "r1")) as [N _].
  split; [rewrite E; exact I | apply N; reflexivity].
Defined.

Lemma X25_witness :
  GetRecurringExpense
    (snd (UpdateRecurringExpense uuidExample (Date 2026 2 10 9 0 0 0)
            (Date 2026 2 10 9 0 0 0) dbWithBob (lit "alice") (lit "r1")
            ruleQuarter UTC false))
    (lit "alice") (lit "r1") =
  Ok (storedRule (lit "r1") (lit "usd") ruleQuarter).
Proof.
  destruct (X25_UpdateRecurringExpense_round_trip (lit "alice") uuidExample
              (Date 2026 2 10 9 0 0 0) (Date 2026 2 10 9 0 0 0) dbWithBob
              (lit "r1") ruleQuarter UTC false) as [_ [_ H]].
  destruct (H eq_refl) as [_ [_ [G _]]]. apply G. reflexivity.
Defined.


